(** * bmm: bookmark controllers, export serializer and manual sort

    A shallow embedding of
      - [src/controllers/PublicBookmark.controller.ts]
      - [src/controllers/UserBookmark.controller.ts]
      - [src/lib/auth/index.ts] ([getAuthedUserId])
      - the bookmark list page ([onSaveSorting])
    together with the properties of the bookmark subsystem.

    The relational store is modelled as lists of rows, one list per table;
    a drizzle statement is a function on the table it touches.  Errors
    thrown by the TypeScript code are values of [result]. *)

From Stdlib Require Import ZArith Lia String Ascii DecimalString DecimalZ DecimalPos.
From stdpp Require Import base option list strings gmap sorting.

Open Scope Z_scope.

(** ** Identifiers and errors *)

Definition BookmarkId := Z.
Definition TagId := Z.
Definition UserId := string.

(** One constructor per [throw new Error(...)] of the sources, and one for
    the error the drizzle insert builder raises on an empty value list. *)
Inductive Error : Type :=
  | BookmarkExists        (* '书签已存在' *)
  | UserBookmarkExists    (* '已存在相同网址或名称的书签' *)
  | BookmarkNotFound      (* '书签不存在' *)
  | AuthCallFailed        (* 'getAuthedUserId() 调用出错' *)
  | LoginExpired          (* '当前登录已失效，请重新登录' *)
  | EmptyInsertValues.    (* 'values() must be called with at least one value' *)

Inductive result (A : Type) : Type :=
  | Ok (a : A)
  | Err (e : Error).
Arguments Ok {A} a.
Arguments Err {A} e.

#[global] Instance result_ret : MRet result := fun _ a => Ok a.
#[global] Instance result_bind : MBind result := fun _ _ k r =>
  match r with
  | Ok a => k a
  | Err e => Err e
  end.

#[global] Instance result_fmap : FMap result := fun _ _ f r =>
  match r with
  | Ok a => Ok (f a)
  | Err e => Err e
  end.

(** ** Rows *)

(** A row of [publicBookmarkToTag] / [userBookmarkToTag]; the pair
    [(bId, tId)] is the key of the table. *)
Record BookmarkToTag : Type := mkBT { bId : BookmarkId; tId : TagId }.

#[global] Instance BookmarkToTag_eq_dec : EqDecision BookmarkToTag.
Proof. solve_decision. Defined.

Record Tag : Type := mkTag { tag_id : TagId; tag_name : string }.

(** A tag of the user space carries its owner. *)
Record UserTag : Type := mkUserTag { ut_userId : UserId; ut_tag : Tag }.

(** Columns of [publicBookmarks]; timestamps are milliseconds since the
    epoch and nullable, as is [sortOrder]. *)
Record Bookmark : Type := mkBookmark {
  id : BookmarkId;
  name : string;
  url : string;
  pinyin : option string;
  icon : option string;
  isPinned : bool;
  sortOrder : option Z;
  createdAt : option Z;
  updatedAt : option Z
}.

(** A row of [userBookmarks]: the same columns and the owner. *)
Record UserBookmark : Type := mkUserBookmark { userId : UserId; row : Bookmark }.

(** A selected bookmark with its related tag ids
    ([with: { relatedTagIds: true }] followed by [.map(el => el.tId)]). *)
Record SelectBookmark : Type := mkSelect { bookmark : Bookmark; relatedTagIds : list TagId }.

(** ** The store primitives used by the controllers *)

Module Store.

(** A statement on one table. *)
Definition stmt (R : Type) : Type := list R -> list R.

(** [db.insert(t).values(vs)]: the builder throws at once when [vs] is
    empty (which is why the user controller guards its insert with
    [tagIds.length &&]). *)
Definition values {R : Type} (vs : list R) : result (list R) :=
  match vs with
  | [] => Err EmptyInsertValues
  | _ => Ok vs
  end.

(** [.onConflictDoNothing()]: each value is appended unless a row with the
    same key is already there. *)
Definition onConflictDoNothing {R : Type} `{EqDecision R} (vs : list R) : stmt R :=
  fun tbl => fold_left (fun t r => if decide (r ∈ t) then t else t ++ [r]) vs tbl.

(** [db.delete(t).where(p)] *)
Definition delete_where {R : Type} (p : R -> bool) : stmt R :=
  fun tbl => filter (fun r => p r = false) tbl.

(** [inArray(col, vs)] and [notInArray(col, vs)]; on an empty [vs] they
    are [false] and [true]. *)
Definition inArray {K : Type} `{EqDecision K} (k : K) (vs : list K) : bool :=
  bool_decide (k ∈ vs).
Definition notInArray {K : Type} `{EqDecision K} (k : K) (vs : list K) : bool :=
  negb (inArray k vs).

(** The order in which the store runs two statements started together by
    [Promise.all([a, b])]. *)
Inductive schedule : Type := FirstThenSecond | SecondThenFirst.

Definition promise_all2 {R : Type} (sch : schedule) (a b : stmt R) : stmt R :=
  fun tbl =>
    match sch with
    | FirstThenSecond => b (a tbl)
    | SecondThenFirst => a (b tbl)
    end.

(** [COUNT(DISTINCT col)] over a group. *)
Definition count_distinct {K : Type} `{EqDecision K} (l : list K) : nat :=
  length (remove_dups l).

End Store.

(** ** PublicBookmark.controller.ts: tag association *)

Module PublicTags.

(** [fullSetBookmarkToTag(bId, tagIds)] *)
Definition fullSetBookmarkToTag (sch : Store.schedule) (b : BookmarkId) (tagIds : list TagId)
    (tbl : list BookmarkToTag) : result (list BookmarkToTag) :=
  vs ← Store.values (map (fun t => mkBT b t) tagIds);
  let ins := Store.onConflictDoNothing vs in
  let del := Store.delete_where
               (fun r => bool_decide (bId r = b) && Store.notInArray (tId r) tagIds) in
  Ok (Store.promise_all2 sch ins del tbl).

End PublicTags.

(** ** lib/auth/index.ts *)

(** What [auth()] resolves to: a session whose user may lack an id. *)
Record Session : Type := mkSession { session_user_id : option UserId }.

(** The tables of the user space; [users] holds the ids of [schema.users]
    and [userBookmarkSeq] the next generated bookmark id. *)
Record UserDb : Type := mkUserDb {
  users : list UserId;
  userTags : list UserTag;
  userBookmarks : list UserBookmark;
  userBookmarkToTag : list BookmarkToTag;
  userBookmarkSeq : Z
}.

(** The tables of the public space. *)
Record PublicDb : Type := mkPublicDb {
  publicTags : list Tag;
  publicBookmarks : list Bookmark;
  publicBookmarkToTag : list BookmarkToTag;
  publicBookmarkSeq : Z
}.

(** [getAuthedUserId()] *)
Definition getAuthedUserId (s : option Session) (db : UserDb) : result UserId :=
  match s with
  | None => Err AuthCallFailed
  | Some session =>
      match session_user_id session with
      | None => Err AuthCallFailed
      | Some uid =>
          if bool_decide (uid = EmptyString) then Err AuthCallFailed
          else if bool_decide (uid ∈ users db) then Ok uid
          else Err LoginExpired
      end
  end.

(** ** Tag controllers (collaborators) *)

(** Modelled from the spec: [PublicTagController.getAll()] is not among the
    sources; it lists all tags of the scope, in their stored order. *)
Definition PublicTag_getAll (db : PublicDb) : list Tag := publicTags db.

(** Modelled from the spec: [UserTagController.getAll(userId)] is not among
    the sources; it lists the tags owned by [uid], in their stored order. *)
Definition UserTag_getAll (uid : UserId) (db : UserDb) : list Tag :=
  map ut_tag (filter (fun t => ut_userId t = uid) (userTags db)).

(** Modelled from the spec: [UserTagController.filterUserTagIds(userId, ids)]
    is not among the sources; it keeps the ids that are tags owned by
    [uid] and drops the others. *)
Definition filterUserTagIds (uid : UserId) (ids : list TagId) (db : UserDb) : list TagId :=
  filter (fun t => t ∈ map tag_id (UserTag_getAll uid db)) ids.

(** ** UserBookmark.controller.ts: tag association *)

Module UserTags.

Definition set_userBookmarkToTag (db : UserDb) (tbl : list BookmarkToTag) : UserDb :=
  mkUserDb (users db) (userTags db) (userBookmarks db) tbl (userBookmarkSeq db).

(** [fullSetBookmarkToTag(bId, tagIds?)]; [None] is an absent argument. *)
Definition fullSetBookmarkToTag (sch : Store.schedule) (s : option Session)
    (b : BookmarkId) (tagIds : option (list TagId)) (db : UserDb) : result UserDb :=
  match tagIds with
  | None | Some [] => Ok db
  | Some tagIds =>
      uid ← getAuthedUserId s db;
      let tagIds := filterUserTagIds uid tagIds db in
      ins ← match tagIds with
            | [] => Ok (fun tbl => tbl)
            | _ => vs ← Store.values (map (fun t => mkBT b t) tagIds);
                   Ok (Store.onConflictDoNothing vs)
            end;
      let del := Store.delete_where
                   (fun r => bool_decide (bId r = b) && Store.notInArray (tId r) tagIds) in
      Ok (set_userBookmarkToTag db (Store.promise_all2 sch ins del (userBookmarkToTag db)))
  end.

End UserTags.

(** ** Collaborators that are not among the sources *)

(** [getPinyin] ([@/utils]), [createBookmarkFilterByKeyword] ([./common]) and
    the built-in [Date.parse] (its result in milliseconds, [None] for [NaN])
    are taken as parameters. *)
Class Env : Type := mkEnv {
  getPinyin : string -> string;
  createBookmarkFilterByKeyword : string -> Bookmark -> bool;
  Date_parse : string -> option Z
}.

(** The readings of [Date.now()] during one call, in call order. *)
Definition Clock : Type := nat -> Z.

(** ** Drafts, patches and queries *)

(** The argument of [insert]; [None] is an absent (undefined) property.  The
    generated columns [id], [createdAt] and [updatedAt] are left to the
    store. *)
Record InsertBookmark : Type := mkInsert {
  ins_name : string;
  ins_url : string;
  ins_pinyin : option string;
  ins_icon : option string;
  ins_isPinned : option bool;
  ins_sortOrder : option Z;
  ins_relatedTagIds : option (list TagId)
}.

(** The argument of [update]: [Partial<SelectBookmark> & Pick<.., 'id'>],
    in the user space [Partial<SelectUserBookmark> & Pick<.., 'id'>].  A
    column field holds the value of the property when the object has one that
    is not undefined.  [upd_userId] is the property [userId], a column of
    [userBookmarks] only.  [upd_otherKeys] counts the further own keys of the
    object: those whose value is undefined and those that name no column;
    [.set] ignores them, [Object.keys] counts them. *)
Record UpdateBookmark : Type := mkUpdate {
  upd_id : BookmarkId;
  upd_relatedTagIds : option (list TagId);
  upd_name : option string;
  upd_url : option string;
  upd_pinyin : option string;
  upd_icon : option string;
  upd_isPinned : option bool;
  upd_sortOrder : option Z;
  upd_createdAt : option Z;
  upd_updatedAt : option Z;
  upd_userId : option UserId;
  upd_otherKeys : nat
}.

Definition present {A : Type} (o : option A) : bool :=
  match o with Some _ => true | None => false end.

(** [Object.keys(resetBookmark).length] is non-zero: the object has a key
    besides [id] and [relatedTagIds]. *)
Definition has_keys (p : UpdateBookmark) : bool :=
  present (upd_name p) || present (upd_url p) || present (upd_pinyin p)
  || present (upd_icon p) || present (upd_isPinned p) || present (upd_sortOrder p)
  || present (upd_createdAt p) || present (upd_updatedAt p)
  || present (upd_userId p) || bool_decide (0 < upd_otherKeys p)%nat.

(** JavaScript truthiness of an optional string. *)
Definition truthy (s : option string) : bool :=
  match s with
  | Some (String _ _) => true
  | _ => false
  end.

(** [.set({...})]: a property that is undefined leaves its column as it is. *)
Definition set_columns (b : Bookmark) (p_name p_url p_pinyin p_icon : option string)
    (p_isPinned : option bool) (p_sortOrder p_createdAt p_updatedAt : option Z) : Bookmark :=
  {| id := id b;
     name := default (name b) p_name;
     url := default (url b) p_url;
     pinyin := match p_pinyin with Some v => Some v | None => pinyin b end;
     icon := match p_icon with Some v => Some v | None => icon b end;
     isPinned := default (isPinned b) p_isPinned;
     sortOrder := match p_sortOrder with Some v => Some v | None => sortOrder b end;
     createdAt := match p_createdAt with Some v => Some v | None => createdAt b end;
     updatedAt := match p_updatedAt with Some v => Some v | None => updatedAt b end |}.

Definition set_sortOrder (b : Bookmark) (o : Z) : Bookmark :=
  set_columns b None None None None None (Some o) None None.

(** The sorter keys of [findManyBookmarksSchema]. *)
Inductive SorterKey : Type :=
  | Manual | CreateTimeDesc | CreateTimeAsc | UpdateTimeDesc | UpdateTimeAsc.

Definition sorterKey_string (k : SorterKey) : string :=
  match k with
  | Manual => "manual"
  | CreateTimeDesc => "-createTime"
  | CreateTimeAsc => "+createTime"
  | UpdateTimeDesc => "-updateTime"
  | UpdateTimeAsc => "+updateTime"
  end.

Definition startsWith (s p : string) : bool := String.prefix p s.
Definition includes (s sub : string) : bool :=
  match String.index 0 sub s with Some _ => true | None => false end.

(** The parsed query of [findMany]: [tagIds] after its default [[]], an
    absent [keyword] as the empty string, absent [tagNames] as [[]]. *)
Record FindManyQuery : Type := mkQuery {
  keyword : string;
  tagIds : list TagId;
  tagNames : list string;
  page : nat;
  limit : nat;
  sorterKey : SorterKey
}.

Record FindManyResult : Type := mkResult {
  total : nat;
  hasMore : bool;
  list_ : list SelectBookmark
}.

(** ** Ordering of a selection *)

(** Comparison of a nullable column; NULL sorts below every value. *)
Definition compare_column (a b : option Z) : comparison :=
  match a, b with
  | None, None => Eq
  | None, Some _ => Lt
  | Some _, None => Gt
  | Some x, Some y => Z.compare x y
  end.

Definition asc {R : Type} (col : R -> option Z) (a b : R) : comparison :=
  compare_column (col a) (col b).
Definition desc {R : Type} (col : R -> option Z) (a b : R) : comparison :=
  compare_column (col b) (col a).

Fixpoint lexicographic {R : Type} (keys : list (R -> R -> comparison)) (a b : R) : comparison :=
  match keys with
  | [] => Eq
  | k :: keys => match k a b with Eq => lexicographic keys a b | c => c end
  end.

(** [orderBy: keys].  The store does not say in which order it returns rows
    that compare equal; here it is the order this merge sort leaves them in. *)
Definition orderBy {R : Type} (keys : list (R -> R -> comparison)) (rows : list R) : list R :=
  merge_sort (fun a b => lexicographic keys a b ≠ Gt) rows.

(** [orderBy] of [findMany] for a sorter key; [None] is no ordering. *)
Definition sorter_orderBy {R : Type} (col : R -> Bookmark) (k : SorterKey)
    : option (list (R -> R -> comparison)) :=
  let key := sorterKey_string k in
  if bool_decide (key = "manual"%string)
  then Some [desc (fun r => sortOrder (col r)); desc (fun r => updatedAt (col r))]
  else
    let sort := if startsWith key "-" then @desc R else @asc R in
    if includes key "update" then Some [sort (fun r => updatedAt (col r))]
    else if includes key "create" then Some [sort (fun r => createdAt (col r))]
    else None.

(** [with: { relatedTagIds: true }] and [.map(el => el.tId)]: the tag ids
    of the join rows of bookmark [b]. *)
Definition related (join : list BookmarkToTag) (b : BookmarkId) : list TagId :=
  map tId (filter (fun r => bId r = b) join).

Definition with_relatedTagIds (join : list BookmarkToTag) (b : Bookmark) : SelectBookmark :=
  mkSelect b (related join (id b)).

(** The sub-select of [findMany]:
    [select bId from join where tId in tagIds group by bId
     having count(distinct tId) = tagIds.length]. *)
Definition findTargetBIds (join : list BookmarkToTag) (tagIds : list TagId) : list BookmarkId :=
  let matching := filter (fun r => Store.inArray (tId r) tagIds = true) join in
  let groups := remove_dups (map bId matching) in
  filter (fun b =>
            Store.count_distinct (map tId (filter (fun r => bId r = b) matching))
            = length tagIds) groups.

(** [tagNames] resolved against the tags of the scope and pushed to
    [tagIds]; a name with no tag is skipped. *)
Definition resolve_tagNames (tags : list Tag) (tagIds : list TagId) (names : list string)
    : list TagId :=
  fold_left (fun ids n =>
               match list_find (fun el => tag_name el = n) tags with
               | Some (_, tag) => ids ++ [tag_id tag]
               | None => ids
               end) names tagIds.

(** [limit] and [offset: (page - 1) * limit]. *)
Definition paginate {R : Type} (q : FindManyQuery) (rows : list R) : list R :=
  take (limit q) (drop ((page q - 1) * limit q)%nat rows).

(** ** The export serializer

    [BookmarkHtmlItem], [BookmarkHtmlFolder], [buildBookmarkHtml] and the
    grouping loop of [exportHtml] are the same text in both controllers;
    they are embedded once. *)

(** A value of type [unknown], as far as [toUnixSeconds] tells values apart.
    Numbers are integers here: fractional numbers and [NaN] are left out. *)
Inductive JsValue : Type :=
  | JUndefined
  | JNull
  | JDate (ms : Z)
  | JNumber (n : Z)
  | JString (s : string)
  | JOther.

Record BookmarkHtmlItem : Type := mkItem {
  item_name : string;
  item_url : string;
  item_createdAt : JsValue;
  item_updatedAt : JsValue
}.

Record BookmarkHtmlFolder : Type := mkFolder {
  folder_name : string;
  folder_bookmarks : list BookmarkHtmlItem
}.

(** How a nullable timestamp column reaches the serializer. *)
Definition column_value (c : option Z) : JsValue :=
  match c with
  | Some ms => JDate ms
  | None => JNull
  end.

Module BookmarkHtml.

Definition newline : string := String "010"%char EmptyString.
Definition dquote : string := String "034"%char EmptyString.

(** [s.replaceAll(c, by)] for a one-character pattern. *)
Fixpoint replaceAll (c : ascii) (by_ : string) (s : string) : string :=
  match s with
  | EmptyString => EmptyString
  | String a s => if Ascii.eqb a c then by_ +:+ replaceAll c by_ s
                  else String a (replaceAll c by_ s)
  end.

Definition escapeHtml (val : string) : string :=
  replaceAll "034"%char "&quot;"
    (replaceAll ">"%char "&gt;"
       (replaceAll "<"%char "&lt;"
          (replaceAll "&"%char "&amp;" val))).

(** An integer inside a template literal (plain decimal digits, as
    JavaScript prints integers below 10^21). *)
Definition show (n : Z) : string := NilZero.string_of_int (Z.to_int n).

(** [a ?? b] *)
Definition nullish (a b : JsValue) : JsValue :=
  match a with
  | JUndefined | JNull => b
  | _ => a
  end.

(** [a || b] on strings *)
Definition or_else (a b : string) : string :=
  match a with
  | EmptyString => b
  | _ => a
  end.

Section Serializer.
Context `{Env}.
Variable clock : Clock.

(** [Math.floor(Date.now() / 1000)] at the [k]-th reading. *)
Definition now_seconds (k : nat) : Z := clock k / 1000.

(** [toUnixSeconds(val)] with [k] readings of the clock already taken;
    the result comes with the number of readings taken afterwards. *)
Definition toUnixSeconds (k : nat) (val : JsValue) : Z * nat :=
  match val with
  | JDate ms => (ms / 1000, k)
  | JNumber n => (if 10000000000 <? n then n / 1000 else n, k)
  | JString s =>
      match Date_parse s with
      | Some t => (t / 1000, k)
      | None => (now_seconds k, S k)
      end
  | _ => (now_seconds k, S k)
  end.

(** The [ADD_DATE] of one bookmark entry. *)
Definition addDate (k : nat) (b : BookmarkHtmlItem) : Z * nat :=
  toUnixSeconds k (nullish (item_createdAt b) (item_updatedAt b)).

Definition bookmark_line (b : BookmarkHtmlItem) (date : Z) : string :=
  "      <DT><A HREF=" +:+ dquote +:+ escapeHtml (item_url b) +:+ dquote
    +:+ " ADD_DATE=" +:+ dquote +:+ show date +:+ dquote +:+ ">"
    +:+ escapeHtml (or_else (item_name b) (item_url b)) +:+ "</A>".

Fixpoint bookmark_lines (k : nat) (bs : list BookmarkHtmlItem) : list string * nat :=
  match bs with
  | [] => ([], k)
  | b :: bs =>
      let '(date, k) := addDate k b in
      let '(ls, k) := bookmark_lines k bs in
      (bookmark_line b date :: ls, k)
  end.

Fixpoint folder_lines (folderAddDate : Z) (k : nat) (fs : list BookmarkHtmlFolder)
    : list string * nat :=
  match fs with
  | [] => ([], k)
  | folder :: fs =>
      let '(bs, k) := bookmark_lines k (folder_bookmarks folder) in
      let '(ls, k) := folder_lines folderAddDate k fs in
      ((("    <DT><H3 ADD_DATE=" +:+ dquote +:+ show folderAddDate +:+ dquote +:+ ">"
           +:+ escapeHtml (folder_name folder) +:+ "</H3>")
          :: "    <DL><p>" :: bs ++ ["    </DL><p>"]) ++ ls, k)
  end.

(** [buildBookmarkHtml({ title, folderName, folders })] *)
Definition buildBookmarkHtml (title folderName : string)
    (folders : list BookmarkHtmlFolder) : string :=
  let title := escapeHtml title in
  let folderName := escapeHtml folderName in
  let folderAddDate := now_seconds 0 in
  let lines :=
    [ "<!DOCTYPE NETSCAPE-Bookmark-file-1>";
      "<META HTTP-EQUIV=" +:+ dquote +:+ "Content-Type" +:+ dquote +:+ " CONTENT="
        +:+ dquote +:+ "text/html; charset=UTF-8" +:+ dquote +:+ ">";
      "<TITLE>" +:+ title +:+ "</TITLE>";
      "<H1>" +:+ title +:+ "</H1>";
      "<DL><p>";
      "  <DT><H3 ADD_DATE=" +:+ dquote +:+ show folderAddDate +:+ dquote +:+ ">"
        +:+ folderName +:+ "</H3>";
      "  <DL><p>" ]%string in
  let lines := lines ++ fst (folder_lines folderAddDate 1 folders) in
  let lines := lines ++ ["  </DL><p>"; "</DL><p>"]%string in
  String.concat newline lines.

End Serializer.

(** The item [{ name, url, createdAt, updatedAt }] built from a selected
    bookmark. *)
Definition item_of (b : Bookmark) : BookmarkHtmlItem :=
  mkItem (name b) (url b) (column_value (createdAt b)) (column_value (updatedAt b)).

(** One turn of the inner loop [for (const tId of tagIds)]. *)
Definition push_tag (tagIdToName : gmap TagId string) (item : BookmarkHtmlItem)
    (tagIdToBookmarks : gmap TagId (list BookmarkHtmlItem)) (t : TagId)
    : gmap TagId (list BookmarkHtmlItem) :=
  match tagIdToName !! t with
  | None => tagIdToBookmarks
  | Some _ =>
      match tagIdToBookmarks !! t with
      | Some arr => <[t := arr ++ [item]]> tagIdToBookmarks
      | None => <[t := [item]]> tagIdToBookmarks
      end
  end.

(** One turn of the loop [for (const b of list)]; the state is
    [(tagIdToBookmarks, untagged)].  [Number.isFinite] keeps every id. *)
Definition group_step (tagIdToName : gmap TagId string)
    (st : gmap TagId (list BookmarkHtmlItem) * list BookmarkHtmlItem) (b : SelectBookmark)
    : gmap TagId (list BookmarkHtmlItem) * list BookmarkHtmlItem :=
  let item := item_of (bookmark b) in
  match relatedTagIds b with
  | [] => (fst st, snd st ++ [item])
  | tagIds => (fold_left (push_tag tagIdToName item) tagIds (fst st), snd st)
  end.

(** The folders handed to [buildBookmarkHtml]. *)
Definition export_folders (tags : list Tag) (rows : list SelectBookmark)
    : list BookmarkHtmlFolder :=
  let tagIdToName : gmap TagId string :=
    list_to_map (reverse (map (fun t => (tag_id t, tag_name t)) tags)) in
  let '(tagIdToBookmarks, untagged) := fold_left (group_step tagIdToName) rows (∅, []) in
  let folders :=
    omap (fun t => match tagIdToBookmarks !! tag_id t with
                   | Some (b :: bs) => Some (mkFolder (tag_name t) (b :: bs))
                   | _ => None
                   end) tags in
  match untagged with
  | [] => folders
  | _ => folders ++ [mkFolder "未分类" untagged]
  end.

End BookmarkHtml.

(** ** Statements on the bookmark tables *)

(** [db.update(t).set(f).where(p)] *)
Definition update_where {R : Type} (p : R -> bool) (f : R -> R) : Store.stmt R :=
  fun tbl => map (fun r => if p r then f r else r) tbl.

(** [.returning()] of that update. *)
Definition update_returning {R : Type} (p : R -> bool) (f : R -> R) (tbl : list R) : list R :=
  map f (filter (fun r => p r = true) tbl).

(** The conjunction [and(...filters)]; no filter selects every row. *)
Definition and_filters {R : Type} (filters : list (R -> bool)) (r : R) : bool :=
  forallb (fun f => f r) filters.

(** ** PublicBookmark.controller.ts *)

Module PublicBookmarkController.
Section Controller.
Context `{Env}.

Definition set_bookmarks (db : PublicDb) (rows : list Bookmark) : PublicDb :=
  mkPublicDb (publicTags db) rows (publicBookmarkToTag db) (publicBookmarkSeq db).
Definition set_bookmarkToTag (db : PublicDb) (join : list BookmarkToTag) : PublicDb :=
  mkPublicDb (publicTags db) (publicBookmarks db) join (publicBookmarkSeq db).

(** [insert(bookmark)], at time [now]: the store generates the id and
    fills [createdAt] and [updatedAt] with the time of the insert. *)
Definition insert (sch : Store.schedule) (now : Z) (bookmark : InsertBookmark)
    (db : PublicDb) : result (Bookmark * PublicDb) :=
  let count := length (filter (fun b => url b = ins_url bookmark ∨ name b = ins_name bookmark)
                         (publicBookmarks db)) in
  if bool_decide (0 < count)%nat then Err BookmarkExists
  else
    let pinyin := if truthy (ins_pinyin bookmark) then ins_pinyin bookmark
                  else Some (getPinyin (ins_name bookmark)) in
    let newId := publicBookmarkSeq db in
    let row := mkBookmark newId (ins_name bookmark) (ins_url bookmark) pinyin (ins_icon bookmark)
                 (default false (ins_isPinned bookmark)) (ins_sortOrder bookmark)
                 (Some now) (Some now) in
    let db := mkPublicDb (publicTags db) (publicBookmarks db ++ [row])
                (publicBookmarkToTag db) (newId + 1) in
    db ← match ins_relatedTagIds bookmark with
         | Some (t :: ts) =>
             join ← PublicTags.fullSetBookmarkToTag sch newId (t :: ts) (publicBookmarkToTag db);
             Ok (set_bookmarkToTag db join)
         | _ => Ok db
         end;
    match ins_sortOrder bookmark with
    | None =>
        let rows := update_where (fun b => bool_decide (id b = newId))
                      (fun b => set_sortOrder b newId) (publicBookmarks db) in
        Ok (set_sortOrder row newId, set_bookmarks db rows)
    | Some _ => Ok (row, db)
    end.

(** [query({ id })] *)
Definition query (i : BookmarkId) (db : PublicDb) : result SelectBookmark :=
  match list_find (fun b => id b = i) (publicBookmarks db) with
  | Some (_, res) => Ok (with_relatedTagIds (publicBookmarkToTag db) res)
  | None => Err BookmarkNotFound
  end.

(** [update(bookmark)], at time [now]; the value is [res.pop()]. *)
Definition update (sch : Store.schedule) (now : Z) (bookmark : UpdateBookmark)
    (db : PublicDb) : result (option Bookmark * PublicDb) :=
  let target := upd_id bookmark in
  db ← match upd_relatedTagIds bookmark with
       | Some (t :: ts) =>
           join ← PublicTags.fullSetBookmarkToTag sch target (t :: ts) (publicBookmarkToTag db);
           Ok (set_bookmarkToTag db join)
       | _ => Ok db
       end;
  if has_keys bookmark then
    let pinyin := if truthy (upd_name bookmark)
                  then Some (getPinyin (default EmptyString (upd_name bookmark)))
                  else None in
    let set b := set_columns b (upd_name bookmark) (upd_url bookmark) pinyin
                   (upd_icon bookmark) (upd_isPinned bookmark) (upd_sortOrder bookmark)
                   (upd_createdAt bookmark) (Some now) in
    let p b := bool_decide (id b = target) in
    Ok (head (update_returning p set (publicBookmarks db)),
        set_bookmarks db (update_where p set (publicBookmarks db)))
  else Ok (None, db).

(** [deleteMany(ids)]; the value is the field [deleted]. *)
Definition deleteMany (ids : list BookmarkId) (db : PublicDb) : nat * PublicDb :=
  match ids with
  | [] => (0%nat, db)
  | _ =>
      (length ids,
       set_bookmarks db
         (Store.delete_where (fun b => Store.inArray (id b) ids) (publicBookmarks db)))
  end.

(** [sort(orders)] *)
Definition sort (orders : list (BookmarkId * Z)) (db : PublicDb) : PublicDb :=
  set_bookmarks db
    (fold_left (fun rows el =>
                  update_where (fun b => bool_decide (id b = fst el))
                    (fun b => set_sortOrder b (snd el)) rows)
       orders (publicBookmarks db)).

(** The tag ids [findMany] filters on: [tagIds] with the resolved
    [tagNames] pushed to it. *)
Definition findMany_tagIds (q : FindManyQuery) (db : PublicDb) : list TagId :=
  match tagNames q with
  | [] => tagIds q
  | names => resolve_tagNames (PublicTag_getAll db) (tagIds q) names
  end.

Definition getFilters (q : FindManyQuery) (db : PublicDb) : list (Bookmark -> bool) :=
  (match keyword q with
   | EmptyString => []
   | kw => [createBookmarkFilterByKeyword kw]
   end)
  ++ (match findMany_tagIds q db with
      | [] => []
      | ids => [fun b => Store.inArray (id b) (findTargetBIds (publicBookmarkToTag db) ids)]
      end).

(** [findMany(query)] *)
Definition findMany (q : FindManyQuery) (db : PublicDb) : FindManyResult :=
  let filters := getFilters q db in
  let selected := filter (fun b => and_filters filters b = true) (publicBookmarks db) in
  let ordered := match sorter_orderBy (fun b => b) (sorterKey q) with
                 | Some keys => orderBy keys selected
                 | None => selected
                 end in
  let total := length selected in
  mkResult total (bool_decide (page q * limit q < total)%nat)
    (map (with_relatedTagIds (publicBookmarkToTag db)) (paginate q ordered)).

(** [exportHtml()] *)
Definition exportHtml (clock : Clock) (db : PublicDb) : string :=
  let tags := PublicTag_getAll db in
  let rows := orderBy [desc sortOrder; desc updatedAt] (publicBookmarks db) in
  let folders := BookmarkHtml.export_folders tags
                   (map (with_relatedTagIds (publicBookmarkToTag db)) rows) in
  BookmarkHtml.buildBookmarkHtml clock "bmm public bookmarks" "bmm-export" folders.

(** [delete({ id })]; the value is the list of deleted rows
    ([.returning()]). *)
Definition delete (i : BookmarkId) (db : PublicDb) : list Bookmark * PublicDb :=
  let p b := bool_decide (id b = i) in
  (filter (fun b => p b = true) (publicBookmarks db),
   set_bookmarks db (Store.delete_where p (publicBookmarks db))).

(** [total()] *)
Definition total_ (db : PublicDb) : nat := length (publicBookmarks db).

(** [DEFAULT_BOOKMARK_PAGESIZE] of [@cfg], which is not among the sources. *)
Variable DEFAULT_BOOKMARK_PAGESIZE : nat.

(** [recent()] *)
Definition recent (db : PublicDb) : list SelectBookmark :=
  map (with_relatedTagIds (publicBookmarkToTag db))
    (take DEFAULT_BOOKMARK_PAGESIZE
       (orderBy [desc sortOrder; desc updatedAt] (publicBookmarks db))).

(** [search(keyword)] *)
Definition search (kw : string) (db : PublicDb) : list SelectBookmark :=
  map (with_relatedTagIds (publicBookmarkToTag db))
    (take 100
       (orderBy [desc sortOrder; desc updatedAt]
          (filter (fun b => createBookmarkFilterByKeyword kw b = true) (publicBookmarks db)))).

End Controller.
End PublicBookmarkController.

(** ** UserBookmark.controller.ts *)

(** [userLimiter(userId, bookmarkId?)]; an absent or zero [bookmarkId] is
    falsy and leaves the owner test alone. *)
Definition userLimiter (uid : UserId) (bookmarkId : option BookmarkId) (b : UserBookmark) : bool :=
  match bookmarkId with
  | None | Some 0 => bool_decide (userId b = uid)
  | Some i => bool_decide (id (row b) = i) && bool_decide (userId b = uid)
  end.

Module UserBookmarkController.
Section Controller.
Context `{Env}.

Definition set_bookmarks (db : UserDb) (rows : list UserBookmark) : UserDb :=
  mkUserDb (users db) (userTags db) rows (userBookmarkToTag db) (userBookmarkSeq db).

Definition on_row (f : Bookmark -> Bookmark) (b : UserBookmark) : UserBookmark :=
  mkUserBookmark (userId b) (f (row b)).

(** [insert(bookmark)], at time [now]. *)
Definition insert (sch : Store.schedule) (s : option Session) (now : Z)
    (bookmark : InsertBookmark) (db : UserDb) : result (Bookmark * UserDb) :=
  uid ← getAuthedUserId s db;
  let count :=
    length (filter (fun b => userId b = uid
                             ∧ (url (row b) = ins_url bookmark
                                ∨ name (row b) = ins_name bookmark))
              (userBookmarks db)) in
  if bool_decide (0 < count)%nat then Err UserBookmarkExists
  else
    let pinyin := if truthy (ins_pinyin bookmark) then ins_pinyin bookmark
                  else Some (getPinyin (ins_name bookmark)) in
    let newId := userBookmarkSeq db in
    let new := mkBookmark newId (ins_name bookmark) (ins_url bookmark) pinyin
                 (ins_icon bookmark) (default false (ins_isPinned bookmark))
                 (ins_sortOrder bookmark) (Some now) (Some now) in
    let db := mkUserDb (users db) (userTags db)
                (userBookmarks db ++ [mkUserBookmark uid new])
                (userBookmarkToTag db) (newId + 1) in
    db ← UserTags.fullSetBookmarkToTag sch s newId (ins_relatedTagIds bookmark) db;
    match ins_sortOrder bookmark with
    | None =>
        let rows := update_where (fun b => bool_decide (id (row b) = newId))
                      (on_row (fun b => set_sortOrder b newId)) (userBookmarks db) in
        Ok (set_sortOrder new newId, set_bookmarks db rows)
    | Some _ => Ok (new, db)
    end.

(** [query({ id })] *)
Definition query (s : option Session) (i : BookmarkId) (db : UserDb) : result SelectBookmark :=
  uid ← getAuthedUserId s db;
  match list_find (fun b => userLimiter uid (Some i) b = true) (userBookmarks db) with
  | Some (_, res) => Ok (with_relatedTagIds (userBookmarkToTag db) (row res))
  | None => Err BookmarkNotFound
  end.

(** [update(bookmark)], at time [now].  The spread [...resetBookmark]
    hands every remaining property to [.set], the owner [userId] among them. *)
Definition update (sch : Store.schedule) (s : option Session) (now : Z)
    (bookmark : UpdateBookmark) (db : UserDb) : result UserDb :=
  let target := upd_id bookmark in
  db ← UserTags.fullSetBookmarkToTag sch s target (upd_relatedTagIds bookmark) db;
  if has_keys bookmark then
    let pinyin := if truthy (upd_name bookmark) && negb (truthy (upd_pinyin bookmark))
                  then Some (getPinyin (default EmptyString (upd_name bookmark)))
                  else upd_pinyin bookmark in
    uid ← getAuthedUserId s db;
    let set b :=
      mkUserBookmark (default (userId b) (upd_userId bookmark))
        (set_columns (row b) (upd_name bookmark) (upd_url bookmark) pinyin
           (upd_icon bookmark) (upd_isPinned bookmark) (upd_sortOrder bookmark)
           (upd_createdAt bookmark) (Some now)) in
    Ok (set_bookmarks db
          (update_where (userLimiter uid (Some target)) set (userBookmarks db)))
  else Ok db.

(** [deleteMany(ids)]; the value is the field [deleted]. *)
Definition deleteMany (s : option Session) (ids : list BookmarkId) (db : UserDb)
    : result (nat * UserDb) :=
  match ids with
  | [] => Ok (0%nat, db)
  | _ =>
      uid ← getAuthedUserId s db;
      Ok (length ids,
          set_bookmarks db
            (Store.delete_where
               (fun b => userLimiter uid None b && Store.inArray (id (row b)) ids)
               (userBookmarks db)))
  end.

(** [sort(orders)] *)
Definition sort (s : option Session) (orders : list (BookmarkId * Z)) (db : UserDb)
    : result UserDb :=
  uid ← getAuthedUserId s db;
  Ok (set_bookmarks db
        (fold_left (fun rows el =>
                      update_where (userLimiter uid (Some (fst el)))
                        (on_row (fun b => set_sortOrder b (snd el))) rows)
           orders (userBookmarks db))).

(** [tagIds] with the resolved [tagNames] pushed to it. *)
Definition findMany_tagIds (uid : UserId) (q : FindManyQuery) (db : UserDb) : list TagId :=
  match tagNames q with
  | [] => tagIds q
  | names => resolve_tagNames (UserTag_getAll uid db) (tagIds q) names
  end.

(** [newTagIds] of [getFilters]. *)
Definition newTagIds (uid : UserId) (q : FindManyQuery) (db : UserDb) : list TagId :=
  filterUserTagIds uid (findMany_tagIds uid q db) db.

Definition getFilters (uid : UserId) (q : FindManyQuery) (db : UserDb)
    : list (UserBookmark -> bool) :=
  [userLimiter uid None]
  ++ (match keyword q with
      | EmptyString => []
      | kw => [fun b => createBookmarkFilterByKeyword kw (row b)]
      end)
  ++ (match newTagIds uid q db with
      | [] => []
      | ids => [fun b => Store.inArray (id (row b))
                           (findTargetBIds (userBookmarkToTag db) ids)]
      end).

(** [findMany(query)] *)
Definition findMany (s : option Session) (q : FindManyQuery) (db : UserDb)
    : result FindManyResult :=
  uid ← getAuthedUserId s db;
  let filters := getFilters uid q db in
  let selected := filter (fun b => and_filters filters b = true) (userBookmarks db) in
  let ordered := match sorter_orderBy row (sorterKey q) with
                 | Some keys => orderBy keys selected
                 | None => selected
                 end in
  let total := length selected in
  Ok (mkResult total (bool_decide (page q * limit q < total)%nat)
        (map (fun b => with_relatedTagIds (userBookmarkToTag db) (row b))
           (paginate q ordered))).

(** [exportHtml()] *)
Definition exportHtml (s : option Session) (clock : Clock) (db : UserDb) : result string :=
  uid ← getAuthedUserId s db;
  let tags := UserTag_getAll uid db in
  let rows := orderBy [desc (fun b => sortOrder (row b)); desc (fun b => updatedAt (row b))]
                (filter (fun b => userLimiter uid None b = true) (userBookmarks db)) in
  let folders := BookmarkHtml.export_folders tags
                   (map (fun b => with_relatedTagIds (userBookmarkToTag db) (row b)) rows) in
  Ok (BookmarkHtml.buildBookmarkHtml clock "bmm user bookmarks" "bmm-export" folders).

(** [delete({ id })]; the value is the list of deleted rows
    ([.returning()]). *)
Definition delete (s : option Session) (i : BookmarkId) (db : UserDb)
    : result (list UserBookmark * UserDb) :=
  uid ← getAuthedUserId s db;
  let p := userLimiter uid (Some i) in
  Ok (filter (fun b => p b = true) (userBookmarks db),
      set_bookmarks db (Store.delete_where p (userBookmarks db))).

(** [total()] *)
Definition total_ (s : option Session) (db : UserDb) : result nat :=
  uid ← getAuthedUserId s db;
  Ok (length (filter (fun b => userId b = uid) (userBookmarks db))).

(** [DEFAULT_BOOKMARK_PAGESIZE] of [@cfg], which is not among the sources. *)
Variable DEFAULT_BOOKMARK_PAGESIZE : nat.

(** [recent()] *)
Definition recent (s : option Session) (db : UserDb) : result (list SelectBookmark) :=
  uid ← getAuthedUserId s db;
  Ok (map (fun b => with_relatedTagIds (userBookmarkToTag db) (row b))
        (take DEFAULT_BOOKMARK_PAGESIZE
           (orderBy [desc (fun b => sortOrder (row b)); desc (fun b => updatedAt (row b))]
              (filter (fun b => userId b = uid) (userBookmarks db))))).

(** [search(keyword)] *)
Definition search (s : option Session) (kw : string) (db : UserDb)
    : result (list SelectBookmark) :=
  uid ← getAuthedUserId s db;
  Ok (map (fun b => with_relatedTagIds (userBookmarkToTag db) (row b))
        (take 100
           (orderBy [desc (fun b => sortOrder (row b)); desc (fun b => updatedAt (row b))]
              (filter (fun b => createBookmarkFilterByKeyword kw (row b) = true
                                ∧ userId b = uid)
                 (userBookmarks db))))).

End Controller.
End UserBookmarkController.

(** ** The bookmark list page: manual sorting *)

Module BookmarkListPage.

(** The part of the page state [onSaveSorting] reads. *)
Record State : Type := mkState { selectedTag : option string; state_keyword : string }.

(** [Boolean(state.selectedTag) || Boolean(state.keyword)] *)
Definition hasFilter (st : State) : bool :=
  truthy (selectedTag st) || truthy (Some (state_keyword st)).

(** [b.sortOrder || 0] *)
Definition sortOrder_or_0 (b : SelectBookmark) : Z :=
  default 0 (sortOrder (bookmark b)).

(** [Math.max(0, ...xs)] *)
Definition Math_max0 (xs : list Z) : Z := foldr Z.max 0 xs.

(** [xs.sort((a, b) => b - a)] *)
Definition sort_desc (xs : list Z) : list Z := merge_sort Z.ge xs.

(** The list [orders] computed by [onSaveSorting]. *)
Definition computeOrders (st : State) (bookmarks : list SelectBookmark)
    : list (BookmarkId * Z) :=
  if negb (hasFilter st) then
    let max := Math_max0 (map sortOrder_or_0 bookmarks) in
    let base := max + Z.of_nat (length bookmarks) in
    imap (fun idx b => (id (bookmark b), base - Z.of_nat idx)) bookmarks
  else
    let oldOrdersSorted := sort_desc (map sortOrder_or_0 bookmarks) in
    let first := default 0 (head oldOrdersSorted) in
    let allSame := forallb (fun v => bool_decide (v = first)) oldOrdersSorted in
    let targetOrders :=
      if allSame
      then imap (fun idx _ => first + (Z.of_nat (length bookmarks) - Z.of_nat idx)) bookmarks
      else oldOrdersSorted in
    map (fun el => (fst (fst el), snd (fst el)))
      (filter (fun el => snd (fst el) ≠ snd el)
         (imap (fun idx b => (id (bookmark b), default 0 (targetOrders !! idx),
                              sortOrder_or_0 b)) bookmarks)).

(** [onSaveSorting()]: the orders handed to the sort action, or [None]
    when the list is empty and nothing is sent. *)
Definition onSaveSorting (st : State) (bookmarks : list SelectBookmark)
    : option (list (BookmarkId * Z)) :=
  match bookmarks with
  | [] => None
  | _ => Some (computeOrders st bookmarks)
  end.

(** [PAGE_SIZES] *)
Definition PAGE_SIZES : list nat := [20; 50; 100; 300; 500]%nat.

(** [Math.ceil(a / b)] on a count [a] and a positive page size [b]. *)
Definition Math_ceil_div (a b : nat) : nat :=
  if (a mod b =? 0)%nat then (a / b)%nat else (a / b + 1)%nat.

(** The page count the list page stores after a request:
    [Math.max(1, Math.ceil(res.data.total / state.pageSize))]. *)
Definition pager_total (total pageSize : nat) : nat :=
  Nat.max 1 (Math_ceil_div total pageSize).

End BookmarkListPage.

(** ** Notions used to state the properties *)

(** The set of tag ids associated with bookmark [b] in a join table. *)
Definition assoc (join : list BookmarkToTag) (b : BookmarkId) : gset TagId :=
  list_to_set (related join b).

(** The two statements of [fullSetBookmarkToTag] for the bookmark [b] and
    the tag ids [T], run in the order [sch]. *)
Definition reconcile (sch : Store.schedule) (b : BookmarkId) (T : list TagId)
    : Store.stmt BookmarkToTag :=
  Store.promise_all2 sch
    (Store.onConflictDoNothing (map (fun t => mkBT b t) T))
    (Store.delete_where (fun r => bool_decide (bId r = b) && Store.notInArray (tId r) T)).

(** A folder header of the document: the line of a folder named [name]
    (escaped) with the [ADD_DATE] [date], behind the indentation [indent]. *)
Definition folder_header (indent : string) (date : Z) (name : string) : string :=
  indent +:+ "<DT><H3 ADD_DATE=" +:+ BookmarkHtml.dquote +:+ BookmarkHtml.show date
    +:+ BookmarkHtml.dquote +:+ ">" +:+ BookmarkHtml.escapeHtml name +:+ "</H3>".

(** The Unix seconds a value stands for, when [toUnixSeconds] can use it:
    a date, a number (read as milliseconds above 10,000,000,000) or a string
    that [Date.parse] accepts. *)
Definition seconds_of `{Env} (v : JsValue) : option Z :=
  match v with
  | JDate ms => Some (ms / 1000)
  | JNumber n => Some (if 10000000000 <? n then n / 1000 else n)
  | JString s => (fun t => t / 1000) <$> Date_parse s
  | _ => None
  end.

(** The [ADD_DATE] as the specification words it: the seconds of
    [createdAt], else those of [updatedAt], else the current time. *)
Definition addDate_first_usable `{Env} (now : Z) (b : BookmarkHtmlItem) : Z :=
  match seconds_of (item_createdAt b) with
  | Some t => t
  | None => default (now / 1000) (seconds_of (item_updatedAt b))
  end.

(** The grouping of [exportHtml], stated bookmark by bookmark: the entries
    a selected bookmark contributes to the folder of tag [t] (one per
    occurrence of [t] among its related tag ids), the bookmarks of that
    folder, and the bookmarks of the untagged folder. *)
Definition entries_for_tag (t : TagId) (b : SelectBookmark) : list BookmarkHtmlItem :=
  map (fun _ => BookmarkHtml.item_of (bookmark b)) (filter (fun x => x = t) (relatedTagIds b)).

Definition folder_of_tag (rows : list SelectBookmark) (t : TagId) : list BookmarkHtmlItem :=
  flat_map (entries_for_tag t) rows.

Definition untagged_of (rows : list SelectBookmark) : list BookmarkHtmlItem :=
  map (fun b => BookmarkHtml.item_of (bookmark b)) (filter (fun b => relatedTagIds b = []) rows).

(** One folder per fetched tag that has a bookmark, in the order of the
    tags, and the untagged folder last when it is not empty. *)
Definition folders_by_tag (tags : list Tag) (rows : list SelectBookmark)
    : list BookmarkHtmlFolder :=
  omap (fun t => match folder_of_tag rows (tag_id t) with
                 | [] => None
                 | bs => Some (mkFolder (tag_name t) bs)
                 end) tags
  ++ match untagged_of rows with
     | [] => []
     | bs => [mkFolder "未分类" bs]
     end.

(** What pushing [extra] items does to the bucket of one tag in the map
    [tagIdToBookmarks]. *)
Definition extend (o : option (list BookmarkHtmlItem)) (extra : list BookmarkHtmlItem)
    : option (list BookmarkHtmlItem) :=
  match o, extra with
  | Some arr, _ => Some (arr ++ extra)
  | None, [] => None
  | None, _ => Some extra
  end.

(** ** Notions used to state further properties *)

(** What [escapeHtml] makes of one character. *)
Definition escape_char (c : ascii) : string :=
  if Ascii.eqb c "&" then "&amp;"
  else if Ascii.eqb c "<" then "&lt;"
  else if Ascii.eqb c ">" then "&gt;"
  else if Ascii.eqb c "034" then "&quot;"
  else String c EmptyString.

(** Every character of a string escaped on its own, in one pass. *)
Fixpoint escape_each (s : string) : string :=
  match s with
  | EmptyString => EmptyString
  | String c s => escape_char c +:+ escape_each s
  end.

(** The query [q] asked for page [p] with page size [n]. *)
Definition with_page (q : FindManyQuery) (p n : nat) : FindManyQuery :=
  mkQuery (keyword q) (tagIds q) (tagNames q) p n (sorterKey q).

(** The list of a result; a failed call gives no list. *)
Definition result_list (r : result FindManyResult) : list SelectBookmark :=
  match r with
  | Ok r => list_ r
  | Err _ => []
  end.

(** [x] is not above [y] in the order of a nullable column. *)
Definition column_le (x y : option Z) : Prop := compare_column x y ≠ Gt.

(** The manual order: [a] may come before [b] when its [sortOrder] is not
    below that of [b] and, the sort orders being equal, its [updatedAt] is not
    below that of [b]. *)
Definition manual_order (a b : Bookmark) : Prop :=
  column_le (sortOrder b) (sortOrder a)
  ∧ (sortOrder a = sortOrder b → column_le (updatedAt b) (updatedAt a)).

(** The order each sorter key asks for. *)
Definition sorter_order (k : SorterKey) (a b : Bookmark) : Prop :=
  match k with
  | Manual => manual_order a b
  | CreateTimeDesc => column_le (createdAt b) (createdAt a)
  | CreateTimeAsc => column_le (createdAt a) (createdAt b)
  | UpdateTimeDesc => column_le (updatedAt b) (updatedAt a)
  | UpdateTimeAsc => column_le (updatedAt a) (updatedAt b)
  end.

(** A three-way comparison that is an order: reversing the arguments
    reverses the answer, rows that compare equal compare alike with every
    row, and "before" is transitive. *)
Record order_comparison {R : Type} (c : R -> R -> comparison) : Prop := mkOrderComparison {
  oc_opp : forall a b, c b a = CompOpp (c a b);
  oc_eq : forall a b d, c a b = Eq -> c a d = c b d;
  oc_lt : forall a b d, c a b = Lt -> c b d = Lt -> c a d = Lt
}.

(** The bookmarks of the users other than [uid]. *)
Definition others (uid : UserId) (db : UserDb) : list UserBookmark :=
  filter (fun b => userId b ≠ uid) (userBookmarks db).

(** Bob's session, for the fixtures of the user space. *)
Definition bob : option Session := Some (mkSession (Some "bob"%string)).

(** What [.set] leaves of a row [b] for the patch [p] at time [now],
    [py] being the pinyin the row ends with: the id is kept, [updatedAt] is
    [now], each of [name], [url], [icon], [isPinned], [sortOrder] and
    [createdAt] is the patch's value when the patch has one and the row's
    otherwise, and [pinyin] is [py]. *)
Definition patched (now : Z) (p : UpdateBookmark) (py : option string) (b b' : Bookmark)
    : Prop :=
  id b' = id b
  ∧ updatedAt b' = Some now
  ∧ name b' = default (name b) (upd_name p)
  ∧ url b' = default (url b) (upd_url p)
  ∧ icon b' = from_option Some (icon b) (upd_icon p)
  ∧ isPinned b' = default (isPinned b) (upd_isPinned p)
  ∧ sortOrder b' = from_option Some (sortOrder b) (upd_sortOrder p)
  ∧ createdAt b' = from_option Some (createdAt b) (upd_createdAt p)
  ∧ pinyin b' = py.


(** The pinyin of a row after the user [update]: the pinyin of the new name
    when the patch has a non-empty name and no non-empty pinyin; otherwise
    the patch's pinyin when it has one, and the row's own when not. *)
Definition user_pinyin_after `{Env} (p : UpdateBookmark) (b : Bookmark) : option string :=
  if truthy (upd_name p) && negb (truthy (upd_pinyin p))
  then Some (getPinyin (default EmptyString (upd_name p)))
  else from_option Some (pinyin b) (upd_pinyin p).

(** The query of the list page for its first page of [n] bookmarks under
    the manual sorter, with neither keyword nor tag. *)
Definition manual_first_page (n : nat) : FindManyQuery := mkQuery "" [] [] 1 n Manual.

(** What the page count [P] the list page derives from a result means for
    the page [page q] of size [limit q] that the result holds: [P] is at
    least 1; it is the least number of pages that hold the whole selection;
    [hasMore] is true exactly on the pages before [P]; a page after [P] is
    empty; and page [P] itself is not empty unless the selection is. *)
Definition pager_describes (q : FindManyQuery) (r : FindManyResult) : Prop :=
  let P := BookmarkListPage.pager_total (total r) (limit q) in
  (1 ≤ P)%nat
  ∧ (total r ≤ P * limit q)%nat
  ∧ ((0 < total r)%nat → ((P - 1) * limit q < total r)%nat)
  ∧ (hasMore r = true ↔ (page q < P)%nat)
  ∧ ((P < page q)%nat → list_ r = [])
  ∧ ((0 < total r)%nat → page q = P → list_ r ≠ []).

(** The query for the first [n] bookmarks matching the keyword [kw] under
    the manual sorter. *)
Definition keyword_first_page (kw : string) (n : nat) : FindManyQuery :=
  mkQuery kw [] [] 1 n Manual.

(** ** Fixtures of the examples *)

Module Fixtures.

(** An environment for the examples: a name is its own pinyin, the keyword
    filter is a substring test on name and url, and [Date.parse] accepts
    none of the strings the examples use. *)
Definition env : Env :=
  mkEnv (fun s => s)
    (fun kw b => includes (name b) kw || includes (url b) kw)
    (fun _ => None).

Definition alice : option Session := Some (mkSession (Some "alice"%string)).

(** Alice owns the tags 1 and 2; tag 3 belongs to Bob.  Her bookmark 10
    carries the tags 1 and 2. *)
Definition user_db : UserDb :=
  mkUserDb ["alice"; "bob"]%string
    [mkUserTag "alice" (mkTag 1 "dev"); mkUserTag "alice" (mkTag 2 "news");
     mkUserTag "bob" (mkTag 3 "cooking")]
    [mkUserBookmark "alice"
       (mkBookmark 10 "Rocq" "https://rocq-prover.org" (Some "Rocq"%string) None false
          (Some 10) (Some 1700000000000) (Some 1700000000000))]
    [mkBT 10 1; mkBT 10 2] 11.

(** The public space: tags 1, 2, 3 and the bookmark 10 tagged 1 and 2. *)
Definition public_db : PublicDb :=
  mkPublicDb [mkTag 1 "dev"; mkTag 2 "news"; mkTag 3 "cooking"]
    [mkBookmark 10 "Rocq" "https://rocq-prover.org" (Some "Rocq"%string) None false
       (Some 10) (Some 1700000000000) (Some 1700000000000)]
    [mkBT 10 1; mkBT 10 2] 11.

End Fixtures.

(** * Properties *)

(** ** Facts about the store primitives *)

Section StoreFacts.
Context {R : Type} `{EqDecision R}.

Lemma elem_of_onConflictDoNothing (vs tbl : list R) (r : R) :
  r ∈ Store.onConflictDoNothing vs tbl ↔ r ∈ tbl ∨ r ∈ vs.
Proof.
  unfold Store.onConflictDoNothing. revert tbl.
  induction vs as [|v vs IH]; intros tbl; simpl.
  - rewrite elem_of_nil. tauto.
  - rewrite IH, elem_of_cons. destruct (decide (v ∈ tbl)) as [Hin|Hin].
    + split; [tauto|]. intros [?|[->|?]]; auto.
    + rewrite elem_of_app, list_elem_of_singleton. tauto.
Qed.

Lemma onConflictDoNothing_present (vs tbl : list R) :
  (∀ v, v ∈ vs → v ∈ tbl) → Store.onConflictDoNothing vs tbl = tbl.
Proof.
  unfold Store.onConflictDoNothing.
  induction vs as [|v vs IH]; intros Hall; simpl; [done|].
  rewrite decide_True by (apply Hall; left).
  apply IH. intros w Hw. apply Hall. by right.
Qed.

Lemma NoDup_onConflictDoNothing (vs tbl : list R) :
  NoDup tbl → NoDup (Store.onConflictDoNothing vs tbl).
Proof.
  unfold Store.onConflictDoNothing. revert tbl.
  induction vs as [|v vs IH]; intros tbl Hnd; simpl; [done|].
  apply IH. destruct (decide (v ∈ tbl)); [done|].
  apply NoDup_app. split_and!; [done| |apply NoDup_singleton].
  intros x Hx ->%list_elem_of_singleton. done.
Qed.

Lemma elem_of_delete_where (p : R → bool) (tbl : list R) (r : R) :
  r ∈ Store.delete_where p tbl ↔ r ∈ tbl ∧ p r = false.
Proof. unfold Store.delete_where. rewrite list_elem_of_filter. tauto. Qed.

Lemma delete_where_none (p : R → bool) (tbl : list R) :
  (∀ r, r ∈ tbl → p r = false) → Store.delete_where p tbl = tbl.
Proof.
  unfold Store.delete_where. intros Hall.
  induction tbl as [|r tbl IH]; [done|].
  rewrite filter_cons_True by (apply Hall; left).
  f_equal. apply IH. intros x Hx. apply Hall. by right.
Qed.
End StoreFacts.

(** ** Tag association: [fullSetBookmarkToTag] *)

Lemma elem_of_assoc (join : list BookmarkToTag) (b : BookmarkId) (t : TagId) :
  t ∈ assoc join b ↔ mkBT b t ∈ join.
Proof.
  unfold assoc, related. rewrite elem_of_list_to_set, list_elem_of_fmap. split.
  - intros ([b' t'] & -> & [Hb Hin]%list_elem_of_filter). simpl in *. by subst.
  - intros Hin. exists (mkBT b t). split; [done|]. by apply list_elem_of_filter.
Qed.

Lemma stale_false (b : BookmarkId) (T : list TagId) (r : BookmarkToTag) :
  bool_decide (bId r = b) && Store.notInArray (tId r) T = false ↔ bId r ≠ b ∨ tId r ∈ T.
Proof.
  unfold Store.notInArray, Store.inArray.
  rewrite andb_false_iff, bool_decide_eq_false, negb_false_iff, bool_decide_eq_true. tauto.
Qed.

Lemma elem_of_reconcile sch b T tbl r :
  r ∈ reconcile sch b T tbl ↔ (r ∈ tbl ∧ bId r ≠ b) ∨ (bId r = b ∧ tId r ∈ T).
Proof.
  assert (Hvs : r ∈ map (fun t => mkBT b t) T ↔ bId r = b ∧ tId r ∈ T).
  { rewrite list_elem_of_fmap. split.
    - intros (t & -> & Ht). done.
    - intros [Hb Ht]. exists (tId r). destruct r; simpl in *; by subst. }
  unfold reconcile, Store.promise_all2. destruct sch.
  - rewrite elem_of_delete_where, elem_of_onConflictDoNothing, stale_false, Hvs.
    destruct (decide (bId r = b)); tauto.
  - rewrite elem_of_onConflictDoNothing, elem_of_delete_where, stale_false, Hvs.
    destruct (decide (bId r = b)); tauto.
Qed.

Lemma assoc_reconcile sch b T tbl :
  assoc (reconcile sch b T tbl) b = list_to_set T.
Proof.
  apply set_eq. intros t. rewrite elem_of_assoc, elem_of_reconcile, elem_of_list_to_set.
  simpl. tauto.
Qed.

Lemma assoc_reconcile_other sch b T tbl b' :
  b' ≠ b → assoc (reconcile sch b T tbl) b' = assoc tbl b'.
Proof.
  intros Hne. apply set_eq. intros t. rewrite !elem_of_assoc, elem_of_reconcile.
  simpl. tauto.
Qed.

Lemma NoDup_reconcile sch b T tbl : NoDup tbl → NoDup (reconcile sch b T tbl).
Proof.
  intros Hnd. unfold reconcile, Store.promise_all2, Store.delete_where. destruct sch.
  - by apply NoDup_filter, NoDup_onConflictDoNothing.
  - by apply NoDup_onConflictDoNothing, NoDup_filter.
Qed.

(** Once the rows of [b] are those of [T], the statements change nothing. *)
Lemma reconcile_fixpoint sch b T tbl :
  (∀ r, r ∈ tbl → bId r = b → tId r ∈ T) →
  (∀ t, t ∈ T → mkBT b t ∈ tbl) →
  reconcile sch b T tbl = tbl.
Proof.
  intros Hsub Hsup. unfold reconcile, Store.promise_all2.
  assert (Hdel : Store.delete_where
            (fun r => bool_decide (bId r = b) && Store.notInArray (tId r) T) tbl = tbl).
  { apply delete_where_none. intros r Hr. apply stale_false.
    destruct (decide (bId r = b)); [right; by apply Hsub | by left]. }
  assert (Hins : Store.onConflictDoNothing (map (fun t => mkBT b t) T) tbl = tbl).
  { apply onConflictDoNothing_present. intros v (t & -> & Ht)%list_elem_of_fmap. by apply Hsup. }
  destruct sch; by rewrite ?Hdel, ?Hins, ?Hdel.
Qed.

Lemma reconcile_idempotent sch sch' b T tbl :
  reconcile sch' b T (reconcile sch b T tbl) = reconcile sch b T tbl.
Proof.
  apply reconcile_fixpoint.
  - intros r Hr Hb. apply elem_of_reconcile in Hr. tauto.
  - intros t Ht. apply elem_of_reconcile. right. done.
Qed.

Lemma public_fullSet_eq sch b t ts tbl :
  PublicTags.fullSetBookmarkToTag sch b (t :: ts) tbl = Ok (reconcile sch b (t :: ts) tbl).
Proof. reflexivity. Qed.

Lemma user_fullSet_eq sch s b t ts db uid :
  getAuthedUserId s db = Ok uid →
  UserTags.fullSetBookmarkToTag sch s b (Some (t :: ts)) db
  = Ok (UserTags.set_userBookmarkToTag db
          (reconcile sch b (filterUserTagIds uid (t :: ts) db) (userBookmarkToTag db))).
Proof.
  intros Hauth. unfold UserTags.fullSetBookmarkToTag. rewrite Hauth. simpl.
  destruct (filterUserTagIds uid (t :: ts) db) as [|t' ts'] eqn:Hf; simpl; [|done].
  unfold reconcile. by destruct sch.
Qed.

Lemma getAuthedUserId_users s db db' :
  users db' = users db → getAuthedUserId s db' = getAuthedUserId s db.
Proof. intros Hu. unfold getAuthedUserId. by rewrite Hu. Qed.


(** C1 (amended).  For a non-empty list of tag ids [t :: ts], whatever the
    order in which the store runs the two statements:
    in the public space [fullSetBookmarkToTag] leaves bookmark [b] associated
    with exactly the tag ids of the list; in the user space it leaves [b]
    associated with exactly those tag ids of the list that the requesting
    user owns ([filterUserTagIds]).  In both spaces the associations of the
    other bookmarks are kept and a second call with the same list changes
    nothing, and a join table without duplicate rows stays without; in the
    public space the call with [1; 2] followed by the call with [2; 3] leaves
    exactly {2, 3}. *)
Theorem fullSet_reconciles_associations
    (sch sch' : Store.schedule) (b : BookmarkId) (t : TagId) (ts : list TagId) :
  (∀ tbl, ∃ tbl',
      PublicTags.fullSetBookmarkToTag sch b (t :: ts) tbl = Ok tbl'
      ∧ assoc tbl' b = list_to_set (t :: ts)
      ∧ (∀ b', b' ≠ b → assoc tbl' b' = assoc tbl b')
      ∧ (NoDup tbl → NoDup tbl')
      ∧ PublicTags.fullSetBookmarkToTag sch' b (t :: ts) tbl' = Ok tbl')
  ∧ (∀ s db uid, getAuthedUserId s db = Ok uid → ∃ db',
      UserTags.fullSetBookmarkToTag sch s b (Some (t :: ts)) db = Ok db'
      ∧ assoc (userBookmarkToTag db') b = list_to_set (filterUserTagIds uid (t :: ts) db)
      ∧ (∀ b', b' ≠ b → assoc (userBookmarkToTag db') b' = assoc (userBookmarkToTag db) b')
      ∧ (NoDup (userBookmarkToTag db) → NoDup (userBookmarkToTag db'))
      ∧ UserTags.fullSetBookmarkToTag sch' s b (Some (t :: ts)) db' = Ok db')
  ∧ (∀ tbl, ∃ tbl1 tbl2,
      PublicTags.fullSetBookmarkToTag sch b [1; 2] tbl = Ok tbl1
      ∧ PublicTags.fullSetBookmarkToTag sch' b [2; 3] tbl1 = Ok tbl2
      ∧ assoc tbl2 b = {[2; 3]}).
Proof.
  split_and!.
  - intros tbl. exists (reconcile sch b (t :: ts) tbl). split_and!.
    + apply public_fullSet_eq.
    + apply assoc_reconcile.
    + intros b' Hne. by apply assoc_reconcile_other.
    + apply NoDup_reconcile.
    + rewrite public_fullSet_eq. f_equal. apply reconcile_idempotent.
  - intros s db uid Hauth.
    eexists. split_and!.
    + by apply user_fullSet_eq.
    + simpl. apply assoc_reconcile.
    + intros b' Hne. simpl. by apply assoc_reconcile_other.
    + simpl. apply NoDup_reconcile.
    + rewrite (user_fullSet_eq _ _ _ _ _ _ uid)
        by (rewrite <- Hauth; by apply getAuthedUserId_users).
      set (F := filterUserTagIds uid (t :: ts) db).
      change (filterUserTagIds uid (t :: ts) (UserTags.set_userBookmarkToTag db _)) with F.
      simpl. rewrite reconcile_idempotent. done.
  - intros tbl. eexists _, _. split_and!.
    + apply public_fullSet_eq.
    + apply public_fullSet_eq.
    + rewrite assoc_reconcile. set_solver.
Qed.

Lemma fullSet_reconciles_associations_witness :
  ∃ db', UserTags.fullSetBookmarkToTag Store.FirstThenSecond Fixtures.alice 10 (Some [2; 3])
           Fixtures.user_db = Ok db'
         ∧ assoc (userBookmarkToTag db') 10
           = list_to_set (filterUserTagIds "alice" [2; 3] Fixtures.user_db).
Proof.
  destruct (fullSet_reconciles_associations Store.FirstThenSecond Store.FirstThenSecond 10 2 [3])
    as (_ & Huser & _).
  destruct (Huser Fixtures.alice Fixtures.user_db "alice"%string eq_refl)
    as (db' & Hrun & Hassoc & _).
  exists db'. split; [exact Hrun | exact Hassoc].
Defined.

(** C1 (counterexample).  In the user space the tag id 3, which Alice does
    not own, is dropped: after [fullSetBookmarkToTag(10, [2, 3])] bookmark 10
    is associated with tag 2 only, not with {2, 3}. *)
Lemma fullSet_user_drops_unowned_tag :
  (userBookmarkToTag <$>
     UserTags.fullSetBookmarkToTag Store.FirstThenSecond Fixtures.alice 10 (Some [2; 3])
       Fixtures.user_db) = Ok [mkBT 10 2]
  ∧ mkBT 10 3 ∉ [mkBT 10 2].
Proof. split; [reflexivity|]. by intros ?%list_elem_of_singleton. Qed.

(** C6.  With an empty [tagIds] the user-scoped [fullSetBookmarkToTag]
    returns at once and leaves the store as it is, for an empty array and for
    an absent argument alike.  The public-scoped one builds its insert with
    [values([])] first: the builder throws, the call fails, the delete is
    never issued and no association row is removed. *)
Theorem fullSet_empty_tagIds (sch : Store.schedule) (b : BookmarkId) :
  (∀ s db, UserTags.fullSetBookmarkToTag sch s b (Some []) db = Ok db
           ∧ UserTags.fullSetBookmarkToTag sch s b None db = Ok db)
  ∧ (∀ tbl, PublicTags.fullSetBookmarkToTag sch b [] tbl = Err EmptyInsertValues)
  ∧ (∀ tbl, assoc (reconcile sch b [] tbl) b = ∅).
Proof.
  split_and!.
  - intros s db. split; reflexivity.
  - intros tbl. reflexivity.
  - intros tbl. rewrite assoc_reconcile. done.
Qed.

(** ** Bookmark repository: [insert], [update], [deleteMany] *)

Lemma count_positive {R : Type} (P : R → Prop) `{∀ x, Decision (P x)} (l : list R) :
  (0 < length (filter P l))%nat ↔ ∃ x, x ∈ l ∧ P x.
Proof.
  split.
  - destruct (filter P l) as [|x l'] eqn:Hf; simpl; [lia|]. intros _.
    exists x. apply and_comm. apply (list_elem_of_filter P l x). rewrite Hf. left.
  - intros (x & Hx & HP).
    assert (Hin : x ∈ filter P l) by by apply list_elem_of_filter.
    destruct (filter P l); [by apply elem_of_nil in Hin | simpl; lia].
Qed.

Lemma elem_of_update_where {R : Type} (p : R → bool) (f : R → R) (l : list R) (r : R) :
  r ∈ l → (if p r then f r else r) ∈ update_where p f l.
Proof. intros Hr. unfold update_where. apply list_elem_of_fmap. by exists r. Qed.

Lemma user_fullSet_ok sch s b tags db uid :
  getAuthedUserId s db = Ok uid →
  ∃ db', UserTags.fullSetBookmarkToTag sch s b tags db = Ok db'
         ∧ users db' = users db ∧ userTags db' = userTags db
         ∧ userBookmarks db' = userBookmarks db ∧ userBookmarkSeq db' = userBookmarkSeq db.
Proof.
  intros Hauth. destruct tags as [[|t ts]|].
  - by exists db.
  - rewrite (user_fullSet_eq _ _ _ _ _ _ uid) by done. by eexists.
  - by exists db.
Qed.

Section Repository.
Context `{Env}.

Lemma public_insert_duplicate sch now draft db :
  PublicBookmarkController.insert sch now draft db = Err BookmarkExists
  ↔ ∃ b, b ∈ publicBookmarks db ∧ (url b = ins_url draft ∨ name b = ins_name draft).
Proof.
  unfold PublicBookmarkController.insert. rewrite <- count_positive.
  case_bool_decide as Hc; [done|]. split; [|done].
  destruct (ins_relatedTagIds draft) as [[|t ts]|]; simpl;
    destruct (ins_sortOrder draft); discriminate.
Qed.

Lemma public_insert_fresh sch now draft db :
  (∀ b, b ∈ publicBookmarks db → url b ≠ ins_url draft ∧ name b ≠ ins_name draft) →
  ∃ r db', PublicBookmarkController.insert sch now draft db = Ok (r, db')
           ∧ name r = ins_name draft ∧ url r = ins_url draft ∧ r ∈ publicBookmarks db'.
Proof.
  intros Hfresh. unfold PublicBookmarkController.insert.
  rewrite bool_decide_false; last first.
  { rewrite count_positive. intros (b & Hb & Hdup). destruct (Hfresh b Hb). tauto. }
  set (new := mkBookmark _ _ _ _ _ _ _ _ _).
  assert (Hnew : new ∈ publicBookmarks db ++ [new]) by (apply elem_of_app; right; left).
  destruct (ins_relatedTagIds draft) as [[|t ts]|]; simpl;
    destruct (ins_sortOrder draft) as [o|] eqn:Ho; eexists _, _;
    (split; [reflexivity|]); split_and!; try done; simpl.
  all: pose proof (elem_of_update_where
                     (fun b => bool_decide (id b = publicBookmarkSeq db))
                     (fun b => set_sortOrder b (publicBookmarkSeq db)) _ new Hnew) as Hin;
    simpl in Hin; rewrite bool_decide_true in Hin by done; exact Hin.
Qed.

Lemma user_insert_duplicate sch s now draft db uid :
  getAuthedUserId s db = Ok uid →
  UserBookmarkController.insert sch s now draft db = Err UserBookmarkExists
  ↔ ∃ b, b ∈ userBookmarks db ∧ userId b = uid
         ∧ (url (row b) = ins_url draft ∨ name (row b) = ins_name draft).
Proof.
  intros Hauth. unfold UserBookmarkController.insert. rewrite Hauth. simpl.
  rewrite <- count_positive.
  case_bool_decide as Hc; [done|]. split; [|done].
  set (db1 := mkUserDb _ _ _ _ _).
  destruct (user_fullSet_ok sch s (userBookmarkSeq db) (ins_relatedTagIds draft) db1 uid)
    as (db2 & -> & _); [by rewrite <- Hauth|].
  simpl. destruct (ins_sortOrder draft); discriminate.
Qed.

Lemma user_insert_fresh sch s now draft db uid :
  getAuthedUserId s db = Ok uid →
  (∀ b, b ∈ userBookmarks db → userId b = uid →
        url (row b) ≠ ins_url draft ∧ name (row b) ≠ ins_name draft) →
  ∃ r db', UserBookmarkController.insert sch s now draft db = Ok (r, db')
           ∧ name r = ins_name draft ∧ url r = ins_url draft
           ∧ mkUserBookmark uid r ∈ userBookmarks db'.
Proof.
  intros Hauth Hfresh. unfold UserBookmarkController.insert. rewrite Hauth. simpl.
  rewrite bool_decide_false; last first.
  { rewrite count_positive. intros (b & Hb & Hu & Hdup). destruct (Hfresh b Hb Hu). tauto. }
  set (new := mkBookmark _ _ _ _ _ _ _ _ _).
  set (db1 := mkUserDb _ _ _ _ _).
  destruct (user_fullSet_ok sch s (userBookmarkSeq db) (ins_relatedTagIds draft) db1 uid)
    as (db2 & -> & _ & _ & Hrows & _); [by rewrite <- Hauth|].
  assert (Hnew : mkUserBookmark uid new ∈ userBookmarks db2).
  { rewrite Hrows. apply elem_of_app; right; left. }
  simpl. destruct (ins_sortOrder draft) as [o|] eqn:Ho; eexists _, _;
    (split; [reflexivity|]); split_and!; try done; simpl.
  pose proof (elem_of_update_where
                (fun b => bool_decide (id (row b) = userBookmarkSeq db))
                (UserBookmarkController.on_row (fun b => set_sortOrder b (userBookmarkSeq db)))
                _ _ Hnew) as Hin.
  simpl in Hin. rewrite bool_decide_true in Hin by done. exact Hin.
Qed.

(** C5.  [insert] fails with the duplicate error exactly when a bookmark
    of the scope (in the user space: one owned by the requesting user) has
    the same url or the same name, the comparison being equality of
    strings; with a url and a name that no such bookmark has it succeeds and
    stores a row with that name and url. *)
Theorem insert_rejects_exactly_duplicates
    (sch : Store.schedule) (now : Z) (draft : InsertBookmark) :
  (∀ db,
      (PublicBookmarkController.insert sch now draft db = Err BookmarkExists
       ↔ ∃ b, b ∈ publicBookmarks db ∧ (url b = ins_url draft ∨ name b = ins_name draft))
      ∧ ((∀ b, b ∈ publicBookmarks db → url b ≠ ins_url draft ∧ name b ≠ ins_name draft) →
         ∃ r db', PublicBookmarkController.insert sch now draft db = Ok (r, db')
                  ∧ name r = ins_name draft ∧ url r = ins_url draft
                  ∧ r ∈ publicBookmarks db'))
  ∧ (∀ s db uid, getAuthedUserId s db = Ok uid →
      (UserBookmarkController.insert sch s now draft db = Err UserBookmarkExists
       ↔ ∃ b, b ∈ userBookmarks db ∧ userId b = uid
              ∧ (url (row b) = ins_url draft ∨ name (row b) = ins_name draft))
      ∧ ((∀ b, b ∈ userBookmarks db → userId b = uid →
               url (row b) ≠ ins_url draft ∧ name (row b) ≠ ins_name draft) →
         ∃ r db', UserBookmarkController.insert sch s now draft db = Ok (r, db')
                  ∧ name r = ins_name draft ∧ url r = ins_url draft
                  ∧ mkUserBookmark uid r ∈ userBookmarks db')).
Proof.
  split.
  - intros db. split; [apply public_insert_duplicate | apply public_insert_fresh].
  - intros s db uid Hauth. split; [by apply user_insert_duplicate | by apply user_insert_fresh].
Qed.
End Repository.

Lemma insert_rejects_exactly_duplicates_witness :
  UserBookmarkController.insert (H:=Fixtures.env) Store.FirstThenSecond Fixtures.alice 0
    (mkInsert "Rocq" "https://example.org" None None None None None) Fixtures.user_db
  = Err UserBookmarkExists.
Proof.
  apply (proj2 (insert_rejects_exactly_duplicates (H:=Fixtures.env) Store.FirstThenSecond 0
                  (mkInsert "Rocq" "https://example.org" None None None None None))
           Fixtures.alice Fixtures.user_db "alice"%string eq_refl).
  eexists. split; [left|]. simpl. auto.
Defined.

Lemma truthy_Some (o : option string) :
  truthy o = true → ∃ n, o = Some n ∧ n ≠ EmptyString.
Proof. destruct o as [[|c n]|]; try discriminate. intros _. by eexists. Qed.

Section Update.
Context `{Env}.

(** C7.  For a patch whose [name] is a non-empty string, after [update]
    every row the patch addresses has the patch's name; in the user space
    its pinyin is the pinyin the patch supplies, or [getPinyin] of the new
    name when the patch supplies none (or an empty one); in the public
    space its pinyin is [getPinyin] of the new name in every case, a
    supplied pinyin being overwritten. *)
Theorem update_pinyin_of_renamed_bookmark
    (sch : Store.schedule) (now : Z) (p : UpdateBookmark) (n : string) :
  upd_name p = Some n → n ≠ EmptyString →
  (∀ db, ∃ res db',
      PublicBookmarkController.update sch now p db = Ok (res, db')
      ∧ Forall (fun b => id b = upd_id p →
                         name b = n ∧ pinyin b = Some (getPinyin n))
          (publicBookmarks db'))
  ∧ (∀ s db uid, getAuthedUserId s db = Ok uid → ∃ db',
      UserBookmarkController.update sch s now p db = Ok db'
      ∧ Forall (fun b => userLimiter uid (Some (upd_id p)) b = true →
                         name (row b) = n
                         ∧ pinyin (row b) = if truthy (upd_pinyin p) then upd_pinyin p
                                            else Some (getPinyin n))
          (userBookmarks db')).
Proof.
  intros Hn Hne.
  assert (Htr : truthy (upd_name p) = true) by (rewrite Hn; by destruct n).
  assert (Hk : has_keys p = true) by (unfold has_keys; by rewrite Hn).
  split.
  - intros db. unfold PublicBookmarkController.update. rewrite Hk, Htr, Hn.
    destruct (upd_relatedTagIds p) as [[|t ts]|]; simpl; eexists _, _;
      (split; [reflexivity|]); simpl; unfold update_where;
      apply Forall_fmap, Forall_forall; intros b _; simpl;
      case_bool_decide; simpl; done.
  - intros s db uid Hauth. unfold UserBookmarkController.update.
    destruct (user_fullSet_ok sch s (upd_id p) (upd_relatedTagIds p) db uid Hauth)
      as (db1 & -> & Hu & _ & Hrows & _).
    simpl. rewrite Hk, Htr, Hn.
    rewrite (getAuthedUserId_users _ _ _ Hu), Hauth. simpl.
    eexists. split; [reflexivity|]. cbn -[userLimiter]. unfold update_where.
    apply Forall_fmap, Forall_forall. intros b _. cbn -[userLimiter].
    destruct (userLimiter uid (Some (upd_id p)) b) eqn:Hl.
    + intros _. simpl. split; [done|]. by destruct (upd_pinyin p) as [[|c q]|].
    + unfold userLimiter in Hl. rewrite Hl. done.
Qed.
End Update.

Lemma update_pinyin_of_renamed_bookmark_witness :
  ∃ res db',
    PublicBookmarkController.update (H:=Fixtures.env) Store.FirstThenSecond 0
      (mkUpdate 10 None (Some "Coq"%string) None (Some "custom"%string) None None None None None
         None 0)
      Fixtures.public_db = Ok (res, db')
    ∧ map pinyin (publicBookmarks db') = [Some "Coq"%string].
Proof.
  destruct (proj1 (update_pinyin_of_renamed_bookmark (H:=Fixtures.env) Store.FirstThenSecond 0
                     (mkUpdate 10 None (Some "Coq"%string) None (Some "custom"%string)
                        None None None None None None 0)
                     "Coq" eq_refl ltac:(discriminate)) Fixtures.public_db)
    as (res & db' & Hrun & _).
  exists res, db'. split; [exact Hrun|].
  vm_compute in Hrun. injection Hrun as <- <-. reflexivity.
Defined.

(** *** [deleteMany] *)

(** The rows a delete removes are those its condition selects. *)
Lemma delete_where_removed {R : Type} (p : R → bool) (tbl : list R) :
  (length tbl - length (Store.delete_where p tbl))%nat
  = length (filter (fun r => p r = true) tbl).
Proof.
  unfold Store.delete_where.
  induction tbl as [|r tbl IH]; [done|].
  pose proof (length_filter (fun r => p r = false) tbl) as Hle.
  destruct (p r) eqn:Hp.
  - rewrite filter_cons_False, filter_cons_True by congruence. simpl. lia.
  - rewrite filter_cons_True, filter_cons_False by congruence. simpl. lia.
Qed.

(** Rows with distinct keys, all among [ids], one of which is the key of no
    row: there are fewer rows than ids. *)
Lemma fewer_rows_than_ids {R : Type} (key : R → BookmarkId) (rows : list R)
    (ids : list BookmarkId) (j : BookmarkId) :
  NoDup (map key rows) →
  (∀ r, r ∈ rows → key r ∈ ids ∧ key r ≠ j) →
  j ∈ ids →
  (length rows < length ids)%nat.
Proof.
  intros Hnd Hall Hj.
  assert (Hsub : j :: map key rows ⊆+ ids).
  { apply NoDup_submseteq.
    - apply NoDup_cons. split; [|done].
      intros (r & Hk & Hr)%list_elem_of_fmap. destruct (Hall r Hr). congruence.
    - intros x [->|(r & -> & Hr)%list_elem_of_fmap]%elem_of_cons; [done|].
      by destruct (Hall r Hr). }
  apply submseteq_length in Hsub. simpl in Hsub. rewrite length_map in Hsub. lia.
Qed.

Lemma NoDup_fmap_filter {R K : Type} (key : R → K) (P : R → Prop) `{∀ x, Decision (P x)}
    (rows : list R) :
  NoDup (map key rows) → NoDup (map key (filter P rows)).
Proof.
  intros Hnd. eapply sublist_NoDup; [exact Hnd|].
  apply fmap_sublist, sublist_filter.
Qed.

(** C10.  For a non-empty list of ids [deleteMany] reports the length of
    that list as [deleted], in both spaces.  It is not the number of rows
    removed: when the rows have distinct ids and some requested id is the id
    of no bookmark of the scope (in the user space: of no bookmark owned by
    the requesting user), fewer rows are removed than reported. *)
Theorem deleteMany_reports_requested_length (i : BookmarkId) (ids : list BookmarkId) :
  (∀ db,
      fst (PublicBookmarkController.deleteMany (i :: ids) db) = length (i :: ids)
      ∧ (NoDup (map id (publicBookmarks db)) →
         (∃ j, j ∈ i :: ids ∧ ∀ b, b ∈ publicBookmarks db → id b ≠ j) →
         (length (publicBookmarks db)
          - length (publicBookmarks (snd (PublicBookmarkController.deleteMany (i :: ids) db)))
          < fst (PublicBookmarkController.deleteMany (i :: ids) db))%nat))
  ∧ (∀ s db uid, getAuthedUserId s db = Ok uid → ∃ db',
      UserBookmarkController.deleteMany s (i :: ids) db = Ok (length (i :: ids), db')
      ∧ (NoDup (map (fun b => id (row b)) (userBookmarks db)) →
         (∃ j, j ∈ i :: ids ∧ ∀ b, b ∈ userBookmarks db → userId b = uid → id (row b) ≠ j) →
         (length (userBookmarks db) - length (userBookmarks db') < length (i :: ids))%nat)).
Proof.
  split.
  - intros db. split; [done|]. intros Hnd (j & Hj & Hnone).
    cbn [PublicBookmarkController.deleteMany fst snd PublicBookmarkController.set_bookmarks
           publicBookmarks].
    rewrite delete_where_removed.
    apply (fewer_rows_than_ids id _ _ j); [by apply NoDup_fmap_filter| |done].
    intros b [Hin Hb]%list_elem_of_filter. split.
    + unfold Store.inArray in Hin. by apply bool_decide_eq_true in Hin.
    + by apply Hnone.
  - intros s db uid Hauth. unfold UserBookmarkController.deleteMany. rewrite Hauth.
    eexists. split; [reflexivity|]. intros Hnd (j & Hj & Hnone).
    cbn [UserBookmarkController.set_bookmarks userBookmarks].
    rewrite delete_where_removed.
    apply (fewer_rows_than_ids (fun b => id (row b)) _ _ j);
      [by apply NoDup_fmap_filter| |done].
    intros b [Hin Hb]%list_elem_of_filter.
    apply andb_true_iff in Hin as [Hown Hin]. split.
    + unfold Store.inArray in Hin. by apply bool_decide_eq_true in Hin.
    + apply Hnone; [done|]. unfold userLimiter in Hown. by apply bool_decide_eq_true in Hown.
Qed.

Lemma deleteMany_reports_requested_length_witness :
  ∃ db', UserBookmarkController.deleteMany Fixtures.alice [10; 77] Fixtures.user_db
         = Ok (2%nat, db')
         ∧ (length (userBookmarks Fixtures.user_db) - length (userBookmarks db') < 2)%nat.
Proof.
  destruct (proj2 (deleteMany_reports_requested_length 10 [77])
              Fixtures.alice Fixtures.user_db "alice"%string eq_refl) as (db' & Hrun & Hfewer).
  exists db'. split; [exact Hrun|]. apply Hfewer.
  - vm_compute. apply NoDup_singleton.
  - exists 77. split; [by right; left|].
    intros b ->%list_elem_of_singleton _. discriminate.
Defined.

(** ** Manual sort reconciler: [onSaveSorting] *)

Lemma Math_max0_nonneg (xs : list Z) : 0 ≤ BookmarkListPage.Math_max0 xs.
Proof. unfold BookmarkListPage.Math_max0. induction xs; simpl; lia. Qed.

Lemma Math_max0_upper (xs : list Z) (x : Z) :
  x ∈ xs → x ≤ BookmarkListPage.Math_max0 xs.
Proof.
  unfold BookmarkListPage.Math_max0.
  induction xs as [|y xs IH]; [by intros ?%elem_of_nil|].
  intros [->|Hx]%elem_of_cons; simpl; [lia|]. specialize (IH Hx). lia.
Qed.

Lemma Math_max0_attained (xs : list Z) :
  BookmarkListPage.Math_max0 xs ∈ 0 :: xs.
Proof.
  unfold BookmarkListPage.Math_max0.
  induction xs as [|y xs IH]; simpl; [left|].
  destruct (Z.max_spec y (foldr Z.max 0 xs)) as [[_ ->]|[_ ->]].
  - apply elem_of_cons in IH as [->|IH]; [left | right; by right].
  - right; left.
Qed.

Section NoFilter.
Import BookmarkListPage.

(** C9.  With no active filter and a non-empty displayed list of [n]
    bookmarks, [onSaveSorting] sends one write per bookmark, the bookmark at
    index [i] getting the order [M + n - i], where [M] is the greatest of 0
    and the displayed bookmarks' sort orders (an absent sort order counting
    as 0).  Hence every new order is above every previous order of the list,
    and the orders strictly decrease from the top of the list to its bottom
    (so they are pairwise distinct).  For the list [2, 1] with previous
    orders 5 and 10 the writes are 2 -> 12 and 1 -> 11. *)
Theorem manual_sort_without_filter :
  (∀ (st : State) (bookmarks : list SelectBookmark),
      hasFilter st = false → bookmarks ≠ [] →
      ∃ orders M,
        onSaveSorting st bookmarks = Some orders
        ∧ M = Math_max0 (map sortOrder_or_0 bookmarks)
        ∧ 0 ≤ M ∧ (∀ b, b ∈ bookmarks → sortOrder_or_0 b ≤ M)
        ∧ (M = 0 ∨ ∃ b, b ∈ bookmarks ∧ sortOrder_or_0 b = M)
        ∧ length orders = length bookmarks
        ∧ (∀ i b, bookmarks !! i = Some b →
                  orders !! i
                  = Some (id (bookmark b), M + Z.of_nat (length bookmarks) - Z.of_nat i))
        ∧ (∀ i o b, orders !! i = Some o → b ∈ bookmarks → sortOrder_or_0 b < snd o)
        ∧ (∀ i j oi oj, (i < j)%nat → orders !! i = Some oi → orders !! j = Some oj →
                        snd oj < snd oi))
  ∧ (∀ (st : State) (b1 b2 : SelectBookmark),
      hasFilter st = false →
      id (bookmark b1) = 1 → sortOrder (bookmark b1) = Some 10 →
      id (bookmark b2) = 2 → sortOrder (bookmark b2) = Some 5 →
      onSaveSorting st [b2; b1] = Some [(2, 12); (1, 11)]).
Proof.
  split.
  - intros st bookmarks Hf Hne.
    exists (imap (fun idx b => (id (bookmark b),
                     Math_max0 (map sortOrder_or_0 bookmarks)
                     + Z.of_nat (length bookmarks) - Z.of_nat idx)) bookmarks).
    exists (Math_max0 (map sortOrder_or_0 bookmarks)).
    set (M := Math_max0 (map sortOrder_or_0 bookmarks)).
    assert (Hup : ∀ b, b ∈ bookmarks → sortOrder_or_0 b ≤ M).
    { intros b Hb. apply Math_max0_upper, list_elem_of_fmap. by exists b. }
    assert (Hlook : ∀ i o,
               imap (fun idx b => (id (bookmark b),
                       M + Z.of_nat (length bookmarks) - Z.of_nat idx)) bookmarks !! i = Some o →
               (i < length bookmarks)%nat
               ∧ snd o = M + Z.of_nat (length bookmarks) - Z.of_nat i).
    { intros i o. rewrite list_lookup_imap.
      destruct (bookmarks !! i) as [b|] eqn:Hb; [|discriminate].
      apply lookup_lt_Some in Hb. simpl. intros [= <-]. done. }
    split_and!.
    + unfold onSaveSorting, computeOrders. rewrite Hf. by destruct bookmarks.
    + done.
    + apply Math_max0_nonneg.
    + done.
    + pose proof (Math_max0_attained (map sortOrder_or_0 bookmarks)) as Hatt.
      fold M in Hatt. apply elem_of_cons in Hatt as [->|(b & HM & Hb)%list_elem_of_fmap].
      * by left.
      * right. by exists b.
    + apply length_imap.
    + intros i b Hb. rewrite list_lookup_imap, Hb. done.
    + intros i o b [Hi Ho]%Hlook Hb. specialize (Hup b Hb). lia.
    + intros i j oi oj Hij [Hi Hoi]%Hlook [Hj Hoj]%Hlook. lia.
  - intros st b1 b2 Hf Hi1 Ho1 Hi2 Ho2.
    unfold onSaveSorting, computeOrders. rewrite Hf. simpl.
    unfold Math_max0, sortOrder_or_0. simpl. rewrite Hi1, Ho1, Hi2, Ho2. done.
Qed.

Lemma manual_sort_without_filter_witness :
  onSaveSorting (mkState None EmptyString)
    [mkSelect (mkBookmark 2 "b" "https://b.example" None None false (Some 5) None None) [];
     mkSelect (mkBookmark 1 "a" "https://a.example" None None false (Some 10) None None) []]
  = Some [(2, 12); (1, 11)].
Proof.
  apply (proj2 manual_sort_without_filter (mkState None EmptyString)
           (mkSelect (mkBookmark 1 "a" "https://a.example" None None false (Some 10) None None) [])
           (mkSelect (mkBookmark 2 "b" "https://b.example" None None false (Some 5) None None) []));
    reflexivity.
Defined.
End NoFilter.

(** ** [findMany]: the tag filter *)

(** A bookmark selected by the sub-select carries every requested tag. *)
Lemma findTargetBIds_all_tags (join : list BookmarkToTag) (ids : list TagId) (b : BookmarkId) :
  b ∈ findTargetBIds join ids → ∀ t, t ∈ ids → mkBT b t ∈ join.
Proof.
  unfold findTargetBIds, Store.count_distinct.
  set (matching := filter (fun r => Store.inArray (tId r) ids = true) join).
  intros [Hcount _]%list_elem_of_filter t Ht.
  set (L := remove_dups (map tId (filter (fun r => bId r = b) matching))) in Hcount.
  assert (Hsub : L ⊆+ ids).
  { apply NoDup_submseteq; [apply NoDup_remove_dups|].
    intros x (r & -> & [_ Hr]%list_elem_of_filter)%elem_of_remove_dups%list_elem_of_fmap.
    apply list_elem_of_filter in Hr as [Hin _].
    unfold Store.inArray in Hin. by apply bool_decide_eq_true in Hin. }
  assert (Hperm : L ≡ₚ ids) by (apply submseteq_length_Permutation; [done|lia]).
  rewrite <- Hperm in Ht.
  apply elem_of_remove_dups, list_elem_of_fmap in Ht as (r & -> & [Hb Hr]%list_elem_of_filter).
  apply list_elem_of_filter in Hr as [_ Hr]. destruct r; simpl in *; by subst.
Qed.

Lemma related_superset (join : list BookmarkToTag) (ids : list TagId) (b : BookmarkId) :
  b ∈ findTargetBIds join ids →
  (list_to_set ids : gset TagId) ⊆ list_to_set (related join b).
Proof.
  intros Hb t Ht%elem_of_list_to_set. apply (elem_of_assoc join b t).
  by apply findTargetBIds_all_tags with ids.
Qed.

Lemma elem_of_paginate {R : Type} (q : FindManyQuery) (rows : list R) (r : R) :
  r ∈ paginate q rows → r ∈ rows.
Proof. unfold paginate. intros Hr. by apply subseteq_take, subseteq_drop in Hr. Qed.

Lemma elem_of_orderBy {R : Type} (keys : list (R → R → comparison)) (rows : list R) (r : R) :
  r ∈ orderBy keys rows ↔ r ∈ rows.
Proof. unfold orderBy. by rewrite merge_sort_Permutation. Qed.

Lemma tag_3_not_among_1_2 (S : gset TagId) :
  (list_to_set [1; 3] : gset TagId) ⊆ S → S ≠ {[1; 2]}.
Proof.
  intros Hsub ->.
  assert (H3 : (3 : TagId) ∈ ({[1; 2]} : gset TagId)).
  { apply Hsub. rewrite elem_of_list_to_set. right; left. }
  apply elem_of_union in H3 as [H3%elem_of_singleton|H3%elem_of_singleton]; discriminate.
Qed.

Section FindMany.
Context `{Env}.

Lemma public_findMany_selected q db b :
  b ∈ list_ (PublicBookmarkController.findMany q db) →
  ∃ r, b = with_relatedTagIds (publicBookmarkToTag db) r
       ∧ r ∈ publicBookmarks db
       ∧ and_filters (PublicBookmarkController.getFilters q db) r = true.
Proof.
  unfold PublicBookmarkController.findMany. simpl.
  intros (r & -> & Hr%elem_of_paginate)%list_elem_of_fmap.
  exists r. split; [done|].
  assert (Hin : r ∈ filter
            (fun b => and_filters (PublicBookmarkController.getFilters q db) b = true)
            (publicBookmarks db)).
  { destruct (sorter_orderBy _ _); [by apply elem_of_orderBy in Hr | done]. }
  apply list_elem_of_filter in Hin as [Hf Hin]. done.
Qed.

Lemma user_findMany_selected s q db uid :
  getAuthedUserId s db = Ok uid →
  ∃ res, UserBookmarkController.findMany s q db = Ok res
         ∧ ∀ b, b ∈ list_ res →
             ∃ r, b = with_relatedTagIds (userBookmarkToTag db) (row r)
                  ∧ r ∈ userBookmarks db
                  ∧ and_filters (UserBookmarkController.getFilters uid q db) r = true.
Proof.
  intros Hauth. unfold UserBookmarkController.findMany. rewrite Hauth. simpl.
  eexists. split; [reflexivity|]. simpl.
  intros b (r & -> & Hr%elem_of_paginate)%list_elem_of_fmap.
  exists r. split; [done|].
  assert (Hin : r ∈ filter
            (fun b => and_filters (UserBookmarkController.getFilters uid q db) b = true)
            (userBookmarks db)).
  { destruct (sorter_orderBy _ _); [by apply elem_of_orderBy in Hr | done]. }
  apply list_elem_of_filter in Hin as [Hf Hin]. done.
Qed.

(** C2 (amended).  [findMany] returns only bookmarks whose set of
    associated tag ids includes every tag id the filter is built from: in
    the public space the requested [tagIds] with the resolved [tagNames]; in
    the user space those of them that [filterUserTagIds] keeps, the tags
    owned by the requesting user.  In particular a bookmark tagged with
    exactly {1, 2} is not returned by a query for [tagIds = [1, 3]] in the
    public space, nor in the user space when the user owns the tags 1
    and 3. *)
Theorem findMany_returns_bookmarks_with_all_tags (q : FindManyQuery) :
  (∀ db b, b ∈ list_ (PublicBookmarkController.findMany q db) →
      (list_to_set (PublicBookmarkController.findMany_tagIds q db) : gset TagId)
        ⊆ list_to_set (relatedTagIds b)
      ∧ relatedTagIds b = related (publicBookmarkToTag db) (id (bookmark b)))
  ∧ (∀ s db uid, getAuthedUserId s db = Ok uid → ∃ res,
      UserBookmarkController.findMany s q db = Ok res
      ∧ ∀ b, b ∈ list_ res →
          (list_to_set (UserBookmarkController.newTagIds uid q db) : gset TagId)
            ⊆ list_to_set (relatedTagIds b)
          ∧ relatedTagIds b = related (userBookmarkToTag db) (id (bookmark b)))
  ∧ (tagIds q = [1; 3] → tagNames q = [] →
      (∀ db b, b ∈ list_ (PublicBookmarkController.findMany q db) →
          assoc (publicBookmarkToTag db) (id (bookmark b)) ≠ {[1; 2]})
      ∧ (∀ s db uid res, getAuthedUserId s db = Ok uid →
          filterUserTagIds uid [1; 3] db = [1; 3] →
          UserBookmarkController.findMany s q db = Ok res →
          ∀ b, b ∈ list_ res → assoc (userBookmarkToTag db) (id (bookmark b)) ≠ {[1; 2]})).
Proof.
  assert (Hpub : ∀ db b, b ∈ list_ (PublicBookmarkController.findMany q db) →
      (list_to_set (PublicBookmarkController.findMany_tagIds q db) : gset TagId)
        ⊆ list_to_set (relatedTagIds b)
      ∧ relatedTagIds b = related (publicBookmarkToTag db) (id (bookmark b))).
  { intros db b (r & -> & _ & Hf)%public_findMany_selected. split; [|done]. simpl.
    unfold PublicBookmarkController.getFilters, and_filters in Hf.
    rewrite forallb_app in Hf. apply andb_true_iff in Hf as [_ Hf].
    destruct (PublicBookmarkController.findMany_tagIds q db) as [|t ts] eqn:Hids.
    { rewrite list_to_set_nil. apply empty_subseteq. }
    simpl in Hf. rewrite andb_true_r in Hf.
    apply related_superset. unfold Store.inArray in Hf. by apply bool_decide_eq_true in Hf. }
  assert (Huser : ∀ s db uid, getAuthedUserId s db = Ok uid → ∃ res,
      UserBookmarkController.findMany s q db = Ok res
      ∧ ∀ b, b ∈ list_ res →
          (list_to_set (UserBookmarkController.newTagIds uid q db) : gset TagId)
            ⊆ list_to_set (relatedTagIds b)
          ∧ relatedTagIds b = related (userBookmarkToTag db) (id (bookmark b))).
  { intros s db uid Hauth.
    destruct (user_findMany_selected s q db uid Hauth) as (res & Hres & Hsel).
    exists res. split; [done|].
    intros b (r & -> & _ & Hf)%Hsel. split; [|done]. simpl.
    unfold UserBookmarkController.getFilters, and_filters in Hf.
    rewrite !forallb_app in Hf. apply andb_true_iff in Hf as [_ Hf].
    apply andb_true_iff in Hf as [_ Hf].
    destruct (UserBookmarkController.newTagIds uid q db) as [|t ts] eqn:Hids.
    { rewrite list_to_set_nil. apply empty_subseteq. }
    simpl in Hf. rewrite andb_true_r in Hf.
    apply related_superset. unfold Store.inArray in Hf. by apply bool_decide_eq_true in Hf. }
  split_and!; [exact Hpub | exact Huser |].
  intros Hq Hn. split.
  - intros db b [Hsub Hrel]%Hpub Hex.
    unfold PublicBookmarkController.findMany_tagIds in Hsub. rewrite Hn, Hq in Hsub.
    unfold assoc in Hex. rewrite <- Hrel in Hex.
    by apply tag_3_not_among_1_2 in Hsub.
  - intros s db uid res Hauth Howned Hres b Hb Hex.
    destruct (Huser s db uid Hauth) as (res' & Hres' & Hall).
    rewrite Hres in Hres'. injection Hres' as <-.
    destruct (Hall b Hb) as [Hsub Hrel].
    unfold UserBookmarkController.newTagIds, UserBookmarkController.findMany_tagIds in Hsub.
    rewrite Hn, Hq, Howned in Hsub.
    unfold assoc in Hex. rewrite <- Hrel in Hex.
    by apply tag_3_not_among_1_2 in Hsub.
Qed.
End FindMany.

Lemma findMany_returns_bookmarks_with_all_tags_witness :
  ∃ res, UserBookmarkController.findMany (H:=Fixtures.env) Fixtures.alice
           (mkQuery "" [2; 1] [] 1 20 Manual) Fixtures.user_db = Ok res
         ∧ ∀ b, b ∈ list_ res →
             (list_to_set (UserBookmarkController.newTagIds "alice"
                             (mkQuery "" [2; 1] [] 1 20 Manual) Fixtures.user_db) : gset TagId)
               ⊆ list_to_set (relatedTagIds b)
             ∧ relatedTagIds b = related (userBookmarkToTag Fixtures.user_db) (id (bookmark b)).
Proof.
  exact (proj1 (proj2 (findMany_returns_bookmarks_with_all_tags (H:=Fixtures.env)
                         (mkQuery "" [2; 1] [] 1 20 Manual)))
           Fixtures.alice Fixtures.user_db "alice"%string eq_refl).
Defined.

(** C2 (counterexample).  In the user space Alice asks for the tag ids
    [1; 3]; tag 3 is not hers, so the filter is built from [1] alone and her
    bookmark 10, tagged with exactly 1 and 2, is returned. *)
Lemma findMany_user_ignores_unowned_tag :
  (fun res => map (fun b => (id (bookmark b), relatedTagIds b)) (list_ res)) <$>
    UserBookmarkController.findMany (H:=Fixtures.env) Fixtures.alice
      (mkQuery "" [1; 3] [] 1 20 Manual) Fixtures.user_db
  = Ok [(10, [1; 2])].
Proof. vm_compute. reflexivity. Qed.

(** ** Export serializer: timestamps *)

Section Timestamps.
Context `{Env}.
Import BookmarkHtml.

Lemma toUnixSeconds_seconds_of (clock : Clock) (k : nat) (v : JsValue) :
  fst (toUnixSeconds clock k v) = default (now_seconds clock k) (seconds_of v).
Proof.
  destruct v; simpl; try done. by destruct (Date_parse s).
Qed.

(** Each entry line carries the [ADD_DATE] computed for its bookmark. *)
Lemma bookmark_lines_entries (clock : Clock) (k : nat) (bs : list BookmarkHtmlItem) :
  Forall2 (fun b line => ∃ k', line = bookmark_line b (fst (addDate clock k' b)))
    bs (fst (bookmark_lines clock k bs)).
Proof.
  revert k. induction bs as [|b bs IH]; intros k; simpl; [constructor|].
  destruct (addDate clock k b) as [date k1] eqn:Hd.
  specialize (IH k1). destruct (bookmark_lines clock k1 bs) as [ls k2].
  simpl in *. constructor; [|done]. exists k. by rewrite Hd.
Qed.

(** The serializer on items of any shape.  The [ADD_DATE] of an entry is
    computed from [createdAt] when that is neither null nor undefined, and
    from [updatedAt] otherwise.  From the chosen value it is: the
    milliseconds of a date divided by 1000 and rounded down; a number as it
    is, or divided by 1000 and rounded down when above 10,000,000,000; the
    parsed milliseconds of a string divided by 1000 and rounded down; and the
    current time in seconds in every other case.  It is
    "[createdAt], else [updatedAt], else now" whenever [createdAt] is null,
    undefined or usable, which is the case of every item [exportHtml] builds
    (see [exported_entry_addDate_is_first_usable_timestamp]). *)
Lemma addDate_of_any_item
    (clock : Clock) (k : nat) (b : BookmarkHtmlItem) :
  fst (addDate clock k b)
  = match item_createdAt b with
    | JNull | JUndefined => default (now_seconds clock k) (seconds_of (item_updatedAt b))
    | c => default (now_seconds clock k) (seconds_of c)
    end
  ∧ (∀ ms, seconds_of (JDate ms) = Some (ms / 1000)
           ∧ 1000 * (ms / 1000) ≤ ms < 1000 * (ms / 1000) + 1000)
  ∧ (∀ n, (10000000000 < n → seconds_of (JNumber n) = Some (n / 1000))
          ∧ (n ≤ 10000000000 → seconds_of (JNumber n) = Some n))
  ∧ (item_createdAt b = JNull ∨ item_createdAt b = JUndefined
     ∨ is_Some (seconds_of (item_createdAt b)) →
     fst (addDate clock k b) = addDate_first_usable (clock k) b)
  ∧ (∀ bs, Forall2 (fun b line => ∃ k', line = bookmark_line b (fst (addDate clock k' b)))
             bs (fst (bookmark_lines clock k bs))).
Proof.
  split_and!.
  - unfold addDate. rewrite toUnixSeconds_seconds_of. by destruct (item_createdAt b).
  - intros ms. split; [done|]. pose proof (Z.mod_pos_bound ms 1000).
    pose proof (Z.div_mod ms 1000). lia.
  - intros n. simpl. split; intros Hn.
    + by rewrite (proj2 (Z.ltb_lt _ _) Hn).
    + by rewrite (proj2 (Z.ltb_ge _ _) Hn).
  - unfold addDate, addDate_first_usable. rewrite toUnixSeconds_seconds_of.
    intros Hc. destruct (item_createdAt b) as [| |ms|n|s|] eqn:Hcr; simpl in *; try done.
    + destruct (Date_parse s); simpl; [done|].
      destruct Hc as [?|[?|[? ?]]]; discriminate.
    + destruct Hc as [?|[?|[? ?]]]; discriminate.
  - apply bookmark_lines_entries.
Qed.
End Timestamps.

(** ** Export serializer: dependence on the clock *)

Section ClockDependence.
Context `{Env}.
Import BookmarkHtml.
Variables clock1 clock2 : Clock.
Hypothesis same_seconds : ∀ k, clock1 k / 1000 = clock2 k / 1000.

Lemma toUnixSeconds_same_seconds (k : nat) (v : JsValue) :
  toUnixSeconds clock1 k v = toUnixSeconds clock2 k v.
Proof.
  unfold toUnixSeconds, now_seconds.
  destruct v; try done; by rewrite same_seconds.
Qed.

Lemma bookmark_lines_same_seconds (k : nat) (bs : list BookmarkHtmlItem) :
  bookmark_lines clock1 k bs = bookmark_lines clock2 k bs.
Proof.
  revert k. induction bs as [|b bs IH]; intros k; simpl; [done|].
  unfold addDate. rewrite toUnixSeconds_same_seconds.
  destruct (toUnixSeconds clock2 k _) as [date k1]. by rewrite IH.
Qed.

Lemma folder_lines_same_seconds (date : Z) (k : nat) (fs : list BookmarkHtmlFolder) :
  folder_lines clock1 date k fs = folder_lines clock2 date k fs.
Proof.
  revert k. induction fs as [|f fs IH]; intros k; simpl; [done|].
  rewrite bookmark_lines_same_seconds.
  destruct (bookmark_lines clock2 k _) as [bs k1]. by rewrite IH.
Qed.

Lemma buildBookmarkHtml_same_seconds (title folderName : string)
    (folders : list BookmarkHtmlFolder) :
  buildBookmarkHtml clock1 title folderName folders
  = buildBookmarkHtml clock2 title folderName folders.
Proof.
  unfold buildBookmarkHtml, now_seconds.
  by rewrite same_seconds, folder_lines_same_seconds.
Qed.
End ClockDependence.

(** ** Export serializer: the folder headers *)

Section Headers.
Import BookmarkHtml.

Lemma string_app_cons (x : ascii) (a b : string) : String x a +:+ b = String x (a +:+ b).
Proof. reflexivity. Qed.

Lemma string_app_nil_l (b : string) : EmptyString +:+ b = b.
Proof. reflexivity. Qed.

Lemma string_app_assoc (a b c : string) : (a +:+ b) +:+ c = a +:+ b +:+ c.
Proof.
  induction a as [|x a IH]; [done|]. rewrite !string_app_cons. by rewrite IH.
Qed.

Lemma string_app_inv_head (a s1 s2 : string) : a +:+ s1 = a +:+ s2 → s1 = s2.
Proof.
  induction a as [|x a IH]; [done|]. rewrite !string_app_cons. intros [= Heq]. by apply IH.
Qed.

(** Two strings that hold no double quote and are followed by one. *)
Lemma string_app_quote_inv (a b r1 r2 : string) :
  (∀ c, c ∈ list_ascii_of_string a → c ≠ "034"%char) →
  (∀ c, c ∈ list_ascii_of_string b → c ≠ "034"%char) →
  a +:+ String "034" r1 = b +:+ String "034" r2 → a = b.
Proof.
  revert b. induction a as [|x a IH]; intros [|y b] Ha Hb Heq.
  - done.
  - rewrite string_app_nil_l, string_app_cons in Heq. injection Heq as <- _.
    destruct (Hb "034"%char); [left|done].
  - rewrite string_app_nil_l, string_app_cons in Heq. injection Heq as -> _.
    destruct (Ha "034"%char); [left|done].
  - rewrite !string_app_cons in Heq. injection Heq as -> Heq. f_equal.
    apply IH; [| |done].
    + intros c Hc. apply Ha. by right.
    + intros c Hc. apply Hb. by right.
Qed.

Lemma string_of_uint_no_quote (d : Decimal.uint) (c : ascii) :
  c ∈ list_ascii_of_string (NilEmpty.string_of_uint d) → c ≠ "034"%char.
Proof.
  induction d; simpl; try (by intros ?%elem_of_nil);
    intros [->|Hc]%elem_of_cons; try discriminate; by apply IHd.
Qed.

Lemma show_no_quote (n : Z) (c : ascii) :
  c ∈ list_ascii_of_string (show n) → c ≠ "034"%char.
Proof.
  unfold show, NilZero.string_of_int, NilZero.string_of_uint.
  destruct (Z.to_int n) as [d|d]; destruct d; simpl;
    repeat (intros [->|Hc]%elem_of_cons; [discriminate|revert Hc]);
    try (by intros ?%elem_of_nil); by apply string_of_uint_no_quote.
Qed.

Lemma string_of_uint_inj (d d' : Decimal.uint) :
  NilEmpty.string_of_uint d = NilEmpty.string_of_uint d' → d = d'.
Proof.
  intros Heq. pose proof (NilEmpty.usu d) as H1. rewrite Heq, NilEmpty.usu in H1.
  by injection H1.
Qed.

Lemma show_inj (a b : Z) : show a = show b → a = b.
Proof.
  unfold show. intros Heq. apply DecimalZ.to_int_inj.
  assert (Hnn : ∀ z d, Z.to_int z = Decimal.Pos d ∨ Z.to_int z = Decimal.Neg d →
                       d ≠ Decimal.Nil).
  { intros [|p|p] d [Hz|Hz]; simpl in Hz; try discriminate; injection Hz as <-;
      first [discriminate | apply Unsigned.to_uint_nonnil]. }
  assert (Hne : ∀ d, d ≠ Decimal.Nil →
                     NilZero.string_of_uint d = NilEmpty.string_of_uint d)
    by (intros []; done).
  assert (Hdash : ∀ d s, NilEmpty.string_of_uint d ≠ String "-" s)
    by (intros []; simpl; intros s; discriminate).
  destruct (Z.to_int a) as [d|d] eqn:Ha, (Z.to_int b) as [d'|d'] eqn:Hb; simpl in Heq.
  - rewrite !Hne in Heq by (eapply Hnn; eauto). f_equal. by apply string_of_uint_inj.
  - rewrite !Hne in Heq by (eapply Hnn; eauto). by destruct (Hdash d (NilEmpty.string_of_uint d')).
  - rewrite !Hne in Heq by (eapply Hnn; eauto).
    by destruct (Hdash d' (NilEmpty.string_of_uint d)).
  - rewrite !Hne in Heq by (eapply Hnn; eauto). injection Heq as Heq.
    f_equal. by apply string_of_uint_inj.
Qed.

Lemma concat_cons2 (sep x y : string) (l : list string) :
  String.concat sep (x :: y :: l) = x +:+ sep +:+ String.concat sep (y :: l).
Proof. reflexivity. Qed.

Section Build.
Context `{Env}.

Lemma folder_lines_headers (clock : Clock) (d : Z) (k : nat)
    (fs : list BookmarkHtmlFolder) (f : BookmarkHtmlFolder) :
  f ∈ fs → folder_header "    " d (folder_name f) ∈ fst (folder_lines clock d k fs).
Proof.
  revert k. induction fs as [|g fs IH]; intros k Hf; [by apply elem_of_nil in Hf|].
  simpl. destruct (bookmark_lines clock k (folder_bookmarks g)) as [bs k1].
  specialize (IH k1). destruct (folder_lines clock d k1 fs) as [ls k2]. simpl in *.
  apply elem_of_cons in Hf as [->|Hf].
  - left.
  - right. right. apply elem_of_app. right. by apply IH.
Qed.

(** The lines of the document: the sixth is the header of the root folder,
    and every folder has its header line; all carry the second of the first
    reading of the clock. *)
Lemma buildBookmarkHtml_lines (clock : Clock) (title folderName : string)
    (folders : list BookmarkHtmlFolder) :
  ∃ lines,
    buildBookmarkHtml clock title folderName folders = String.concat newline lines
    ∧ lines !! 5%nat = Some (folder_header "  " (clock 0%nat / 1000) folderName)
    ∧ ∀ f, f ∈ folders →
           folder_header "    " (clock 0%nat / 1000) (folder_name f) ∈ lines.
Proof.
  unfold buildBookmarkHtml. eexists. split; [reflexivity|]. split; [reflexivity|].
  intros f Hf. apply elem_of_app. left. apply elem_of_app. right.
  by apply folder_lines_headers.
Qed.

(** Documents built at different seconds differ. *)
Lemma buildBookmarkHtml_different_seconds (clock1 clock2 : Clock) (title folderName : string)
    (folders1 folders2 : list BookmarkHtmlFolder) :
  clock1 0%nat / 1000 ≠ clock2 0%nat / 1000 →
  buildBookmarkHtml clock1 title folderName folders1
  ≠ buildBookmarkHtml clock2 title folderName folders2.
Proof.
  intros Hne Heq. apply Hne. apply show_inj.
  unfold buildBookmarkHtml, now_seconds in Heq.
  cbn [app] in Heq. rewrite !concat_cons2 in Heq.
  rewrite !string_app_assoc in Heq.
  repeat apply string_app_inv_head in Heq.
  eapply string_app_quote_inv; [apply show_no_quote|apply show_no_quote|].
  exact Heq.
Qed.
End Build.
End Headers.

(** C3 (amended).  [exportHtml] is a function of the fixtures and of the
    clock only, and of the clock it uses nothing but the Unix second of each
    reading: in both spaces two calls on identical bookmark and tag fixtures
    whose clock readings fall in the same seconds produce identical
    documents.  The document is its lines joined by newlines; the sixth line
    is the header of the root folder and every exported folder has its
    header line, and each of these headers carries as [ADD_DATE] the Unix
    second of the first reading of the clock.  Hence two calls whose first
    readings fall in different seconds produce different documents (in the
    user space: two calls under a valid session). *)
Theorem exportHtml_deterministic_up_to_clock `{Env} (clock1 clock2 : Clock) :
  ((∀ k, clock1 k / 1000 = clock2 k / 1000) →
   (∀ db, PublicBookmarkController.exportHtml clock1 db
          = PublicBookmarkController.exportHtml clock2 db)
   ∧ (∀ s db, UserBookmarkController.exportHtml s clock1 db
              = UserBookmarkController.exportHtml s clock2 db))
  ∧ (∀ db, ∃ lines,
       PublicBookmarkController.exportHtml clock1 db
       = String.concat BookmarkHtml.newline lines
       ∧ lines !! 5%nat = Some (folder_header "  " (clock1 0%nat / 1000) "bmm-export")
       ∧ ∀ f, f ∈ BookmarkHtml.export_folders (PublicTag_getAll db)
                    (map (with_relatedTagIds (publicBookmarkToTag db))
                       (orderBy [desc sortOrder; desc updatedAt] (publicBookmarks db))) →
              folder_header "    " (clock1 0%nat / 1000) (folder_name f) ∈ lines)
  ∧ (∀ s db uid, getAuthedUserId s db = Ok uid → ∃ lines,
       UserBookmarkController.exportHtml s clock1 db
       = Ok (String.concat BookmarkHtml.newline lines)
       ∧ lines !! 5%nat = Some (folder_header "  " (clock1 0%nat / 1000) "bmm-export")
       ∧ ∀ f, f ∈ BookmarkHtml.export_folders (UserTag_getAll uid db)
                    (map (fun b => with_relatedTagIds (userBookmarkToTag db) (row b))
                       (orderBy [desc (fun b => sortOrder (row b));
                                 desc (fun b => updatedAt (row b))]
                          (filter (fun b => userLimiter uid None b = true)
                             (userBookmarks db)))) →
              folder_header "    " (clock1 0%nat / 1000) (folder_name f) ∈ lines)
  ∧ (clock1 0%nat / 1000 ≠ clock2 0%nat / 1000 →
     (∀ db, PublicBookmarkController.exportHtml clock1 db
            ≠ PublicBookmarkController.exportHtml clock2 db)
     ∧ (∀ s db uid, getAuthedUserId s db = Ok uid →
          UserBookmarkController.exportHtml s clock1 db
          ≠ UserBookmarkController.exportHtml s clock2 db)).
Proof.
  split_and!.
  - intros Hsame. split.
    + intros db. unfold PublicBookmarkController.exportHtml.
      by apply buildBookmarkHtml_same_seconds.
    + intros s db. unfold UserBookmarkController.exportHtml.
      destruct (getAuthedUserId s db) as [uid|e]; simpl; [|done].
      f_equal. by apply buildBookmarkHtml_same_seconds.
  - intros db. unfold PublicBookmarkController.exportHtml. apply buildBookmarkHtml_lines.
  - intros s db uid Hauth.
    destruct (buildBookmarkHtml_lines clock1 "bmm user bookmarks" "bmm-export"
                (BookmarkHtml.export_folders (UserTag_getAll uid db)
                   (map (fun b => with_relatedTagIds (userBookmarkToTag db) (row b))
                      (orderBy [desc (fun b => sortOrder (row b));
                                desc (fun b => updatedAt (row b))]
                         (filter (fun b => userLimiter uid None b = true)
                            (userBookmarks db))))))
      as (lines & Hdoc & Hroot & Hfolders).
    exists lines. split_and!; [|done|done].
    unfold UserBookmarkController.exportHtml. rewrite Hauth. simpl. f_equal. exact Hdoc.
  - intros Hne. split.
    + intros db. unfold PublicBookmarkController.exportHtml.
      by apply buildBookmarkHtml_different_seconds.
    + intros s db uid Hauth. unfold UserBookmarkController.exportHtml. rewrite Hauth.
      intros Heq.
      apply (f_equal (fun r => match r with Ok d => d | Err _ => EmptyString end)) in Heq.
      exact (buildBookmarkHtml_different_seconds _ _ _ _ _ _ Hne Heq).
Qed.

Lemma exportHtml_deterministic_up_to_clock_witness :
  PublicBookmarkController.exportHtml (H:=Fixtures.env) (fun _ => 1700000000123) Fixtures.public_db
  = PublicBookmarkController.exportHtml (H:=Fixtures.env) (fun _ => 1700000000789)
      Fixtures.public_db.
Proof.
  apply (proj1 (exportHtml_deterministic_up_to_clock (H:=Fixtures.env)
                  (fun _ => 1700000000123) (fun _ => 1700000000789))).
  intros k. reflexivity.
Defined.

(** C3 (counterexample).  The same public fixtures exported at second 1 and
    at second 2: the two documents differ (in the [ADD_DATE] of the folder
    headers). *)
Lemma exportHtml_depends_on_clock :
  String.eqb
    (PublicBookmarkController.exportHtml (H:=Fixtures.env) (fun _ => 1000) Fixtures.public_db)
    (PublicBookmarkController.exportHtml (H:=Fixtures.env) (fun _ => 2000) Fixtures.public_db)
  = false.
Proof. vm_compute. reflexivity. Qed.

(** ** Export serializer: grouping into folders *)

Section Grouping.
Import BookmarkHtml.

Lemma extend_nil o : extend o [] = o.
Proof. destruct o; simpl; [by rewrite app_nil_r | done]. Qed.

Lemma extend_app o a b : extend (extend o a) b = extend o (a ++ b).
Proof.
  destruct o as [arr|]; simpl; [by rewrite app_assoc|].
  destruct a; simpl; [done|done].
Qed.

Variable tagIdToName : gmap TagId string.

Lemma push_tag_lookup item m t t' :
  push_tag tagIdToName item m t !! t'
  = if decide (t = t' ∧ is_Some (tagIdToName !! t)) then extend (m !! t') [item]
    else m !! t'.
Proof.
  unfold push_tag. destruct (tagIdToName !! t) as [n|] eqn:Hn.
  - destruct (decide (t = t')) as [->|Hne].
    + rewrite decide_True by (split; [done | by eexists]).
      destruct (m !! t') as [arr|] eqn:Hm; by rewrite lookup_insert_eq.
    + rewrite decide_False by tauto.
      destruct (m !! t) as [arr|]; by rewrite lookup_insert_ne.
  - rewrite decide_False; [done|]. intros [_ [? ?]]. discriminate.
Qed.

Lemma fold_push_tag_lookup item ids m t :
  fold_left (push_tag tagIdToName item) ids m !! t
  = if decide (is_Some (tagIdToName !! t))
    then extend (m !! t) (map (fun _ => item) (filter (fun x => x = t) ids))
    else m !! t.
Proof.
  revert m. induction ids as [|x ids IH]; intros m; simpl.
  - rewrite extend_nil. by destruct (decide _).
  - rewrite IH, push_tag_lookup. destruct (decide (is_Some (tagIdToName !! t))) as [Ht|Ht].
    + destruct (decide (x = t)) as [->|Hne].
      * rewrite decide_True by done. rewrite filter_cons_True by done.
        simpl. by rewrite extend_app.
      * rewrite decide_False by tauto. by rewrite filter_cons_False.
    + destruct (decide (x = t ∧ _)) as [[-> ?]|]; [done|done].
Qed.

Lemma group_step_lookup st b t :
  fst (group_step tagIdToName st b) !! t
  = if decide (is_Some (tagIdToName !! t))
    then extend (fst st !! t) (entries_for_tag t b)
    else fst st !! t.
Proof.
  unfold group_step, entries_for_tag. destruct (relatedTagIds b) as [|x ids] eqn:Hrel.
  - simpl. rewrite extend_nil. by destruct (decide _).
  - cbn [fst]. by rewrite fold_push_tag_lookup.
Qed.

Lemma group_step_untagged st b :
  snd (group_step tagIdToName st b) = snd st ++ untagged_of [b].
Proof.
  unfold group_step, untagged_of. destruct (relatedTagIds b) as [|x ids] eqn:Hrel.
  - by rewrite filter_cons_True.
  - rewrite filter_cons_False by (rewrite Hrel; done). simpl. by rewrite app_nil_r.
Qed.

Lemma untagged_of_cons b rows : untagged_of (b :: rows) = untagged_of [b] ++ untagged_of rows.
Proof.
  unfold untagged_of. destruct (decide (relatedTagIds b = [])).
  - by rewrite !filter_cons_True.
  - by rewrite !filter_cons_False.
Qed.

Lemma fold_group_step rows st :
  (∀ t, fst (fold_left (group_step tagIdToName) rows st) !! t
        = if decide (is_Some (tagIdToName !! t))
          then extend (fst st !! t) (folder_of_tag rows t)
          else fst st !! t)
  ∧ snd (fold_left (group_step tagIdToName) rows st) = snd st ++ untagged_of rows.
Proof.
  revert st. induction rows as [|b rows IH]; intros st; simpl.
  - split; [|by rewrite app_nil_r]. intros t. rewrite extend_nil. by destruct (decide _).
  - destruct (IH (group_step tagIdToName st b)) as [IHm IHu]. split.
    + intros t. rewrite IHm, group_step_lookup. unfold folder_of_tag. simpl.
      destruct (decide _); [by rewrite extend_app | done].
    + rewrite IHu, group_step_untagged, (untagged_of_cons b rows). by rewrite app_assoc.
Qed.
End Grouping.

Lemma omap_ext_elem {A B : Type} (f g : A → option B) (l : list A) :
  (∀ x, x ∈ l → f x = g x) → omap f l = omap g l.
Proof.
  induction l as [|x l IH]; intros Hfg; [done|].
  csimpl. rewrite (Hfg x) by left. rewrite IH by (intros y Hy; apply Hfg; by right). done.
Qed.

Section Folders.
Import BookmarkHtml.

Lemma tagIdToName_fetched (tags : list Tag) (t : Tag) :
  t ∈ tags →
  is_Some ((list_to_map (reverse (map (fun t => (tag_id t, tag_name t)) tags))
             : gmap TagId string) !! tag_id t).
Proof.
  intros Ht. apply not_eq_None_Some. intros Hnone%not_elem_of_list_to_map_2.
  apply Hnone. apply list_elem_of_fmap. exists (tag_id t, tag_name t). split; [done|].
  apply elem_of_reverse, list_elem_of_fmap. by exists t.
Qed.

(** The folders [exportHtml] builds are the folders by tag. *)
Lemma export_folders_by_tag (tags : list Tag) (rows : list SelectBookmark) :
  export_folders tags rows = folders_by_tag tags rows.
Proof.
  unfold export_folders, folders_by_tag.
  set (names := list_to_map _ : gmap TagId string).
  destruct (fold_group_step names rows (∅, [])) as [Hm Hu].
  destruct (fold_left (group_step names) rows (∅, [])) as [m u]. simpl in Hm, Hu. subst u.
  simpl.
  rewrite (omap_ext_elem _ (fun t => match folder_of_tag rows (tag_id t) with
                                     | [] => None
                                     | bs => Some (mkFolder (tag_name t) bs)
                                     end)).
  - destruct (untagged_of rows); [by rewrite app_nil_r | done].
  - intros t Ht.
    rewrite Hm, lookup_empty, decide_True by by apply tagIdToName_fetched.
    by destruct (folder_of_tag rows (tag_id t)).
Qed.

Lemma folder_of_tag_app rows1 rows2 t :
  folder_of_tag (rows1 ++ rows2) t = folder_of_tag rows1 t ++ folder_of_tag rows2 t.
Proof. unfold folder_of_tag. apply flat_map_app. Qed.

Lemma untagged_of_app rows1 rows2 :
  untagged_of (rows1 ++ rows2) = untagged_of rows1 ++ untagged_of rows2.
Proof. unfold untagged_of. by rewrite filter_app, map_app. Qed.

(** C4.  A bookmark that has related tag ids, none of which is the id of
    a fetched tag, is put in no folder at all: the folders are those of
    the export without it, so it is missing from the 未分类 folder too. *)
Theorem export_omits_bookmark_with_only_dangling_tags
    (tags : list Tag) (rows1 rows2 : list SelectBookmark) (b : SelectBookmark) :
  relatedTagIds b ≠ [] →
  (∀ t, t ∈ relatedTagIds b → t ∉ map tag_id tags) →
  export_folders tags (rows1 ++ b :: rows2) = export_folders tags (rows1 ++ rows2).
Proof.
  intros Hsome Hdangling. rewrite !export_folders_by_tag. unfold folders_by_tag. f_equal.
  - apply omap_ext_elem. intros t Ht.
    rewrite !folder_of_tag_app. unfold folder_of_tag at 2. simpl.
    assert (Hnone : entries_for_tag (tag_id t) b = []).
    { unfold entries_for_tag.
      destruct (filter (fun x => x = tag_id t) (relatedTagIds b)) as [|x l] eqn:Hf; [done|].
      assert (Hx : x ∈ filter (fun x => x = tag_id t) (relatedTagIds b))
        by (rewrite Hf; left).
      apply list_elem_of_filter in Hx as [-> Hx].
      destruct (Hdangling _ Hx). apply list_elem_of_fmap. by exists t. }
    by rewrite Hnone.
  - rewrite !untagged_of_app, (untagged_of_cons b rows2).
    unfold untagged_of at 2. by rewrite filter_cons_False.
Qed.
End Folders.

Lemma export_omits_bookmark_with_only_dangling_tags_witness :
  BookmarkHtml.export_folders [mkTag 1 "dev"]
    [mkSelect (mkBookmark 13 "Rocq" "https://rocq-prover.org" None None false (Some 13)
                 (Some 1700000000000) (Some 1700000000000)) [99]]
  = BookmarkHtml.export_folders [mkTag 1 "dev"] [].
Proof.
  apply (export_omits_bookmark_with_only_dangling_tags [mkTag 1 "dev"] [] []).
  - discriminate.
  - intros t ->%list_elem_of_singleton [=]%list_elem_of_singleton.
Defined.

Lemma entries_for_tag_related (t : TagId) (b : SelectBookmark) :
  t ∈ relatedTagIds b → BookmarkHtml.item_of (bookmark b) ∈ entries_for_tag t b.
Proof.
  intros Ht. unfold entries_for_tag. apply list_elem_of_fmap. exists t. split; [done|].
  by apply list_elem_of_filter.
Qed.

(** The grouping of [exportHtml].  The folders are: for each fetched tag,
    in the order of the tags, a folder with the bookmarks related to that
    tag, left out when there is none; then the 未分类 folder with the bookmarks
    that have no related tag id, left out when there is none.  So a bookmark
    appears in the folder of each fetched tag it is related to, and a
    bookmark without related tag ids appears in the 未分类 folder, which is the
    last one. *)
Theorem export_groups_bookmarks_by_tag (tags : list Tag) (rows : list SelectBookmark) :
  BookmarkHtml.export_folders tags rows = folders_by_tag tags rows
  ∧ (∀ b t, b ∈ rows → t ∈ tags → tag_id t ∈ relatedTagIds b →
       mkFolder (tag_name t) (folder_of_tag rows (tag_id t))
         ∈ BookmarkHtml.export_folders tags rows
       ∧ BookmarkHtml.item_of (bookmark b) ∈ folder_of_tag rows (tag_id t))
  ∧ (∀ b, b ∈ rows → relatedTagIds b = [] →
       last (BookmarkHtml.export_folders tags rows) = Some (mkFolder "未分类" (untagged_of rows))
       ∧ BookmarkHtml.item_of (bookmark b) ∈ untagged_of rows
       ∧ ∀ t, BookmarkHtml.item_of (bookmark b) ∈ entries_for_tag t b → False).
Proof.
  split_and!.
  - apply export_folders_by_tag.
  - intros b t Hb Ht Hrel.
    assert (Hin : BookmarkHtml.item_of (bookmark b) ∈ folder_of_tag rows (tag_id t)).
    { unfold folder_of_tag. apply list_elem_of_In, in_flat_map. exists b.
      split; apply list_elem_of_In; [done | by apply entries_for_tag_related]. }
    split; [|done]. rewrite export_folders_by_tag. unfold folders_by_tag.
    apply elem_of_app. left. apply list_elem_of_omap. exists t. split; [done|].
    destruct (folder_of_tag rows (tag_id t)); [by apply elem_of_nil in Hin | done].
  - intros b Hb Hrel.
    assert (Hin : BookmarkHtml.item_of (bookmark b) ∈ untagged_of rows).
    { unfold untagged_of. apply list_elem_of_fmap. exists b. split; [done|].
      by apply list_elem_of_filter. }
    split_and!; [|done|].
    + rewrite export_folders_by_tag. unfold folders_by_tag.
      destruct (untagged_of rows); [by apply elem_of_nil in Hin|]. apply last_snoc.
    + intros t. unfold entries_for_tag. rewrite Hrel. simpl. by intros ?%elem_of_nil.
Qed.

(** ** Export serializer: the [ADD_DATE] of the exported entries *)

Section ExportedEntries.
Context `{Env}.
Import BookmarkHtml.


End ExportedEntries.

(** * Further properties *)

(** ** Export serializer: escaping *)

Section Escaping.
Import BookmarkHtml.

Lemma replaceAll_app (c : ascii) (by_ a b : string) :
  replaceAll c by_ (a +:+ b) = replaceAll c by_ a +:+ replaceAll c by_ b.
Proof.
  induction a as [|x a IH]; [done|].
  rewrite string_app_cons. simpl. rewrite IH.
  destruct (Ascii.eqb x c); [by rewrite string_app_assoc | done].
Qed.

Lemma escapeHtml_app (a b : string) :
  escapeHtml (a +:+ b) = escapeHtml a +:+ escapeHtml b.
Proof. unfold escapeHtml. by rewrite !replaceAll_app. Qed.

Lemma escapeHtml_char (c : ascii) : escapeHtml (String c EmptyString) = escape_char c.
Proof.
  unfold escapeHtml, escape_char. simpl.
  destruct (Ascii.eqb_spec c "&") as [->|H1]; [reflexivity|].
  simpl. destruct (Ascii.eqb_spec c "<") as [->|H2]; [reflexivity|].
  simpl. destruct (Ascii.eqb_spec c ">") as [->|H3]; [reflexivity|].
  simpl. destruct (Ascii.eqb_spec c "034") as [->|H4]; reflexivity.
Qed.

Lemma escapeHtml_escape_each (s : string) : escapeHtml s = escape_each s.
Proof.
  induction s as [|c s IH]; [done|].
  change (String c s) with (String c EmptyString +:+ s).
  rewrite escapeHtml_app, escapeHtml_char, IH. done.
Qed.

Lemma escape_char_safe (c x : ascii) :
  x ∈ list_ascii_of_string (escape_char c) →
  x ≠ "<"%char ∧ x ≠ ">"%char ∧ x ≠ "034"%char.
Proof.
  unfold escape_char.
  destruct (Ascii.eqb_spec c "&") as [->|H1];
    [|destruct (Ascii.eqb_spec c "<") as [->|H2];
      [|destruct (Ascii.eqb_spec c ">") as [->|H3];
        [|destruct (Ascii.eqb_spec c "034") as [->|H4]]]]; simpl;
    rewrite ?elem_of_cons, ?elem_of_nil; intros Hx;
    repeat (destruct Hx as [->|Hx]; [split_and!; (discriminate || done)|]); done.
Qed.

Lemma list_ascii_of_string_app (a b : string) :
  list_ascii_of_string (a +:+ b) = list_ascii_of_string a ++ list_ascii_of_string b.
Proof.
  induction a as [|c a IH]; [done|]. rewrite string_app_cons. simpl. by rewrite IH.
Qed.

(** [escapeHtml], four [replaceAll] in a row, escapes each character on its
    own: the result is the one-pass escape (the ampersands of the entities
    written for [<], [>] and the double quote are not escaped again); it
    distributes over concatenation; it contains no [<], [>] or double quote;
    and a string without the four characters is returned as it is. *)
Theorem escapeHtml_escapes_every_character (s : string) :
  escapeHtml s = escape_each s
  ∧ (∀ t, escapeHtml (s +:+ t) = escapeHtml s +:+ escapeHtml t)
  ∧ (∀ x, x ∈ list_ascii_of_string (escapeHtml s) →
          x ≠ "<"%char ∧ x ≠ ">"%char ∧ x ≠ "034"%char)
  ∧ ((∀ x, x ∈ list_ascii_of_string s →
           x ≠ "&"%char ∧ x ≠ "<"%char ∧ x ≠ ">"%char ∧ x ≠ "034"%char) →
     escapeHtml s = s).
Proof.
  split_and!.
  - apply escapeHtml_escape_each.
  - intros t. apply escapeHtml_app.
  - rewrite escapeHtml_escape_each. induction s as [|c s IH]; simpl.
    + by intros x ?%elem_of_nil.
    + intros x. rewrite list_ascii_of_string_app, elem_of_app.
      intros [Hx|Hx]; [by apply escape_char_safe with c | by apply IH].
  - rewrite escapeHtml_escape_each. induction s as [|c s IH]; simpl; [done|].
    intros Hplain. rewrite IH by (intros x Hx; apply Hplain; by right).
    destruct (Hplain c) as (H1 & H2 & H3 & H4); [left|].
    unfold escape_char.
    rewrite (proj2 (Ascii.eqb_neq _ _) H1), (proj2 (Ascii.eqb_neq _ _) H2),
      (proj2 (Ascii.eqb_neq _ _) H3), (proj2 (Ascii.eqb_neq _ _) H4). done.
Qed.
End Escaping.

Lemma escapeHtml_escapes_every_character_witness :
  BookmarkHtml.escapeHtml "Rocq prover" = "Rocq prover"%string.
Proof.
  apply (escapeHtml_escapes_every_character "Rocq prover").
  intros x Hx. simpl in Hx.
  repeat (apply elem_of_cons in Hx as [->|Hx]; [split_and!; discriminate|]).
  by apply elem_of_nil in Hx.
Defined.

(** ** [findMany]: pagination *)

Lemma length_orderBy {R : Type} (keys : list (R → R → comparison)) (rows : list R) :
  length (orderBy keys rows) = length rows.
Proof. unfold orderBy. by rewrite merge_sort_Permutation. Qed.

Lemma length_paginate {R : Type} (q : FindManyQuery) (rows : list R) :
  length (paginate q rows) = (limit q `min` (length rows - (page q - 1) * limit q))%nat.
Proof. unfold paginate. by rewrite length_take, length_drop. Qed.

(** The first [k] pages of size [n], one after the other, are the first
    page of size [k * n]. *)
Lemma paginate_pages {R : Type} (q : FindManyQuery) (n k : nat) (rows : list R) :
  concat (map (fun p => paginate (with_page q p n) rows) (seq 1 k))
  = paginate (with_page q 1 (k * n)) rows.
Proof.
  unfold paginate. simpl. induction k as [|k IH].
  - done.
  - rewrite seq_S, map_app, concat_app, IH. simpl. rewrite app_nil_r.
    replace (n + k * n)%nat with (k * n + n)%nat by lia.
    replace (k - 0)%nat with k by lia.
    by rewrite take_take_drop.
Qed.

Section Pagination.
Context `{Env}.

(** The rows [findMany] selects before it orders and cuts them. *)
Lemma public_findMany_eq q db :
  ∃ ordered,
    length ordered = total (PublicBookmarkController.findMany q db)
    ∧ (∀ p n, list_ (PublicBookmarkController.findMany (with_page q p n) db)
              = map (with_relatedTagIds (publicBookmarkToTag db))
                  (paginate (with_page q p n) ordered))
    ∧ (∀ p n, total (PublicBookmarkController.findMany (with_page q p n) db)
              = total (PublicBookmarkController.findMany q db))
    ∧ list_ (PublicBookmarkController.findMany q db)
      = map (with_relatedTagIds (publicBookmarkToTag db)) (paginate q ordered).
Proof.
  exists (let selected := filter (fun b => and_filters (PublicBookmarkController.getFilters q db) b
                                           = true) (publicBookmarks db) in
          match sorter_orderBy (fun b => b) (sorterKey q) with
          | Some keys => orderBy keys selected
          | None => selected
          end).
  split_and!; try reflexivity.
  unfold PublicBookmarkController.findMany. simpl.
  destruct (sorter_orderBy (fun b => b) (sorterKey q)); by rewrite ?length_orderBy.
Qed.

Lemma user_findMany_eq s q db uid :
  getAuthedUserId s db = Ok uid →
  ∃ ordered r,
    UserBookmarkController.findMany s q db = Ok r
    ∧ length ordered = total r
    ∧ list_ r = map (fun b => with_relatedTagIds (userBookmarkToTag db) (row b))
                  (paginate q ordered)
    ∧ (∀ p n, ∃ r', UserBookmarkController.findMany s (with_page q p n) db = Ok r'
                    ∧ total r' = total r
                    ∧ list_ r' = map (fun b => with_relatedTagIds (userBookmarkToTag db) (row b))
                                   (paginate (with_page q p n) ordered)).
Proof.
  intros Hauth. unfold UserBookmarkController.findMany. rewrite Hauth. simpl.
  exists (let selected := filter (fun b => and_filters (UserBookmarkController.getFilters uid q db) b
                                           = true) (userBookmarks db) in
          match sorter_orderBy row (sorterKey q) with
          | Some keys => orderBy keys selected
          | None => selected
          end).
  eexists. split_and!; try reflexivity.
  - simpl. destruct (sorter_orderBy row (sorterKey q)); by rewrite ?length_orderBy.
  - intros p n. eexists. split_and!; reflexivity.
Qed.

(** [findMany] returns the rows of the requested page: their number is
    the page size, or what is left of the selection after the earlier pages
    when that is less; a page that starts at or after the end of the selection
    is empty and has [hasMore = false]; when [hasMore] is true the page is
    full; [total] is the size of the whole selection, the same for every
    page and page size. *)
Theorem findMany_page_size (q : FindManyQuery) :
  (∀ db,
      length (list_ (PublicBookmarkController.findMany q db))
      = (limit q `min` (total (PublicBookmarkController.findMany q db)
                        - (page q - 1) * limit q))%nat
      ∧ ((total (PublicBookmarkController.findMany q db) ≤ (page q - 1) * limit q)%nat →
         list_ (PublicBookmarkController.findMany q db) = []
         ∧ hasMore (PublicBookmarkController.findMany q db) = false)
      ∧ (hasMore (PublicBookmarkController.findMany q db) = true → (1 ≤ page q)%nat →
         length (list_ (PublicBookmarkController.findMany q db)) = limit q)
      ∧ (∀ p n, total (PublicBookmarkController.findMany (with_page q p n) db)
                = total (PublicBookmarkController.findMany q db)))
  ∧ (∀ s db uid, getAuthedUserId s db = Ok uid → ∃ r,
      UserBookmarkController.findMany s q db = Ok r
      ∧ length (list_ r) = (limit q `min` (total r - (page q - 1) * limit q))%nat
      ∧ ((total r ≤ (page q - 1) * limit q)%nat → list_ r = [] ∧ hasMore r = false)
      ∧ (hasMore r = true → (1 ≤ page q)%nat → length (list_ r) = limit q)
      ∧ (∀ p n, ∃ r', UserBookmarkController.findMany s (with_page q p n) db = Ok r'
                      ∧ total r' = total r)).
Proof.
  split.
  - intros db. destruct (public_findMany_eq q db) as (ordered & Hlen & _ & Htot & Hlist).
    assert (Hsize : length (list_ (PublicBookmarkController.findMany q db))
              = (limit q `min` (total (PublicBookmarkController.findMany q db)
                                - (page q - 1) * limit q))%nat)
      by by rewrite Hlist, length_map, length_paginate, Hlen.
    assert (Hmore : hasMore (PublicBookmarkController.findMany q db) = true
              ↔ (page q * limit q < total (PublicBookmarkController.findMany q db))%nat).
    { unfold PublicBookmarkController.findMany. simpl. apply bool_decide_eq_true. }
    split_and!; [done| | |done].
    + intros Hend. split.
      * apply length_zero_iff_nil. rewrite Hsize. lia.
      * apply not_true_is_false. rewrite Hmore. nia.
    + intros Hm%Hmore Hp. rewrite Hsize. nia.
  - intros s db uid Hauth.
    destruct (user_findMany_eq s q db uid Hauth) as (ordered & r & Hr & Hlen & Hlist & Hpages).
    assert (Hsize : length (list_ r) = (limit q `min` (total r - (page q - 1) * limit q))%nat)
      by by rewrite Hlist, length_map, length_paginate, Hlen.
    assert (Hmore : hasMore r = true ↔ (page q * limit q < total r)%nat).
    { unfold UserBookmarkController.findMany in Hr. rewrite Hauth in Hr. simpl in Hr.
      injection Hr as <-. simpl. apply bool_decide_eq_true. }
    exists r. split_and!; [done|done| | |].
    + intros Hend. split.
      * apply length_zero_iff_nil. rewrite Hsize. lia.
      * apply not_true_is_false. rewrite Hmore. nia.
    + intros Hm%Hmore Hp. rewrite Hsize. nia.
    + intros p n. destruct (Hpages p n) as (r' & ? & ? & _). by exists r'.
Qed.

(** Reading the first [k] pages of size [n] one after the other gives the
    first page of size [k * n]: consecutive pages neither overlap nor skip a
    row. *)
Theorem findMany_pages_concatenate (q : FindManyQuery) (n k : nat) :
  (∀ db,
      concat (map (fun p => list_ (PublicBookmarkController.findMany (with_page q p n) db))
                (seq 1 k))
      = list_ (PublicBookmarkController.findMany (with_page q 1 (k * n)) db))
  ∧ (∀ s db,
      concat (map (fun p => result_list (UserBookmarkController.findMany s (with_page q p n) db))
                (seq 1 k))
      = result_list (UserBookmarkController.findMany s (with_page q 1 (k * n)) db)).
Proof.
  split.
  - intros db. destruct (public_findMany_eq q db) as (ordered & _ & Hlist & _).
    rewrite Hlist, <- (paginate_pages q n k ordered), concat_map, map_map.
    f_equal. apply map_ext. intros p. by rewrite Hlist.
  - intros s db. destruct (getAuthedUserId s db) as [uid|e] eqn:Hauth.
    + destruct (user_findMany_eq s q db uid Hauth) as (ordered & r0 & _ & _ & _ & Hpages).
      destruct (Hpages 1%nat (k * n)%nat) as (r & Hr & _ & Hl). rewrite Hr. simpl.
      rewrite Hl, <- (paginate_pages q n k ordered), concat_map, map_map.
      f_equal. apply map_ext. intros p.
      destruct (Hpages p n) as (r' & Hr' & _ & Hl'). rewrite Hr'. simpl. by rewrite Hl'.
    + unfold UserBookmarkController.findMany. rewrite Hauth. simpl.
      induction (seq 1 k); [done | simpl; done].
Qed.
End Pagination.

(** ** Ordering of a selection *)

Lemma compare_column_eq (x y : option Z) : compare_column x y = Eq ↔ x = y.
Proof.
  destruct x as [x|], y as [y|]; simpl; try (split; [discriminate|discriminate]); [|done].
  rewrite Z.compare_eq_iff. split; congruence.
Qed.

Lemma compare_column_opp (x y : option Z) :
  compare_column y x = CompOpp (compare_column x y).
Proof. destruct x, y; simpl; try done. apply Z.compare_antisym. Qed.

Lemma compare_column_lt_trans (x y z : option Z) :
  compare_column x y = Lt → compare_column y z = Lt → compare_column x z = Lt.
Proof.
  destruct x, y, z; simpl; try done. rewrite !Z.compare_lt_iff. lia.
Qed.

Section Comparisons.
Context {R : Type}.

Lemma order_comparison_asc (col : R → option Z) : order_comparison (asc col).
Proof.
  unfold asc. split.
  - intros a b. apply compare_column_opp.
  - intros a b d ->%compare_column_eq. done.
  - intros a b d. apply compare_column_lt_trans.
Qed.

Lemma order_comparison_desc (col : R → option Z) : order_comparison (desc col).
Proof.
  unfold desc. split.
  - intros a b. apply compare_column_opp.
  - intros a b d ->%compare_column_eq. done.
  - intros a b d H1 H2. by apply compare_column_lt_trans with (col b).
Qed.

Lemma oc_eq_r (c : R → R → comparison) (a b d : R) :
  order_comparison c → c b d = Eq → c a d = c a b.
Proof.
  intros Hc Hbd.
  assert (Hdb : c d b = Eq) by (rewrite (oc_opp c Hc b d), Hbd; done).
  rewrite (oc_opp c Hc d a), (oc_opp c Hc b a). f_equal. by apply (oc_eq c Hc).
Qed.

Lemma order_comparison_lexicographic (keys : list (R → R → comparison)) :
  Forall order_comparison keys → order_comparison (lexicographic keys).
Proof.
  induction 1 as [|k keys Hk _ IH]; simpl.
  - split; done.
  - split.
    + intros a b. rewrite (oc_opp k Hk a b).
      destruct (k a b); simpl; [apply (oc_opp _ IH)|done|done].
    + intros a b d Hab. destruct (k a b) eqn:Hkab; try discriminate.
      rewrite (oc_eq k Hk a b d Hkab). destruct (k b d); [by apply (oc_eq _ IH)|done|done].
    + intros a b d Hab Hbd. destruct (k a b) eqn:Hkab; try discriminate.
      * rewrite (oc_eq k Hk a b d Hkab).
        destruct (k b d); try discriminate; [by apply (oc_lt _ IH) with b | done].
      * destruct (k b d) eqn:Hkbd; try discriminate.
        -- by rewrite (oc_eq_r k a b d Hk Hkbd), Hkab.
        -- by rewrite (oc_lt k Hk a b d Hkab Hkbd).
Qed.

Lemma not_Gt_total (c : R → R → comparison) :
  order_comparison c → Total (fun a b => c a b ≠ Gt).
Proof.
  intros Hc a b. destruct (c a b) eqn:Hab; [by left|by left|right].
  rewrite (oc_opp c Hc a b), Hab. done.
Qed.

Lemma not_Gt_transitive (c : R → R → comparison) :
  order_comparison c → Transitive (fun a b => c a b ≠ Gt).
Proof.
  intros Hc a b d Hab Hbd. destruct (c a b) eqn:Hkab; [|clear Hab|done].
  - by rewrite (oc_eq c Hc a b d Hkab).
  - destruct (c b d) eqn:Hkbd; [|clear Hbd|done].
    + by rewrite (oc_eq_r c a b d Hc Hkbd), Hkab.
    + by rewrite (oc_lt c Hc a b d Hkab Hkbd).
Qed.

(** [orderBy] returns the rows in the order of its keys. *)
Lemma orderBy_sorted (keys : list (R → R → comparison)) (rows : list R) :
  Forall order_comparison keys →
  StronglySorted (fun a b => lexicographic keys a b ≠ Gt) (orderBy keys rows).
Proof.
  intros Hkeys%order_comparison_lexicographic.
  apply (@StronglySorted_merge_sort _ _ _ (not_Gt_transitive _ Hkeys) (not_Gt_total _ Hkeys)).
Qed.

Lemma StronglySorted_weaken (rel1 rel2 : relation R) (rows : list R) :
  (∀ a b, rel1 a b → rel2 a b) → StronglySorted rel1 rows → StronglySorted rel2 rows.
Proof.
  intros Himpl. induction 1 as [|a rows _ IH Hall]; constructor; [done|].
  eapply Forall_impl; [exact Hall | apply Himpl].
Qed.

Lemma paginate_sorted (rel : relation R) (q : FindManyQuery) (rows : list R) :
  StronglySorted rel rows → StronglySorted rel (paginate q rows).
Proof.
  intros Hs. unfold paginate.
  rewrite <- (take_drop ((page q - 1) * limit q) rows) in Hs.
  apply StronglySorted_app_1_r in Hs.
  rewrite <- (take_drop (limit q) (drop _ rows)) in Hs.
  by apply StronglySorted_app_1_l in Hs.
Qed.

Lemma take_sorted (rel : relation R) (n : nat) (rows : list R) :
  StronglySorted rel rows → StronglySorted rel (take n rows).
Proof.
  intros Hs. rewrite <- (take_drop n rows) in Hs. by apply StronglySorted_app_1_l in Hs.
Qed.

Lemma manual_keys_order (col : R → Bookmark) (a b : R) :
  lexicographic [desc (fun r => sortOrder (col r)); desc (fun r => updatedAt (col r))] a b ≠ Gt →
  manual_order (col a) (col b).
Proof.
  unfold manual_order, column_le, desc. simpl. intros Hlex.
  destruct (compare_column (sortOrder (col b)) (sortOrder (col a))) eqn:Hso.
  - split; [done|]. intros _. by destruct (compare_column (updatedAt (col b)) _).
  - split; [done|]. intros Heq. rewrite Heq in Hso.
    by rewrite (proj2 (compare_column_eq _ _) eq_refl) in Hso.
  - done.
Qed.

(** The keys chosen for a sorter key give the order that key asks for. *)
Lemma sorter_orderBy_order (col : R → Bookmark) (k : SorterKey) :
  ∃ keys, sorter_orderBy col k = Some keys
          ∧ Forall order_comparison keys
          ∧ ∀ a b, lexicographic keys a b ≠ Gt → sorter_order k (col a) (col b).
Proof.
  destruct k; eexists; (split; [reflexivity|]); split;
    try (repeat constructor; (apply order_comparison_desc || apply order_comparison_asc)).
  - apply manual_keys_order.
  - intros a b. simpl. unfold desc, column_le. by destruct (compare_column _ _).
  - intros a b. simpl. unfold asc, column_le. by destruct (compare_column _ _).
  - intros a b. simpl. unfold desc, column_le. by destruct (compare_column _ _).
  - intros a b. simpl. unfold asc, column_le. by destruct (compare_column _ _).
Qed.
End Comparisons.

Section Ordering.
Context `{Env}.

(** [findMany] returns its list in the order the sorter key asks for, in
    both spaces: for [manual], descending [sortOrder] and, among equal sort
    orders, descending [updatedAt]; for the four other keys, ascending or
    descending [createdAt] or [updatedAt]; a NULL column counts as the
    lowest value.  [recent] and [search] return their lists in the manual
    order. *)
Theorem findMany_list_is_ordered (q : FindManyQuery) (pageSize : nat) (kw : string) :
  (∀ db,
      StronglySorted (fun a b => sorter_order (sorterKey q) (bookmark a) (bookmark b))
        (list_ (PublicBookmarkController.findMany q db))
      ∧ StronglySorted (fun a b => manual_order (bookmark a) (bookmark b))
          (PublicBookmarkController.recent pageSize db)
      ∧ StronglySorted (fun a b => manual_order (bookmark a) (bookmark b))
          (PublicBookmarkController.search kw db))
  ∧ (∀ s db uid, getAuthedUserId s db = Ok uid → ∃ r l1 l2,
      UserBookmarkController.findMany s q db = Ok r
      ∧ UserBookmarkController.recent pageSize s db = Ok l1
      ∧ UserBookmarkController.search s kw db = Ok l2
      ∧ StronglySorted (fun a b => sorter_order (sorterKey q) (bookmark a) (bookmark b))
          (list_ r)
      ∧ StronglySorted (fun a b => manual_order (bookmark a) (bookmark b)) l1
      ∧ StronglySorted (fun a b => manual_order (bookmark a) (bookmark b)) l2).
Proof.
  assert (Hmanual : ∀ (R : Type) (col : R → Bookmark) (join : list BookmarkToTag)
            (n : nat) (rows : list R),
            StronglySorted (fun a b => manual_order (bookmark a) (bookmark b))
              (map (fun b => with_relatedTagIds join (col b))
                 (take n (orderBy [desc (fun r => sortOrder (col r));
                                   desc (fun r => updatedAt (col r))] rows)))).
  { intros R col join n rows.
    apply (StronglySorted_fmap _ (fun a b => manual_order (col a) (col b))); [done|].
    apply take_sorted.
    eapply StronglySorted_weaken; [|apply orderBy_sorted].
    - intros a b. apply manual_keys_order.
    - repeat constructor; apply order_comparison_desc. }
  split.
  - intros db. split_and!.
    + unfold PublicBookmarkController.findMany. simpl.
      destruct (sorter_orderBy_order (fun b : Bookmark => b) (sorterKey q))
        as (keys & -> & Hgood & Hord).
      apply (StronglySorted_fmap _ (fun a b => sorter_order (sorterKey q) a b)); [done|].
      apply paginate_sorted.
      eapply StronglySorted_weaken; [apply Hord | by apply orderBy_sorted].
    + apply (Hmanual Bookmark (fun b => b)).
    + apply (Hmanual Bookmark (fun b => b)).
  - intros s db uid Hauth.
    unfold UserBookmarkController.findMany, UserBookmarkController.recent,
      UserBookmarkController.search. rewrite Hauth. simpl.
    eexists _, _, _. split_and!; try reflexivity.
    + simpl. destruct (sorter_orderBy_order row (sorterKey q)) as (keys & -> & Hgood & Hord).
      apply (StronglySorted_fmap _ (fun a b => sorter_order (sorterKey q) (row a) (row b)));
        [done|].
      apply paginate_sorted.
      eapply StronglySorted_weaken; [apply Hord | by apply orderBy_sorted].
    + apply (Hmanual UserBookmark row).
    + apply (Hmanual UserBookmark row).
Qed.
End Ordering.

(** ** [findMany]: the sub-select of the tag filter *)

Lemma findTargetBIds_NoDup_tagIds (join : list BookmarkToTag) (ids : list TagId) (b : BookmarkId) :
  b ∈ findTargetBIds join ids → NoDup ids.
Proof.
  unfold findTargetBIds, Store.count_distinct.
  set (matching := filter (fun r => Store.inArray (tId r) ids = true) join).
  intros [Hcount _]%list_elem_of_filter.
  set (L := remove_dups (map tId (filter (fun r => bId r = b) matching))) in Hcount.
  assert (Hsub : L ⊆+ ids).
  { apply NoDup_submseteq; [apply NoDup_remove_dups|].
    intros x (r & -> & [_ Hr]%list_elem_of_filter)%elem_of_remove_dups%list_elem_of_fmap.
    apply list_elem_of_filter in Hr as [Hin _].
    unfold Store.inArray in Hin. by apply bool_decide_eq_true in Hin. }
  assert (Hperm : L ≡ₚ ids) by (apply submseteq_length_Permutation; [done|lia]).
  rewrite <- Hperm. apply NoDup_remove_dups.
Qed.

Lemma findTargetBIds_complete (join : list BookmarkToTag) (ids : list TagId) (b : BookmarkId) :
  NoDup ids → ids ≠ [] → (∀ t, t ∈ ids → mkBT b t ∈ join) → b ∈ findTargetBIds join ids.
Proof.
  intros Hnd Hne Hall. unfold findTargetBIds, Store.count_distinct.
  set (matching := filter (fun r => Store.inArray (tId r) ids = true) join).
  assert (Hmatch : ∀ t, t ∈ ids → mkBT b t ∈ matching).
  { intros t Ht. apply list_elem_of_filter. split; [|by apply Hall].
    unfold Store.inArray. by apply bool_decide_eq_true. }
  apply list_elem_of_filter. split.
  - apply Permutation_length, NoDup_Permutation; [apply NoDup_remove_dups|done|].
    intros t. rewrite elem_of_remove_dups, list_elem_of_fmap. split.
    + intros (r & -> & [_ Hr]%list_elem_of_filter).
      apply list_elem_of_filter in Hr as [Hin _].
      unfold Store.inArray in Hin. by apply bool_decide_eq_true in Hin.
    + intros Ht. exists (mkBT b t). split; [done|].
      apply list_elem_of_filter. split; [done | by apply Hmatch].
  - destruct ids as [|t ids]; [done|].
    apply elem_of_remove_dups, list_elem_of_fmap. exists (mkBT b t).
    split; [done|]. apply Hmatch. left.
Qed.

(** The sub-select of [findMany] selects each bookmark at most once.  For
    requested tag ids without repetition (and at least one) it selects
    exactly the bookmarks that carry every requested tag; when a tag id is
    requested twice, the count of distinct tags can never reach the length of
    the list and it selects nothing. *)
Theorem findTargetBIds_selects_bookmarks_with_every_tag
    (join : list BookmarkToTag) (ids : list TagId) :
  NoDup (findTargetBIds join ids)
  ∧ (NoDup ids → ids ≠ [] →
     ∀ b, b ∈ findTargetBIds join ids ↔ ∀ t, t ∈ ids → mkBT b t ∈ join)
  ∧ (¬ NoDup ids → findTargetBIds join ids = []).
Proof.
  split_and!.
  - unfold findTargetBIds. apply NoDup_filter, NoDup_remove_dups.
  - intros Hnd Hne b. split.
    + apply findTargetBIds_all_tags.
    + by apply findTargetBIds_complete.
  - intros Hdup. destruct (findTargetBIds join ids) as [|b l] eqn:Hsel; [done|].
    destruct Hdup. apply (findTargetBIds_NoDup_tagIds join ids b). rewrite Hsel. left.
Qed.

Lemma findTargetBIds_selects_bookmarks_with_every_tag_witness :
  findTargetBIds [mkBT 10 1; mkBT 10 2; mkBT 11 1] [1; 1] = [].
Proof.
  apply (findTargetBIds_selects_bookmarks_with_every_tag [mkBT 10 1; mkBT 10 2; mkBT 11 1] [1; 1]).
  intros Hnd. apply NoDup_cons in Hnd as [Hin _]. apply Hin. left.
Defined.

Section TagFilterEdge.
Context `{Env}.

(** A tag requested both by id and by name makes [findMany] return
    nothing: [tagNames] are resolved and pushed to [tagIds] without looking
    for repetitions, and with a repeated id the tag filter selects no
    bookmark. *)
Theorem findMany_tag_requested_twice_selects_nothing (q : FindManyQuery) (db : PublicDb) :
  ¬ NoDup (PublicBookmarkController.findMany_tagIds q db) →
  list_ (PublicBookmarkController.findMany q db) = []
  ∧ total (PublicBookmarkController.findMany q db) = 0%nat.
Proof.
  intros Hdup.
  assert (Hsel : filter (fun b => and_filters (PublicBookmarkController.getFilters q db) b = true)
                   (publicBookmarks db) = []).
  { destruct (filter _ (publicBookmarks db)) as [|b l] eqn:Hf; [done|].
    assert (Hb : b ∈ filter
              (fun b => and_filters (PublicBookmarkController.getFilters q db) b = true)
              (publicBookmarks db)) by (rewrite Hf; left).
    apply list_elem_of_filter in Hb as [Hb _].
    unfold PublicBookmarkController.getFilters, and_filters in Hb.
    rewrite forallb_app in Hb. apply andb_true_iff in Hb as [_ Hb].
    destruct (PublicBookmarkController.findMany_tagIds q db) as [|t ts] eqn:Hids.
    { destruct Hdup. constructor. }
    simpl in Hb. rewrite andb_true_r in Hb.
    unfold Store.inArray in Hb. apply bool_decide_eq_true in Hb.
    destruct Hdup. by apply findTargetBIds_NoDup_tagIds in Hb. }
  unfold PublicBookmarkController.findMany. simpl. rewrite Hsel.
  split; [|done].
  assert (Hnil : ∀ keys, orderBy keys ([] : list Bookmark) = []).
  { intros keys. apply Permutation_nil_r. unfold orderBy. by rewrite merge_sort_Permutation. }
  destruct (sorter_orderBy _ _); rewrite ?Hnil; unfold paginate; by rewrite drop_nil, take_nil.
Qed.
End TagFilterEdge.

Lemma findMany_tag_requested_twice_selects_nothing_witness :
  list_ (PublicBookmarkController.findMany (H:=Fixtures.env)
           (mkQuery "" [1] ["dev"%string] 1 20 Manual) Fixtures.public_db) = []
  ∧ total (PublicBookmarkController.findMany (H:=Fixtures.env)
             (mkQuery "" [1] ["dev"%string] 1 20 Manual) Fixtures.public_db) = 0%nat.
Proof.
  apply (findMany_tag_requested_twice_selects_nothing (H:=Fixtures.env)).
  intros Hnd. vm_compute in Hnd. apply NoDup_cons in Hnd as [Hin _]. apply Hin. left.
Defined.

(** ** The user space: isolation between users *)

Lemma userLimiter_owner uid i b : userLimiter uid i b = true → userId b = uid.
Proof.
  unfold userLimiter. destruct i as [[| |]|];
    rewrite ?andb_true_iff, ?bool_decide_eq_true; tauto.
Qed.

Lemma userLimiter_id uid i b :
  i ≠ 0 → userLimiter uid (Some i) b = true ↔ id (row b) = i ∧ userId b = uid.
Proof.
  intros Hi. unfold userLimiter. destruct i; [done| |];
    by rewrite andb_true_iff, !bool_decide_eq_true.
Qed.

Lemma UserBookmark_eta (b : UserBookmark) : mkUserBookmark (userId b) (row b) = b.
Proof. by destruct b. Qed.

Lemma update_where_lookup {R : Type} (p : R → bool) (f : R → R) (l : list R) (i : nat) :
  update_where p f l !! i = (fun r => if p r then f r else r) <$> l !! i.
Proof. unfold update_where. apply list_lookup_fmap. Qed.


Lemma filter_update_where {R : Type} (P : R → Prop) `{∀ x, Decision (P x)}
    (p : R → bool) (f : R → R) (l : list R) :
  (∀ r, r ∈ l → p r = true → ¬ P r ∧ ¬ P (f r)) →
  filter P (update_where p f l) = filter P l.
Proof.
  unfold update_where. induction l as [|r l IH]; intros Hp; [done|]. simpl.
  rewrite !filter_cons, IH by (intros x Hx; apply Hp; by right).
  destruct (p r) eqn:Hr; [|done].
  destruct (Hp r) as [H1 H2]; [left|done|]. by rewrite !decide_False.
Qed.

Lemma filter_delete_where {R : Type} (P : R → Prop) `{∀ x, Decision (P x)}
    (p : R → bool) (l : list R) :
  (∀ r, p r = true → ¬ P r) →
  filter P (Store.delete_where p l) = filter P l.
Proof.
  intros Hp. unfold Store.delete_where. induction l as [|r l IH]; [done|].
  destruct (p r) eqn:Hr.
  - rewrite filter_cons_False by congruence.
    rewrite (filter_cons_False P) by by apply Hp. done.
  - rewrite (filter_cons_True (fun r => p r = false)) by done.
    rewrite !filter_cons. by rewrite IH.
Qed.

Section Isolation.
Context `{Env}.

(** In the user space the reading operations return only bookmarks of the
    requesting user: every bookmark listed by [findMany], [recent] or
    [search], and the bookmark returned by [query], is a stored row owned by
    that user ([query] for a non-zero id returns a row with that id), and
    [total] counts that user's rows. *)
Theorem user_reads_only_own_bookmarks
    (s : option Session) (db : UserDb) (uid : UserId)
    (q : FindManyQuery) (pageSize : nat) (kw : string) (i : BookmarkId) :
  getAuthedUserId s db = Ok uid →
  (∃ r l1 l2,
      UserBookmarkController.findMany s q db = Ok r
      ∧ UserBookmarkController.recent pageSize s db = Ok l1
      ∧ UserBookmarkController.search s kw db = Ok l2
      ∧ ∀ b, b ∈ list_ r ++ l1 ++ l2 → mkUserBookmark uid (bookmark b) ∈ userBookmarks db)
  ∧ (∀ b, UserBookmarkController.query s i db = Ok b →
          mkUserBookmark uid (bookmark b) ∈ userBookmarks db
          ∧ (i ≠ 0 → id (bookmark b) = i))
  ∧ UserBookmarkController.total_ s db
    = Ok (length (filter (fun b => userId b = uid) (userBookmarks db))).
Proof.
  intros Hauth. split_and!.
  - destruct (user_findMany_selected s q db uid Hauth) as (r & Hr & Hsel).
    unfold UserBookmarkController.recent, UserBookmarkController.search. rewrite Hauth. simpl.
    eexists r, _, _. split_and!; [done|reflexivity|reflexivity|].
    intros b [Hb|[Hb|Hb]%elem_of_app]%elem_of_app.
    + destruct (Hsel b Hb) as (x & -> & Hx & Hf). simpl.
      unfold UserBookmarkController.getFilters, and_filters in Hf. simpl in Hf.
      apply andb_true_iff in Hf as [Hown%bool_decide_eq_true _].
      by rewrite <- Hown, UserBookmark_eta.
    + apply list_elem_of_fmap in Hb as (x & -> & Hx%subseteq_take%elem_of_orderBy).
      apply list_elem_of_filter in Hx as [Hown Hx]. simpl.
      by rewrite <- Hown, UserBookmark_eta.
    + apply list_elem_of_fmap in Hb as (x & -> & Hx%subseteq_take%elem_of_orderBy).
      apply list_elem_of_filter in Hx as [[_ Hown] Hx]. simpl.
      by rewrite <- Hown, UserBookmark_eta.
  - intros b. unfold UserBookmarkController.query. rewrite Hauth. simpl.
    destruct (list_find _ _) as [[k x]|] eqn:Hfind; [|discriminate].
    intros [= <-]. apply list_find_Some in Hfind as (Hx%list_elem_of_lookup_2 & Hl & _).
    simpl. split.
    + rewrite <- (userLimiter_owner uid (Some i) x Hl). by rewrite UserBookmark_eta.
    + intros Hi. by apply (userLimiter_id uid i x Hi) in Hl as [? _].
  - unfold UserBookmarkController.total_. by rewrite Hauth.
Qed.

Lemma others_update_where (uid : UserId) (p : UserBookmark → bool) (f : Bookmark → Bookmark)
    (rows : list UserBookmark) :
  (∀ r, r ∈ rows → p r = true → userId r = uid) →
  filter (fun b => userId b ≠ uid) (update_where p (UserBookmarkController.on_row f) rows)
  = filter (fun b => userId b ≠ uid) rows.
Proof.
  intros Hp. apply filter_update_where. intros r Hin Hr. specialize (Hp r Hin Hr).
  simpl. split; by intros [].
Qed.

Lemma others_sort (uid : UserId) (orders : list (BookmarkId * Z)) (rows : list UserBookmark) :
  filter (fun b => userId b ≠ uid)
    (fold_left (fun rows el =>
                  update_where (userLimiter uid (Some (fst el)))
                    (UserBookmarkController.on_row (fun b => set_sortOrder b (snd el))) rows)
       orders rows)
  = filter (fun b => userId b ≠ uid) rows.
Proof.
  revert rows. induction orders as [|el orders IH]; intros rows; [done|]. simpl.
  rewrite IH. apply others_update_where. intros r _. apply userLimiter_owner.
Qed.

(** In the user space the writing operations change no row of another
    user: [update], [delete], [deleteMany] and [sort] change or remove only
    rows of the requesting user, whatever ids they are given, and [insert]
    (the new id being the id of no stored row) adds a row of that user.  So
    [insert], [delete], [deleteMany], [sort], and [update] with a patch that
    carries no [userId] (or the requesting user's own), leave the bookmarks of
    the other users as they are.  [update] with a patch that carries the
    [userId] of another user does write that owner: every row the patch
    addresses leaves the requesting user and becomes a bookmark of the user
    named in the patch. *)
Theorem user_writes_leave_other_users_bookmarks
    (sch : Store.schedule) (s : option Session) (now : Z) (db : UserDb) (uid : UserId) :
  getAuthedUserId s db = Ok uid →
  (∀ draft r db',
      (∀ b, b ∈ userBookmarks db → id (row b) ≠ userBookmarkSeq db) →
      UserBookmarkController.insert sch s now draft db = Ok (r, db') →
      others uid db' = others uid db ∧ mkUserBookmark uid r ∈ userBookmarks db')
  ∧ (∀ p db', UserBookmarkController.update sch s now p db = Ok db' →
              (∀ i b, userBookmarks db !! i = Some b → userId b ≠ uid →
                      userBookmarks db' !! i = Some b)
              ∧ (upd_userId p = None ∨ upd_userId p = Some uid →
                 others uid db' = others uid db)
              ∧ (∀ u i b, upd_userId p = Some u → userBookmarks db !! i = Some b →
                          userLimiter uid (Some (upd_id p)) b = true →
                          userId <$> userBookmarks db' !! i = Some u))
  ∧ (∀ i removed db', UserBookmarkController.delete s i db = Ok (removed, db') →
              others uid db' = others uid db ∧ ∀ b, b ∈ removed → userId b = uid)
  ∧ (∀ ids n db', UserBookmarkController.deleteMany s ids db = Ok (n, db') →
              others uid db' = others uid db)
  ∧ (∀ orders db', UserBookmarkController.sort s orders db = Ok db' →
              others uid db' = others uid db).
Proof.
  intros Hauth. split_and!.
  - intros draft r db' Hfresh Hins.
    assert (Hdup : ¬ ∃ b, b ∈ userBookmarks db ∧ userId b = uid
                     ∧ (url (row b) = ins_url draft ∨ name (row b) = ins_name draft)).
    { intros Hex%(user_insert_duplicate sch s now draft db uid Hauth). congruence. }
    destruct (user_insert_fresh sch s now draft db uid Hauth) as (r' & db'' & Hrun & _ & _ & Hin).
    { intros b Hb Hu. split; intros ?; apply Hdup; exists b; tauto. }
    rewrite Hins in Hrun. injection Hrun as <- <-. split; [|done].
    unfold UserBookmarkController.insert in Hins. rewrite Hauth in Hins. simpl in Hins.
    destruct (bool_decide _); [discriminate|].
    set (new := mkBookmark _ _ _ _ _ _ _ _ _) in Hins.
    set (db1 := mkUserDb _ _ _ _ _) in Hins.
    destruct (user_fullSet_ok sch s (userBookmarkSeq db) (ins_relatedTagIds draft) db1 uid)
      as (db2 & Hfs & _ & _ & Hrows & _); [by rewrite <- Hauth|].
    rewrite Hfs in Hins. simpl in Hins. unfold others.
    assert (Hothers : filter (fun b => userId b ≠ uid) (userBookmarks db2)
                      = filter (fun b => userId b ≠ uid) (userBookmarks db)).
    { rewrite Hrows. simpl. rewrite filter_app, filter_cons_False by (simpl; by intros []).
      by rewrite app_nil_r. }
    destruct (ins_sortOrder draft); injection Hins as <- <-; simpl; [done|].
    rewrite others_update_where; [done|].
    rewrite Hrows. simpl. intros b [Hb| ->%list_elem_of_singleton]%elem_of_app Heq; [|done].
    apply bool_decide_eq_true in Heq. by destruct (Hfresh b Hb).
  - intros p db'. unfold UserBookmarkController.update.
    destruct (user_fullSet_ok sch s (upd_id p) (upd_relatedTagIds p) db uid Hauth)
      as (db1 & -> & Hu & _ & Hrows & _).
    simpl. unfold others. destruct (has_keys p) eqn:Hk.
    + rewrite (getAuthedUserId_users _ _ _ Hu), Hauth. cbn -[userLimiter].
      intros [= <-]. cbn -[userLimiter]. rewrite Hrows. split_and!.
      * intros i b Hb Hne. rewrite update_where_lookup, Hb. cbn -[userLimiter].
        destruct (userLimiter uid (Some (upd_id p)) b) eqn:Hl; [|done].
        by apply userLimiter_owner in Hl.
      * intros Hown. apply filter_update_where. intros r _ Hr%userLimiter_owner. simpl.
        destruct Hown as [-> | ->]; simpl; split; by intros [].
      * intros u i b Hpu Hb Hl. rewrite update_where_lookup, Hb. cbn -[userLimiter].
        destruct (userLimiter uid (Some (upd_id p)) b) eqn:Hl'; [by rewrite Hpu|].
        exfalso. exact (eq_true_false_abs _ Hl Hl').
    + intros [= <-]. rewrite Hrows. split_and!; [done|done|].
      intros u i b Hpu. unfold has_keys in Hk. rewrite Hpu in Hk. simpl in Hk.
      by rewrite !orb_true_r in Hk.
  - intros i removed db'. unfold UserBookmarkController.delete. rewrite Hauth. simpl.
    intros [= <- <-]. split.
    + unfold others. simpl. apply filter_delete_where.
      intros r Hr Hne. by apply (userLimiter_owner uid (Some i)) in Hr.
    + intros b [Hb _]%list_elem_of_filter. by apply (userLimiter_owner uid (Some i)) in Hb.
  - intros ids n db'. unfold UserBookmarkController.deleteMany.
    destruct ids as [|i ids]; [by intros [= <- <-]|].
    rewrite Hauth. simpl. intros [= <- <-]. unfold others. simpl.
    apply filter_delete_where. intros r [Hr _]%andb_true_iff Hne.
    by apply bool_decide_eq_true in Hr.
  - intros orders db'. unfold UserBookmarkController.sort. rewrite Hauth. simpl.
    intros [= <-]. unfold others. simpl. apply others_sort.
Qed.
End Isolation.

Lemma user_reads_only_own_bookmarks_witness :
  UserBookmarkController.total_ Fixtures.alice Fixtures.user_db = Ok 1%nat.
Proof.
  exact (proj2 (proj2 (user_reads_only_own_bookmarks (H:=Fixtures.env) Fixtures.alice
                         Fixtures.user_db "alice" (mkQuery "" [] [] 1 20 Manual) 20 "" 10
                         eq_refl))).
Defined.

Lemma user_writes_leave_other_users_bookmarks_witness :
  ∃ removed db',
    UserBookmarkController.delete Fixtures.alice 10 Fixtures.user_db = Ok (removed, db')
    ∧ others "alice" db' = others "alice" Fixtures.user_db
    ∧ ∀ b, b ∈ removed → userId b = "alice"%string.
Proof.
  eexists _, _. split; [reflexivity|].
  destruct (user_writes_leave_other_users_bookmarks (H:=Fixtures.env) Store.FirstThenSecond
              Fixtures.alice 0 Fixtures.user_db "alice" eq_refl) as (_ & _ & Hdelete & _).
  apply (Hdelete 10). reflexivity.
Defined.

Section Unauthenticated.
Context `{Env}.

(** Without a usable session ([getAuthedUserId] fails) every operation of
    the user space that reaches the store fails with the same error, before
    anything is read or written.  Three calls return before the session is
    looked at and succeed without changing anything: [deleteMany] of an empty
    list, the tag association with no tag ids, and [update] with neither
    columns nor tag ids. *)
Theorem user_operations_need_a_session
    (sch : Store.schedule) (s : option Session) (db : UserDb) (e : Error) (now : Z) :
  getAuthedUserId s db = Err e →
  (∀ draft, UserBookmarkController.insert sch s now draft db = Err e)
  ∧ (∀ i, UserBookmarkController.query s i db = Err e)
  ∧ (∀ i, UserBookmarkController.delete s i db = Err e)
  ∧ (∀ orders, UserBookmarkController.sort s orders db = Err e)
  ∧ (∀ q, UserBookmarkController.findMany s q db = Err e)
  ∧ (∀ clock, UserBookmarkController.exportHtml s clock db = Err e)
  ∧ UserBookmarkController.total_ s db = Err e
  ∧ (∀ n, UserBookmarkController.recent n s db = Err e)
  ∧ (∀ kw, UserBookmarkController.search s kw db = Err e)
  ∧ (∀ i ids, UserBookmarkController.deleteMany s (i :: ids) db = Err e)
  ∧ UserBookmarkController.deleteMany s [] db = Ok (0%nat, db)
  ∧ (∀ b t ts, UserTags.fullSetBookmarkToTag sch s b (Some (t :: ts)) db = Err e)
  ∧ (∀ p, has_keys p = true ∨ (∃ t ts, upd_relatedTagIds p = Some (t :: ts)) →
          UserBookmarkController.update sch s now p db = Err e)
  ∧ (∀ p, has_keys p = false → upd_relatedTagIds p = None ∨ upd_relatedTagIds p = Some [] →
          UserBookmarkController.update sch s now p db = Ok db).
Proof.
  intros Hauth.
  assert (Hfs : ∀ b t ts, UserTags.fullSetBookmarkToTag sch s b (Some (t :: ts)) db = Err e).
  { intros b t ts. unfold UserTags.fullSetBookmarkToTag. by rewrite Hauth. }
  split_and!; try (intros; unfold UserBookmarkController.insert, UserBookmarkController.query,
    UserBookmarkController.delete, UserBookmarkController.sort, UserBookmarkController.findMany,
    UserBookmarkController.exportHtml, UserBookmarkController.total_,
    UserBookmarkController.recent, UserBookmarkController.search,
    UserBookmarkController.deleteMany; by rewrite ?Hauth).
  - intros p Hp. unfold UserBookmarkController.update.
    destruct (upd_relatedTagIds p) as [[|t ts]|] eqn:Htags.
    + simpl. destruct Hp as [->|(t & ts & [=])]. by rewrite Hauth.
    + by rewrite Hfs.
    + simpl. destruct Hp as [->|(t & ts & [=])]. by rewrite Hauth.
  - intros p Hk Htags. unfold UserBookmarkController.update.
    destruct Htags as [->| ->]; simpl; by rewrite Hk.
Qed.
End Unauthenticated.

Lemma user_operations_need_a_session_witness :
  UserBookmarkController.total_ None Fixtures.user_db = Err AuthCallFailed.
Proof.
  apply (user_operations_need_a_session (H:=Fixtures.env) Store.FirstThenSecond None
           Fixtures.user_db AuthCallFailed 0 eq_refl).
Defined.

Section Retag.
Context `{Env}.

(** In the user space [update] reconciles the tag associations of the
    bookmark id it is given without looking at the owner of that bookmark:
    for a non-empty [relatedTagIds] the bookmark ends up associated with
    exactly the requesting user's tags among them, whoever owns it, while
    every row of another user in the bookmark table stays as it is, whatever
    columns the patch carries. *)
Theorem user_update_reconciles_tags_of_any_bookmark
    (sch : Store.schedule) (s : option Session) (now : Z) (p : UpdateBookmark)
    (db : UserDb) (uid : UserId) (t : TagId) (ts : list TagId) :
  getAuthedUserId s db = Ok uid →
  upd_relatedTagIds p = Some (t :: ts) →
  ∃ db', UserBookmarkController.update sch s now p db = Ok db'
         ∧ assoc (userBookmarkToTag db') (upd_id p)
           = list_to_set (filterUserTagIds uid (t :: ts) db)
         ∧ ∀ i b, userBookmarks db !! i = Some b → userId b ≠ uid →
                  userBookmarks db' !! i = Some b.
Proof.
  intros Hauth Htags. unfold UserBookmarkController.update. rewrite Htags.
  rewrite (user_fullSet_eq sch s (upd_id p) t ts db uid Hauth). simpl.
  destruct (has_keys p).
  - rewrite (getAuthedUserId_users s db (UserTags.set_userBookmarkToTag db _)), Hauth by done.
    cbn -[userLimiter]. eexists. split; [reflexivity|]. cbn -[userLimiter].
    split; [apply assoc_reconcile|].
    intros i b Hb Hne. rewrite update_where_lookup, Hb. cbn -[userLimiter].
    destruct (userLimiter uid (Some (upd_id p)) b) eqn:Hl; [|done].
    by apply userLimiter_owner in Hl.
  - eexists. split; [reflexivity|]. simpl. split; [apply assoc_reconcile | done].
Qed.
End Retag.

Lemma user_update_reconciles_tags_of_any_bookmark_witness :
  ∃ db', UserBookmarkController.update (H:=Fixtures.env) Store.FirstThenSecond bob 0
           (mkUpdate 10 (Some [3]) (Some "mine"%string) None None None None None None None
              (Some "bob"%string) 0)
           Fixtures.user_db
         = Ok db'
         ∧ assoc (userBookmarkToTag db') 10
           = list_to_set (filterUserTagIds "bob" [3] Fixtures.user_db)
         ∧ userBookmarks db' !! 0%nat = userBookmarks Fixtures.user_db !! 0%nat.
Proof.
  destruct (user_update_reconciles_tags_of_any_bookmark (H:=Fixtures.env)
              Store.FirstThenSecond bob 0
              (mkUpdate 10 (Some [3]) (Some "mine"%string) None None None None None None None
                 (Some "bob"%string) 0)
              Fixtures.user_db "bob" 3 [] eq_refl eq_refl)
    as (db' & Hrun & Htags & Hrows).
  exists db'. split; [exact Hrun|]. split; [exact Htags|].
  apply (Hrows 0%nat); [reflexivity|discriminate].
Defined.

(** ** [delete] and [deleteMany] *)

Lemma list_find_None_filter {R : Type} (P Q : R → Prop) `{∀ x, Decision (P x)}
    `{∀ x, Decision (Q x)} (l : list R) :
  (∀ x, x ∈ l → P x → ¬ Q x) → list_find P (filter Q l) = None.
Proof.
  intros Hex. apply list_find_None, Forall_forall.
  intros x [Hq Hx]%list_elem_of_filter Hp. by apply (Hex x).
Qed.

(** Filtering with a condition the searched rows satisfy does not change
    which row a search finds. *)
Lemma list_find_filter_snd {R : Type} (P Q : R → Prop) `{∀ x, Decision (P x)}
    `{∀ x, Decision (Q x)} (l : list R) :
  (∀ x, P x → Q x) → snd <$> list_find P (filter Q l) = snd <$> list_find P l.
Proof.
  intros HPQ. induction l as [|x l IH]; [done|].
  rewrite filter_cons. destruct (decide (Q x)) as [Hq|Hq].
  - simpl. destruct (decide (P x)); [done|].
    destruct (list_find P (filter Q l)) as [[? ?]|], (list_find P l) as [[? ?]|];
      simpl in *; congruence.
  - simpl. rewrite decide_False by (intros Hp; by apply Hq, HPQ).
    rewrite IH. by destruct (list_find P l) as [[? ?]|].
Qed.

Lemma delete_where_delete_where {R : Type} (p1 p2 : R → bool) (l : list R) :
  Store.delete_where p2 (Store.delete_where p1 l)
  = Store.delete_where (fun r => p1 r || p2 r) l.
Proof.
  unfold Store.delete_where. rewrite list_filter_filter. apply list_filter_iff.
  intros r. rewrite orb_false_iff. tauto.
Qed.

Lemma delete_where_ext {R : Type} (p1 p2 : R → bool) (l : list R) :
  (∀ r, r ∈ l → p1 r = p2 r) → Store.delete_where p1 l = Store.delete_where p2 l.
Proof.
  intros Hext. unfold Store.delete_where. induction l as [|r l IH]; [done|].
  rewrite !filter_cons, IH by (intros x Hx; apply Hext; by right).
  rewrite (Hext r) by left. done.
Qed.

Section PublicDelete.
Context `{Env}.

(** In the public space [delete] returns the rows that had the given id
    and keeps exactly the others, in their order; afterwards [query] of that
    id fails with the not-found error, [query] of any other id answers as
    before, and deleting the same id again removes nothing. *)
Theorem public_delete_then_query (i : BookmarkId) (db : PublicDb) :
  fst (PublicBookmarkController.delete i db) = filter (fun b => id b = i) (publicBookmarks db)
  ∧ publicBookmarks (snd (PublicBookmarkController.delete i db))
    = filter (fun b => id b ≠ i) (publicBookmarks db)
  ∧ PublicBookmarkController.query i (snd (PublicBookmarkController.delete i db))
    = Err BookmarkNotFound
  ∧ (∀ j, j ≠ i → PublicBookmarkController.query j (snd (PublicBookmarkController.delete i db))
                  = PublicBookmarkController.query j db)
  ∧ PublicBookmarkController.delete i (snd (PublicBookmarkController.delete i db))
    = ([], snd (PublicBookmarkController.delete i db)).
Proof.
  assert (Hrows : publicBookmarks (snd (PublicBookmarkController.delete i db))
                  = filter (fun b => id b ≠ i) (publicBookmarks db)).
  { unfold PublicBookmarkController.delete, Store.delete_where. simpl.
    apply list_filter_iff. intros b. by rewrite bool_decide_eq_false. }
  split_and!.
  - unfold PublicBookmarkController.delete. simpl.
    apply list_filter_iff. intros b. by rewrite bool_decide_eq_true.
  - done.
  - unfold PublicBookmarkController.query. rewrite Hrows.
    rewrite list_find_None_filter; [done|]. intros b _ Hb Hne. done.
  - intros j Hj. unfold PublicBookmarkController.query. rewrite Hrows.
    assert (Hfind : snd <$> list_find (fun b => id b = j)
                              (filter (fun b => id b ≠ i) (publicBookmarks db))
                    = snd <$> list_find (fun b => id b = j) (publicBookmarks db)).
    { apply list_find_filter_snd. intros b. congruence. }
    destruct (list_find _ (filter _ _)) as [[k1 x1]|],
      (list_find _ (publicBookmarks db)) as [[k2 x2]|]; simpl in Hfind; try discriminate.
    + by injection Hfind as ->.
    + done.
  - unfold PublicBookmarkController.delete at 1. rewrite Hrows. f_equal.
    + destruct (filter _ (filter _ _)) as [|b l] eqn:Hf; [done|].
      assert (Hb : b ∈ filter (fun b0 => bool_decide (id b0 = i) = true)
                     (filter (fun b => id b ≠ i) (publicBookmarks db))) by (rewrite Hf; left).
      apply list_elem_of_filter in Hb as [Hb%bool_decide_eq_true [Hne _]%list_elem_of_filter].
      done.
    + destruct (PublicBookmarkController.delete i db) as [removed db'] eqn:Hdel.
      simpl in *. destruct db' as [tags rows join seq]. simpl in *. subst rows.
      unfold PublicBookmarkController.set_bookmarks. simpl. f_equal.
      apply delete_where_none. intros b [Hne _]%list_elem_of_filter.
      by apply bool_decide_eq_false.
Qed.
End PublicDelete.

Section UserDelete.
Context `{Env}.

(** In the user space [delete] of a non-zero id removes and returns the
    rows with that id owned by the requesting user, and [query] of the id then
    fails with the not-found error.  For the id 0 the condition built by
    [userLimiter] keeps only its owner test: every bookmark of the requesting
    user is removed. *)
Theorem user_delete_then_query
    (s : option Session) (i : BookmarkId) (db : UserDb) (uid : UserId) :
  getAuthedUserId s db = Ok uid →
  ∃ removed db',
    UserBookmarkController.delete s i db = Ok (removed, db')
    ∧ (i ≠ 0 →
       removed = filter (fun b => id (row b) = i ∧ userId b = uid) (userBookmarks db)
       ∧ userBookmarks db'
         = filter (fun b => ¬ (id (row b) = i ∧ userId b = uid)) (userBookmarks db)
       ∧ UserBookmarkController.query s i db' = Err BookmarkNotFound)
    ∧ (i = 0 →
       removed = filter (fun b => userId b = uid) (userBookmarks db)
       ∧ userBookmarks db' = filter (fun b => userId b ≠ uid) (userBookmarks db)).
Proof.
  intros Hauth. unfold UserBookmarkController.delete. rewrite Hauth.
  eexists _, _. split; [reflexivity|]. split.
  - intros Hi.
    assert (Hrows : Store.delete_where (userLimiter uid (Some i)) (userBookmarks db)
              = filter (fun b => ¬ (id (row b) = i ∧ userId b = uid)) (userBookmarks db)).
    { unfold Store.delete_where. apply list_filter_iff. intros b.
      split.
      - intros Hf Hcond. apply (proj2 (userLimiter_id uid i b Hi)) in Hcond.
        exact (eq_true_false_abs _ Hcond Hf).
      - intros Hn. apply not_true_is_false. intros Hl. apply Hn.
        by apply (proj1 (userLimiter_id uid i b Hi)). }
    split_and!.
    + apply list_filter_iff. intros b. by apply userLimiter_id.
    + done.
    + unfold UserBookmarkController.query.
      rewrite (getAuthedUserId_users s db (UserBookmarkController.set_bookmarks db _)), Hauth
        by done.
      cbn -[userLimiter]. rewrite Hrows, list_find_None_filter; [done|].
      intros b _ Hb%(userLimiter_id uid i b Hi) Hnot. done.
  - intros ->. split.
    + apply list_filter_iff. intros b. simpl. by rewrite bool_decide_eq_true.
    + simpl. unfold Store.delete_where. apply list_filter_iff. intros b.
      change (userLimiter uid (Some 0) b) with (bool_decide (userId b = uid)).
      by rewrite bool_decide_eq_false.
Qed.
End UserDelete.

Lemma user_delete_then_query_witness :
  ∃ removed db',
    UserBookmarkController.delete Fixtures.alice 0 Fixtures.user_db = Ok (removed, db')
    ∧ userBookmarks db' = [].
Proof.
  destruct (user_delete_then_query Fixtures.alice 0 Fixtures.user_db "alice" eq_refl)
    as (removed & db' & Hrun & _ & Hzero).
  exists removed, db'. split; [exact Hrun|].
  destruct (Hzero eq_refl) as [_ ->]. reflexivity.
Defined.

Section DeleteMany.
Context `{Env}.

Lemma PublicDb_eta (db : PublicDb) :
  PublicBookmarkController.set_bookmarks db (publicBookmarks db) = db.
Proof. by destruct db. Qed.

Lemma filter_all {R : Type} (P : R → Prop) `{∀ x, Decision (P x)} (l : list R) :
  (∀ x, x ∈ l → P x) → filter P l = l.
Proof.
  induction l as [|x l IH]; intros Hall; [done|].
  rewrite filter_cons_True by (apply Hall; left).
  f_equal. apply IH. intros y Hy. apply Hall. by right.
Qed.

Lemma public_deleteMany_rows (ids : list BookmarkId) (db : PublicDb) :
  snd (PublicBookmarkController.deleteMany ids db)
  = PublicBookmarkController.set_bookmarks db
      (filter (fun b => id b ∉ ids) (publicBookmarks db)).
Proof.
  destruct ids as [|i ids].
  - simpl. rewrite filter_all; [by rewrite PublicDb_eta|]. intros b _. apply not_elem_of_nil.
  - simpl. f_equal. unfold Store.delete_where, Store.inArray. apply list_filter_iff.
    intros b. by rewrite bool_decide_eq_false.
Qed.

(** In the public space [deleteMany] keeps exactly the bookmarks whose id
    is not in the list, in their order; it leaves the store as deleting the
    listed ids one by one with [delete] does; and a second call with the same
    list removes nothing more. *)
Theorem public_deleteMany_removes_listed_ids (ids : list BookmarkId) (db : PublicDb) :
  publicBookmarks (snd (PublicBookmarkController.deleteMany ids db))
  = filter (fun b => id b ∉ ids) (publicBookmarks db)
  ∧ snd (PublicBookmarkController.deleteMany ids db)
    = fold_left (fun d i => snd (PublicBookmarkController.delete i d)) ids db
  ∧ snd (PublicBookmarkController.deleteMany ids
           (snd (PublicBookmarkController.deleteMany ids db)))
    = snd (PublicBookmarkController.deleteMany ids db).
Proof.
  split_and!.
  - by rewrite public_deleteMany_rows.
  - rewrite public_deleteMany_rows. revert db.
    induction ids as [|i ids IH]; intros db; simpl.
    + rewrite filter_all; [by rewrite PublicDb_eta|]. intros b _. apply not_elem_of_nil.
    + rewrite <- IH. unfold PublicBookmarkController.delete, PublicBookmarkController.set_bookmarks.
      simpl. f_equal. unfold Store.delete_where. rewrite list_filter_filter.
      apply list_filter_iff. intros b. rewrite not_elem_of_cons, bool_decide_eq_false. tauto.
  - rewrite !public_deleteMany_rows. unfold PublicBookmarkController.set_bookmarks. simpl.
    f_equal. rewrite list_filter_filter. apply list_filter_iff. tauto.
Qed.

(** In the user space [deleteMany] of a non-empty list reports the length
    of the list and keeps exactly the rows that are not a bookmark of the
    requesting user with a listed id, in their order.  Unlike [delete], the
    id 0 in the list removes only the user's bookmark 0. *)
Theorem user_deleteMany_removes_own_listed_ids
    (s : option Session) (ids : list BookmarkId) (db : UserDb) (uid : UserId) :
  getAuthedUserId s db = Ok uid →
  ids ≠ [] →
  ∃ db', UserBookmarkController.deleteMany s ids db = Ok (length ids, db')
         ∧ userBookmarks db'
           = filter (fun b => ¬ (userId b = uid ∧ id (row b) ∈ ids)) (userBookmarks db).
Proof.
  intros Hauth Hne. destruct ids as [|i ids]; [done|].
  unfold UserBookmarkController.deleteMany. rewrite Hauth.
  eexists. split; [reflexivity|]. simpl. unfold Store.delete_where, Store.inArray.
  apply list_filter_iff. intros b.
  rewrite andb_false_iff, !bool_decide_eq_false. split; [tauto|].
  intros Hn. destruct (decide (userId b = uid)); [right|left]; tauto.
Qed.
End DeleteMany.

Lemma user_deleteMany_removes_own_listed_ids_witness :
  ∃ db',
    UserBookmarkController.deleteMany Fixtures.alice [10] Fixtures.user_db = Ok (1%nat, db')
    ∧ userBookmarks db' = [].
Proof.
  destruct (user_deleteMany_removes_own_listed_ids Fixtures.alice [10] Fixtures.user_db
              "alice" eq_refl ltac:(discriminate))
    as (db' & Hrun & Hrows).
  exists db'. split; [exact Hrun|]. rewrite Hrows. reflexivity.
Defined.

(** ** [insert] followed by [query] *)

Lemma update_where_none {R : Type} (p : R → bool) (f : R → R) (l : list R) :
  (∀ r, r ∈ l → p r = false) → update_where p f l = l.
Proof.
  unfold update_where. induction l as [|x l IH]; intros Hall; [done|].
  simpl. rewrite (Hall x) by left. f_equal. apply IH. intros r Hr. apply Hall. by right.
Qed.

Lemma update_where_app {R : Type} (p : R → bool) (f : R → R) (l1 l2 : list R) :
  update_where p f (l1 ++ l2) = update_where p f l1 ++ update_where p f l2.
Proof. unfold update_where. apply map_app. Qed.



Section InsertQuery.
Context `{Env}.


End InsertQuery.



(** ** [update]: the rows it touches *)



Section UpdateFrame.
Context `{Env}.

Lemma patched_set_columns now p py b :
  patched now p (from_option Some (pinyin b) py) b
    (set_columns b (upd_name p) (upd_url p) py (upd_icon p) (upd_isPinned p)
       (upd_sortOrder p) (upd_createdAt p) (Some now)).
Proof.
  unfold patched. simpl.
  destruct py, (upd_icon p), (upd_sortOrder p), (upd_createdAt p); done.
Qed.


Lemma user_patched now p b :
  patched now p (user_pinyin_after p b) b
    (set_columns b (upd_name p) (upd_url p)
       (if truthy (upd_name p) && negb (truthy (upd_pinyin p))
        then Some (getPinyin (default EmptyString (upd_name p)))
        else upd_pinyin p)
       (upd_icon p) (upd_isPinned p) (upd_sortOrder p) (upd_createdAt p) (Some now)).
Proof.
  pose proof (patched_set_columns now p
                (if truthy (upd_name p) && negb (truthy (upd_pinyin p))
                 then Some (getPinyin (default EmptyString (upd_name p)))
                 else upd_pinyin p) b) as Hp.
  unfold user_pinyin_after. by destruct (truthy (upd_name p) && negb (truthy (upd_pinyin p))).
Qed.



(** The id 0 is read by [userLimiter] as no id at all.  Under a valid
    session, [update] with the id 0 and at least one further key patches
    every bookmark of the requesting user (and hands it to the user the patch
    names, if it names one), and [sort] with an entry for the id 0 gives that
    entry's order to every bookmark of the requesting user. *)
Theorem user_zero_id_addresses_every_own_bookmark
    (sch : Store.schedule) (s : option Session) (now : Z) (p : UpdateBookmark) (o : Z)
    (db : UserDb) (uid : UserId) :
  getAuthedUserId s db = Ok uid →
  upd_id p = 0 →
  has_keys p = true →
  (∃ db',
      UserBookmarkController.update sch s now p db = Ok db'
      ∧ ∀ i b, userBookmarks db !! i = Some b → userId b = uid →
               ∃ b', userBookmarks db' !! i
                     = Some (mkUserBookmark (default uid (upd_userId p)) b')
                     ∧ patched now p (user_pinyin_after p (row b)) (row b) b')
  ∧ (∃ db',
      UserBookmarkController.sort s [(0, o)] db = Ok db'
      ∧ ∀ i b, userBookmarks db !! i = Some b → userId b = uid →
               userBookmarks db' !! i
               = Some (mkUserBookmark uid (set_sortOrder (row b) o))).
Proof.
  intros Hauth Hid Hk. split.
  - unfold UserBookmarkController.update.
    destruct (user_fullSet_ok sch s (upd_id p) (upd_relatedTagIds p) db uid Hauth)
      as (d & -> & Husers & _ & Hrows & _).
    simpl. rewrite Hk, (getAuthedUserId_users s db d Husers), Hauth. cbn -[userLimiter].
    eexists. split; [reflexivity|]. cbn -[userLimiter]. rewrite Hrows, Hid.
    intros i b Hb Hu. rewrite update_where_lookup, Hb. simpl.
    rewrite bool_decide_true by done. eexists.
    split; [by rewrite Hu|]. apply user_patched.
  - unfold UserBookmarkController.sort. rewrite Hauth. simpl.
    eexists. split; [reflexivity|]. simpl.
    intros i b Hb Hu. rewrite update_where_lookup, Hb. simpl.
    rewrite bool_decide_true by done. unfold UserBookmarkController.on_row. by rewrite Hu.
Qed.
End UpdateFrame.



Lemma user_zero_id_addresses_every_own_bookmark_witness :
  (∃ db' b',
      UserBookmarkController.update (H:=Fixtures.env) Store.FirstThenSecond Fixtures.alice
        1700000000500 (mkUpdate 0 None None None None None None None None None None 1)
        Fixtures.user_db = Ok db'
      ∧ userBookmarks db' !! 0%nat = Some (mkUserBookmark "alice" b')
      ∧ id b' = 10 ∧ updatedAt b' = Some 1700000000500)
  ∧ (∃ db',
      UserBookmarkController.sort Fixtures.alice [(0, 5)] Fixtures.user_db = Ok db'
      ∧ sortOrder ∘ row <$> userBookmarks db' !! 0%nat = Some (Some 5)).
Proof.
  destruct (user_zero_id_addresses_every_own_bookmark (H:=Fixtures.env)
              Store.FirstThenSecond Fixtures.alice 1700000000500
              (mkUpdate 0 None None None None None None None None None None 1) 5
              Fixtures.user_db "alice" eq_refl eq_refl eq_refl)
    as [(db1 & Hrun1 & Hall1) (db2 & Hrun2 & Hall2)].
  split.
  - destruct (Hall1 0%nat _ eq_refl eq_refl) as (b' & Hb' & Hp).
    destruct Hp as (Hid & Hupdated & _).
    exists db1, b'. split; [exact Hrun1|]. split; [exact Hb'|].
    split; [exact Hid|exact Hupdated].
  - exists db2. split; [exact Hrun2|]. by rewrite (Hall2 0%nat _ eq_refl eq_refl).
Defined.

(** ** [sort]: the orders it writes *)

(** The updates of [sort], one per entry, on a table whose rows have the
    key [k] and are addressed by [p]: with distinct keys among the entries
    the outcome is a single pass over the rows. *)
Lemma fold_update_where {R : Type} (k : R → Z) (own : R → bool) (p : Z → R → bool)
    (f : Z → R → R) (orders : list (Z * Z)) (rows : list R) :
  (∀ i r, i ∈ orders.*1 → p i r = own r && bool_decide (k r = i)) →
  (∀ o r, k (f o r) = k r) →
  (∀ o r, own (f o r) = own r) →
  NoDup orders.*1 →
  fold_left (fun rows el => update_where (p (fst el)) (f (snd el)) rows) orders rows
  = map (fun r => match (list_to_map orders : gmap Z Z) !! k r with
                  | Some o => if own r then f o r else r
                  | None => r
                  end) rows.
Proof.
  intros Hp Hk Hown. revert rows.
  induction orders as [|[i o] orders IH]; intros rows Hnd.
  - simpl. symmetry. rewrite <- (map_id rows) at 2. apply map_ext. intros r.
    by rewrite lookup_empty.
  - apply NoDup_cons in Hnd as [Hi Hnd]. simpl.
    rewrite IH; [|intros; apply Hp; by right|done].
    unfold update_where. rewrite map_map. apply map_ext. intros r.
    rewrite (Hp i r) by left. rewrite lookup_insert.
    destruct (own r) eqn:Ho; simpl.
    + case_bool_decide as Hkr.
      * subst i. rewrite decide_True by done. rewrite Hk, Hown, Ho.
        by rewrite (not_elem_of_list_to_map_1 _ _ Hi).
      * rewrite decide_False by done. by rewrite Ho.
    + rewrite Ho. destruct (decide (i = k r)) as [->|]; [|done].
      by rewrite (not_elem_of_list_to_map_1 _ _ Hi).
Qed.

Lemma fst_imap {A B C : Type} (g : A → B) (h : nat → A → C) (l : list A) :
  (imap (fun i a => (g a, h i a)) l).*1 = map g l.
Proof.
  revert h. induction l as [|a l IH]; intros h; [done|].
  simpl. f_equal. apply IH.
Qed.

Lemma public_sort_rows (orders : list (BookmarkId * Z)) (db : PublicDb) :
  NoDup orders.*1 →
  publicBookmarks (PublicBookmarkController.sort orders db)
  = map (fun b => match (list_to_map orders : gmap Z Z) !! id b with
                  | Some o => set_sortOrder b o
                  | None => b
                  end) (publicBookmarks db).
Proof.
  intros Hnd. unfold PublicBookmarkController.sort. simpl.
  pose proof (fold_update_where id (fun _ => true) (fun i b => bool_decide (id b = i))
                (fun o b => set_sortOrder b o) orders (publicBookmarks db)) as Hfold.
  apply Hfold; done.
Qed.

Lemma user_sort_rows (uid : UserId) (orders : list (BookmarkId * Z)) (rows : list UserBookmark) :
  NoDup orders.*1 → 0 ∉ orders.*1 →
  fold_left (fun rows el =>
               update_where (userLimiter uid (Some (fst el)))
                 (UserBookmarkController.on_row (fun b => set_sortOrder b (snd el))) rows)
    orders rows
  = map (fun b => match (list_to_map orders : gmap Z Z) !! id (row b) with
                  | Some o => if bool_decide (userId b = uid)
                              then UserBookmarkController.on_row (fun r => set_sortOrder r o) b
                              else b
                  | None => b
                  end) rows.
Proof.
  intros Hnd H0.
  apply (fold_update_where (fun b => id (row b)) (fun b => bool_decide (userId b = uid))
           (fun i => userLimiter uid (Some i))
           (fun o => UserBookmarkController.on_row (fun r => set_sortOrder r o)));
    [|done|done|done].
  intros i r Hi. assert (i ≠ 0) by (by intros ->).
  unfold userLimiter. destruct i; [done| |]; apply andb_comm.
Qed.

(** In the public space, for entries with pairwise distinct ids, [sort]
    keeps the number and the order of the rows; a row whose id has an entry
    gets that entry's order as its [sortOrder] and keeps every other column
    (its [updatedAt] too); a row whose id has no entry stays as it is; and the
    outcome does not depend on the order in which the updates are run. *)
Theorem public_sort_sets_listed_orders (orders : list (BookmarkId * Z)) (db : PublicDb) :
  NoDup orders.*1 →
  length (publicBookmarks (PublicBookmarkController.sort orders db))
  = length (publicBookmarks db)
  ∧ (∀ i b o, publicBookmarks db !! i = Some b → (id b, o) ∈ orders →
              publicBookmarks (PublicBookmarkController.sort orders db) !! i
              = Some (set_sortOrder b o))
  ∧ (∀ i b, publicBookmarks db !! i = Some b → id b ∉ orders.*1 →
            publicBookmarks (PublicBookmarkController.sort orders db) !! i = Some b)
  ∧ (∀ orders', orders' ≡ₚ orders →
                PublicBookmarkController.sort orders' db
                = PublicBookmarkController.sort orders db).
Proof.
  intros Hnd. rewrite public_sort_rows by done. split_and!.
  - apply length_map.
  - intros i b o Hb Ho. rewrite list_lookup_fmap, Hb. simpl.
    by rewrite (elem_of_list_to_map_1 _ _ _ Hnd Ho).
  - intros i b Hb Hno. rewrite list_lookup_fmap, Hb. simpl.
    by rewrite (not_elem_of_list_to_map_1 _ _ Hno).
  - intros orders' Hperm.
    assert (Hnd' : NoDup orders'.*1) by by rewrite Hperm.
    assert (Hrows : publicBookmarks (PublicBookmarkController.sort orders' db)
                    = publicBookmarks (PublicBookmarkController.sort orders db)).
    { rewrite !public_sort_rows by done.
      by rewrite (list_to_map_proper (M:=gmap Z) orders' orders Hnd' Hperm). }
    unfold PublicBookmarkController.sort, PublicBookmarkController.set_bookmarks in *.
    simpl in Hrows. by rewrite Hrows.
Qed.

(** In the user space, under a valid session and for entries with pairwise
    distinct non-zero ids, a row of the requesting user whose id has an entry
    gets that entry's order and keeps every other column; every other row
    stays as it is; and the outcome does not depend on the order in which the
    updates are run. *)
Theorem user_sort_sets_listed_orders
    (s : option Session) (orders : list (BookmarkId * Z)) (db : UserDb) (uid : UserId) :
  getAuthedUserId s db = Ok uid →
  NoDup orders.*1 →
  0 ∉ orders.*1 →
  ∃ db',
    UserBookmarkController.sort s orders db = Ok db'
    ∧ length (userBookmarks db') = length (userBookmarks db)
    ∧ (∀ i b o, userBookmarks db !! i = Some b → userId b = uid → (id (row b), o) ∈ orders →
                userBookmarks db' !! i = Some (mkUserBookmark uid (set_sortOrder (row b) o)))
    ∧ (∀ i b, userBookmarks db !! i = Some b → userId b ≠ uid ∨ id (row b) ∉ orders.*1 →
              userBookmarks db' !! i = Some b)
    ∧ (∀ orders', orders' ≡ₚ orders →
                  UserBookmarkController.sort s orders' db = Ok db').
Proof.
  intros Hauth Hnd H0. unfold UserBookmarkController.sort. rewrite Hauth. simpl.
  eexists. split; [reflexivity|]. simpl. rewrite user_sort_rows by done. split_and!.
  - apply length_map.
  - intros i b o Hb Hu Ho. rewrite list_lookup_fmap, Hb. simpl.
    rewrite (elem_of_list_to_map_1 _ _ _ Hnd Ho), bool_decide_true by done.
    unfold UserBookmarkController.on_row. by rewrite Hu.
  - intros i b Hb Hcase. rewrite list_lookup_fmap, Hb. simpl.
    destruct Hcase as [Hu|Hno].
    + rewrite bool_decide_false by done. by destruct (list_to_map orders !! id (row b)).
    + by rewrite (not_elem_of_list_to_map_1 _ _ Hno).
  - intros orders' Hperm.
    assert (Hnd' : NoDup orders'.*1) by by rewrite Hperm.
    assert (H0' : 0 ∉ orders'.*1) by by rewrite Hperm.
    rewrite user_sort_rows by done.
    by rewrite (list_to_map_proper (M:=gmap Z) orders' orders Hnd' Hperm).
Qed.

Lemma public_sort_sets_listed_orders_witness :
  publicBookmarks (PublicBookmarkController.sort [(10, 3); (4, 8)] Fixtures.public_db) !! 0%nat
  = (fun b => set_sortOrder b 3) <$> publicBookmarks Fixtures.public_db !! 0%nat.
Proof.
  assert (Hnd : NoDup [(10, 3); (4, 8)].*1).
  { apply NoDup_cons. split; [|apply NoDup_singleton].
    intros Hin%list_elem_of_singleton. discriminate. }
  destruct (public_sort_sets_listed_orders [(10, 3); (4, 8)] Fixtures.public_db Hnd)
    as (_ & Hset & _).
  rewrite (Hset 0%nat _ 3 eq_refl); [reflexivity|]. left.
Defined.

Lemma user_sort_sets_listed_orders_witness :
  ∃ db',
    UserBookmarkController.sort Fixtures.alice [(10, 3); (4, 8)] Fixtures.user_db = Ok db'
    ∧ sortOrder ∘ row <$> userBookmarks db' !! 0%nat = Some (Some 3).
Proof.
  assert (Hnd : NoDup [(10, 3); (4, 8)].*1).
  { apply NoDup_cons. split; [|apply NoDup_singleton].
    intros Hin%list_elem_of_singleton. discriminate. }
  assert (H0 : 0 ∉ [(10, 3); (4, 8)].*1).
  { intros [Hin|[Hin|[]%elem_of_nil]%elem_of_cons]%elem_of_cons; discriminate. }
  destruct (user_sort_sets_listed_orders Fixtures.alice [(10, 3); (4, 8)] Fixtures.user_db
              "alice" eq_refl Hnd H0)
    as (db' & Hrun & _ & Hset & _).
  exists db'. split; [exact Hrun|].
  rewrite (Hset 0%nat _ 3 eq_refl eq_refl); [reflexivity|]. left.
Defined.

(** ** Saving a manual order and loading the list again *)

Lemma manual_bump_sorted (c : Z) (l : list SelectBookmark) :
  StronglySorted (fun a b : Bookmark =>
                    lexicographic [desc sortOrder; desc updatedAt] a b ≠ Gt)
    (imap (fun i b => set_sortOrder (bookmark b) (c - Z.of_nat i)) l).
Proof.
  revert c. induction l as [|x l IH]; intros c; [constructor|].
  rewrite imap_cons.
  assert (Htail : imap ((fun i b => set_sortOrder (bookmark b) (c - Z.of_nat i)) ∘ S) l
                  = imap (fun i b => set_sortOrder (bookmark b) (c - 1 - Z.of_nat i)) l).
  { apply imap_ext. intros i b _. simpl. f_equal. lia. }
  rewrite Htail. constructor; [apply IH|].
  apply Forall_forall. intros y (j & b & -> & _)%elem_of_lookup_imap.
  unfold desc. simpl.
  assert (Hlt : (c - 1 - Z.of_nat j ?= c - Z.of_nat 0) = Lt) by (apply Z.compare_lt_iff; lia).
  by rewrite Hlt.
Qed.

Section Reload.
Context `{Env}.

Lemma public_findMany_manual (n : nat) (db : PublicDb) :
  list_ (PublicBookmarkController.findMany (manual_first_page n) db)
  = map (with_relatedTagIds (publicBookmarkToTag db))
      (take n (orderBy [desc sortOrder; desc updatedAt] (publicBookmarks db))).
Proof.
  unfold PublicBookmarkController.findMany, manual_first_page, paginate.
  cbn [list_ keyword tagIds tagNames page limit sorterKey].
  unfold PublicBookmarkController.getFilters, PublicBookmarkController.findMany_tagIds.
  cbn [list_ keyword tagIds tagNames page limit sorterKey app].
  rewrite (filter_all (fun b => and_filters [] b = true)) by done.
  reflexivity.
Qed.

(** With no active filter, when the displayed list holds every stored
    bookmark once, saving the displayed order and loading the first page
    again under the manual sorter (with a page size that holds them all)
    gives the bookmarks in the displayed order, each with its new sort order
    and its other columns as stored. *)
Theorem saved_manual_order_is_the_order_loaded
    (st : BookmarkListPage.State) (bookmarks : list SelectBookmark) (db : PublicDb)
    (n : nat) :
  BookmarkListPage.hasFilter st = false →
  bookmarks ≠ [] →
  NoDup (map (fun b => id (bookmark b)) bookmarks) →
  map bookmark bookmarks ≡ₚ publicBookmarks db →
  (length bookmarks ≤ n)%nat →
  ∃ orders,
    BookmarkListPage.onSaveSorting st bookmarks = Some orders
    ∧ map (fun b => id (bookmark b))
        (list_ (PublicBookmarkController.findMany (manual_first_page n)
                  (PublicBookmarkController.sort orders db)))
      = map (fun b => id (bookmark b)) bookmarks
    ∧ map bookmark
        (list_ (PublicBookmarkController.findMany (manual_first_page n)
                  (PublicBookmarkController.sort orders db)))
      = imap (fun i b =>
                set_sortOrder (bookmark b)
                  (BookmarkListPage.Math_max0 (map BookmarkListPage.sortOrder_or_0 bookmarks)
                   + Z.of_nat (length bookmarks) - Z.of_nat i)) bookmarks.
Proof.
  intros Hf Hne Hnd Hperm Hn.
  set (base := BookmarkListPage.Math_max0 (map BookmarkListPage.sortOrder_or_0 bookmarks)
               + Z.of_nat (length bookmarks)).
  set (orders := imap (fun idx b => (id (bookmark b), base - Z.of_nat idx)) bookmarks).
  set (T := imap (fun i b => set_sortOrder (bookmark b) (base - Z.of_nat i)) bookmarks).
  assert (Hsave : BookmarkListPage.onSaveSorting st bookmarks = Some orders).
  { unfold BookmarkListPage.onSaveSorting, BookmarkListPage.computeOrders. rewrite Hf.
    simpl. by destruct bookmarks. }
  assert (Hkeys : NoDup orders.*1) by (unfold orders; by rewrite fst_imap).
  set (G := fun b : Bookmark => match (list_to_map orders : gmap Z Z) !! id b with
                                | Some o => set_sortOrder b o
                                | None => b
                                end).
  assert (HT : map G (map bookmark bookmarks) = T).
  { apply list_eq. intros i. unfold T.
    rewrite !list_lookup_fmap, list_lookup_imap.
    destruct (bookmarks !! i) as [b|] eqn:Hb; [|done]. simpl. f_equal. unfold G.
    rewrite (elem_of_list_to_map_1 _ _ (base - Z.of_nat i) Hkeys); [done|].
    apply elem_of_lookup_imap. by exists i, b. }
  assert (Hrows : publicBookmarks (PublicBookmarkController.sort orders db) ≡ₚ T).
  { rewrite public_sort_rows by done. rewrite <- HT. by rewrite <- Hperm. }
  assert (Hlist : map bookmark
                    (list_ (PublicBookmarkController.findMany (manual_first_page n)
                              (PublicBookmarkController.sort orders db))) = T).
  { rewrite public_findMany_manual, map_map.
    rewrite (map_ext _ (fun b => b)) by done. rewrite map_id.
    set (rows := publicBookmarks (PublicBookmarkController.sort orders db)) in *.
    assert (Hrows' : rows ≡ₚ T) by exact Hrows.
    rewrite take_ge; last first.
    { rewrite length_orderBy, Hrows'. unfold T. by rewrite length_imap. }
    unfold orderBy.
    apply (StronglySorted_unique_strong
             (fun a b : Bookmark => lexicographic [desc sortOrder; desc updatedAt] a b ≠ Gt)).
    - intros x1 x2 Hx1 Hx2 H12 H21.
      assert (Hx1' : x1 ∈ T).
      { rewrite <- Hrows'. by rewrite merge_sort_Permutation in Hx1. }
      clear Hx1. apply elem_of_lookup_imap in Hx1' as (i & b1 & -> & Hb1).
      apply elem_of_lookup_imap in Hx2 as (j & b2 & -> & Hb2).
      unfold desc in H12, H21. simpl in H12, H21.
      destruct (base - Z.of_nat j ?= base - Z.of_nat i) eqn:Hc1; [|clear H12|done].
      + apply Z.compare_eq_iff in Hc1. assert (i = j) by lia. subst j.
        rewrite Hb1 in Hb2. by injection Hb2 as ->.
      + destruct (base - Z.of_nat i ?= base - Z.of_nat j) eqn:Hc2; [| |done].
        * exfalso. rewrite Z.compare_eq_iff in Hc2. rewrite Z.compare_lt_iff in Hc1. lia.
        * exfalso. rewrite Z.compare_lt_iff in Hc1, Hc2. lia.
    - apply (orderBy_sorted [desc sortOrder; desc updatedAt] rows).
      repeat constructor; apply order_comparison_desc.
    - apply manual_bump_sorted.
    - by rewrite merge_sort_Permutation. }
  exists orders. split; [exact Hsave|]. split.
  - rewrite <- (map_map bookmark id), Hlist. unfold T.
    change (map id (imap _ bookmarks))
      with (id <$> imap (fun i b => set_sortOrder (bookmark b) (base - Z.of_nat i)) bookmarks).
    rewrite fmap_imap. symmetry.
    change (map _ bookmarks) with ((fun b => id (bookmark b)) <$> bookmarks).
    rewrite <- (imap_const (fun b => id (bookmark b)) bookmarks). by apply imap_ext.
  - exact Hlist.
Qed.
End Reload.

Lemma saved_manual_order_is_the_order_loaded_witness :
  ∃ orders,
    BookmarkListPage.onSaveSorting (BookmarkListPage.mkState None "")
      [mkSelect (mkBookmark 2 "b" "https://b.example" None None false (Some 5) None None) [];
       mkSelect (mkBookmark 1 "a" "https://a.example" None None false (Some 10) None None) []]
    = Some orders
    ∧ map (fun b => id (bookmark b))
        (list_ (PublicBookmarkController.findMany (H:=Fixtures.env) (manual_first_page 20)
                  (PublicBookmarkController.sort orders
                     (mkPublicDb []
                        [mkBookmark 1 "a" "https://a.example" None None false (Some 10) None None;
                         mkBookmark 2 "b" "https://b.example" None None false (Some 5) None None]
                        [] 3))))
      = [2; 1].
Proof.
  destruct (saved_manual_order_is_the_order_loaded (H:=Fixtures.env)
              (BookmarkListPage.mkState None "")
              [mkSelect (mkBookmark 2 "b" "https://b.example" None None false (Some 5) None None) [];
               mkSelect (mkBookmark 1 "a" "https://a.example" None None false (Some 10) None None) []]
              (mkPublicDb []
                 [mkBookmark 1 "a" "https://a.example" None None false (Some 10) None None;
                  mkBookmark 2 "b" "https://b.example" None None false (Some 5) None None]
                 [] 3) 20)
    as (orders & Hsave & Hids & _).
  - reflexivity.
  - discriminate.
  - apply NoDup_cons. split; [|apply NoDup_singleton].
    intros Hin%list_elem_of_singleton. discriminate.
  - apply perm_swap.
  - simpl. lia.
  - exists orders. split; [exact Hsave|exact Hids].
Defined.

(** ** [onSaveSorting] under a filter *)

Lemma sort_desc_Permutation (xs : list Z) : BookmarkListPage.sort_desc xs ≡ₚ xs.
Proof. apply merge_sort_Permutation. Qed.

Lemma sort_desc_sorted (xs : list Z) : StronglySorted Z.ge (BookmarkListPage.sort_desc xs).
Proof.
  unfold BookmarkListPage.sort_desc.
  apply (@StronglySorted_merge_sort Z Z.ge _).
  - intros x y z ? ?. lia.
  - intros x y. lia.
Qed.

Lemma sort_desc_of_sorted (xs : list Z) :
  StronglySorted Z.ge xs → BookmarkListPage.sort_desc xs = xs.
Proof.
  intros Hs. apply (StronglySorted_unique_strong Z.ge).
  - intros x y _ _ ? ?. lia.
  - apply sort_desc_sorted.
  - done.
  - apply sort_desc_Permutation.
Qed.

Lemma filter_none {A : Type} (P : A → Prop) `{∀ x, Decision (P x)} (l : list A) :
  (∀ x, x ∈ l → ¬ P x) → filter P l = [].
Proof.
  intros Hno. destruct (filter P l) as [|x l'] eqn:Hf; [done|].
  assert (Hin : x ∈ filter P l) by (rewrite Hf; left).
  apply list_elem_of_filter in Hin as [HP Hx]. by destruct (Hno x Hx).
Qed.

Section SaveFiltered.
Import BookmarkListPage.

(** With an active filter and a non-empty displayed list of [n] bookmarks,
    [onSaveSorting] writes only to bookmarks whose order changes.  When the
    displayed sort orders are not all equal, every order written is one of
    the displayed bookmarks' previous orders (the orders are handed out
    again, the greatest first), and a list whose orders already descend is
    left without any write.  When they are all equal to some [v], every
    displayed bookmark is written, the one at index [i] getting
    [v + n - i]: this happens whether or not the list was reordered, and also
    for a single displayed bookmark. *)
Theorem filtered_sort_reuses_displayed_orders (st : State) (bookmarks : list SelectBookmark) :
  hasFilter st = true →
  bookmarks ≠ [] →
  ∃ orders,
    onSaveSorting st bookmarks = Some orders
    ∧ (∀ el, el ∈ orders →
             ∃ i b, bookmarks !! i = Some b ∧ fst el = id (bookmark b)
                    ∧ snd el ≠ sortOrder_or_0 b)
    ∧ ((∃ b1 b2, b1 ∈ bookmarks ∧ b2 ∈ bookmarks ∧ sortOrder_or_0 b1 ≠ sortOrder_or_0 b2) →
       (∀ el, el ∈ orders → ∃ b, b ∈ bookmarks ∧ snd el = sortOrder_or_0 b)
       ∧ (StronglySorted Z.ge (map sortOrder_or_0 bookmarks) → orders = []))
    ∧ (∀ v, (∀ b, b ∈ bookmarks → sortOrder_or_0 b = v) →
            orders = imap (fun i b => (id (bookmark b),
                                       v + Z.of_nat (length bookmarks) - Z.of_nat i))
                       bookmarks).
Proof.
  intros Hf Hne.
  exists (computeOrders st bookmarks). split; [by destruct bookmarks|].
  unfold computeOrders. rewrite Hf. simpl.
  set (olds := map sortOrder_or_0 bookmarks).
  set (sorted := sort_desc olds).
  set (first := default 0 (head sorted)).
  set (targetOrders := if forallb _ sorted then _ else _).
  set (triples := imap (fun idx b => (id (bookmark b), default 0 (targetOrders !! idx),
                                      sortOrder_or_0 b)) bookmarks).
  assert (Hperm : sorted ≡ₚ olds) by apply sort_desc_Permutation.
  assert (Hlen : length sorted = length bookmarks).
  { rewrite Hperm. unfold olds. apply length_map. }
  assert (Hin : ∀ el, el ∈ map (fun el : Z * Z * Z => (fst (fst el), snd (fst el)))
                             (filter (fun el : Z * Z * Z => snd (fst el) ≠ snd el) triples) →
                      ∃ i b, bookmarks !! i = Some b ∧ fst el = id (bookmark b)
                             ∧ snd el = default 0 (targetOrders !! i)
                             ∧ snd el ≠ sortOrder_or_0 b).
  { intros el ([[i' o] old] & -> & [Hch Hel]%list_elem_of_filter)%list_elem_of_fmap.
    apply elem_of_lookup_imap in Hel as (i & b & [= -> -> ->] & Hb).
    by exists i, b. }
  split; [|split].
  - intros el (i & b & Hb & ? & _ & ?)%Hin. by exists i, b.
  - intros (b1 & b2 & Hb1 & Hb2 & Hdiff).
    assert (Hall : forallb (fun v => bool_decide (v = first)) sorted = false).
    { apply not_true_is_false. intros Hall.
      apply Is_true_true_2, forallb_True in Hall. rewrite Forall_forall in Hall.
      assert (Hv : ∀ b, b ∈ bookmarks → sortOrder_or_0 b = first).
      { intros b Hb. assert (Hx : sortOrder_or_0 b ∈ sorted).
        { rewrite Hperm. unfold olds. apply list_elem_of_fmap. by exists b. }
        apply Hall in Hx. by apply bool_decide_unpack in Hx. }
      by rewrite (Hv b1), (Hv b2) in Hdiff. }
    subst triples targetOrders. rewrite Hall in *. split.
    + intros el (i & b & Hb & _ & Ho & _)%Hin.
      assert (Hi : (i < length sorted)%nat) by (rewrite Hlen; by eapply lookup_lt_Some).
      apply lookup_lt_is_Some in Hi as [t Ht]. rewrite Ht in Ho. simpl in Ho.
      assert (Htin : t ∈ olds).
      { rewrite <- Hperm. by eapply list_elem_of_lookup_2. }
      apply list_elem_of_fmap in Htin as (b' & -> & Hb'). by exists b'.
    + intros Hsorted.
      assert (Hid : sorted = olds) by by apply sort_desc_of_sorted.
      rewrite filter_none; [done|].
      intros [[i' o] old] (i & b & [= -> -> ->] & Hb)%elem_of_lookup_imap. simpl.
      rewrite Hid. unfold olds.
      change (map sortOrder_or_0 bookmarks) with (sortOrder_or_0 <$> bookmarks).
      rewrite list_lookup_fmap, Hb. simpl. tauto.
  - intros v Hv.
    assert (Hsv : ∀ x, x ∈ sorted → x = v).
    { intros x Hx. rewrite Hperm in Hx. unfold olds in Hx.
      apply list_elem_of_fmap in Hx as (b & -> & Hb). by apply Hv. }
    assert (Hfirst : first = v).
    { unfold first. destruct sorted as [|x sorted'] eqn:Hs.
      - destruct bookmarks; [done|discriminate].
      - simpl. apply Hsv. left. }
    assert (Hall : forallb (fun v => bool_decide (v = first)) sorted = true).
    { apply Is_true_true_1, forallb_True, Forall_forall. intros x Hx.
      apply bool_decide_pack. rewrite Hfirst. by apply Hsv. }
    subst triples targetOrders. rewrite Hall in *.
    rewrite filter_all.
    + match goal with |- map ?f ?l = _ => change (map f l) with (f <$> l) end.
      rewrite fmap_imap.
      apply imap_ext. intros i b Hb. simpl. rewrite list_lookup_imap, Hb. simpl.
      f_equal. rewrite Hfirst. lia.
    + intros [[i' o] old] (i & b & [= -> -> ->] & Hb)%elem_of_lookup_imap. simpl.
      rewrite list_lookup_imap, Hb. simpl. rewrite Hfirst, (Hv b).
      * apply lookup_lt_Some in Hb. lia.
      * by eapply list_elem_of_lookup_2.
Qed.
End SaveFiltered.

Lemma filtered_sort_reuses_displayed_orders_witness :
  BookmarkListPage.onSaveSorting (BookmarkListPage.mkState (Some "7"%string) "")
    [mkSelect (mkBookmark 2 "b" "https://b.example" None None false (Some 5) None None) [7];
     mkSelect (mkBookmark 1 "a" "https://a.example" None None false (Some 10) None None) [7]]
  = Some [(2, 10); (1, 5)]
  ∧ BookmarkListPage.onSaveSorting (BookmarkListPage.mkState (Some "7"%string) "")
      [mkSelect (mkBookmark 2 "b" "https://b.example" None None false (Some 5) None None) [7]]
    = Some [(2, 6)].
Proof.
  split.
  - destruct (filtered_sort_reuses_displayed_orders
                (BookmarkListPage.mkState (Some "7"%string) "")
                [mkSelect (mkBookmark 2 "b" "https://b.example" None None false (Some 5)
                             None None) [7];
                 mkSelect (mkBookmark 1 "a" "https://a.example" None None false (Some 10)
                             None None) [7]]
                eq_refl ltac:(discriminate))
      as (orders & Hsave & _).
    rewrite Hsave. f_equal. injection Hsave as <-. reflexivity.
  - destruct (filtered_sort_reuses_displayed_orders
                (BookmarkListPage.mkState (Some "7"%string) "")
                [mkSelect (mkBookmark 2 "b" "https://b.example" None None false (Some 5)
                             None None) [7]]
                eq_refl ltac:(discriminate))
      as (orders & Hsave & _ & _ & Hsame).
    rewrite Hsave, (Hsame 5); [reflexivity|].
    intros b ->%list_elem_of_singleton. reflexivity.
Defined.

(** ** The page count of the list page *)

Lemma Math_ceil_div_le (a b k : nat) :
  (0 < b)%nat → (BookmarkListPage.Math_ceil_div a b ≤ k ↔ a ≤ k * b)%nat.
Proof.
  intros Hb. unfold BookmarkListPage.Math_ceil_div.
  pose proof (Nat.div_mod_eq a b) as Hdm.
  pose proof (Nat.mod_upper_bound a b ltac:(lia)) as Hm.
  destruct (Nat.eqb_spec (a mod b) 0); nia.
Qed.

Lemma pager_describes_intro (q : FindManyQuery) (r : FindManyResult) :
  (0 < limit q)%nat → (1 ≤ page q)%nat →
  length (list_ r) = (limit q `min` (total r - (page q - 1) * limit q))%nat →
  (hasMore r = true ↔ (page q * limit q < total r)%nat) →
  pager_describes q r.
Proof.
  intros Hl Hp Hsize Hmore. unfold pager_describes, BookmarkListPage.pager_total.
  set (C := BookmarkListPage.Math_ceil_div (total r) (limit q)).
  assert (Hle : ∀ k, (C ≤ k ↔ total r ≤ k * limit q)%nat)
    by (intros k; by apply Math_ceil_div_le).
  assert (Hup : (total r ≤ C * limit q)%nat) by by apply Hle.
  assert (Hlow : (0 < total r → (C - 1) * limit q < total r)%nat).
  { intros Ht. destruct (decide (total r ≤ (C - 1) * limit q)%nat) as [Hc|]; [|lia].
    apply Hle in Hc. assert (C = 0%nat) by lia. subst C. nia. }
  assert (Hpos : (0 < total r → 1 ≤ C)%nat).
  { intros Ht. destruct C; [|lia]. simpl in Hup. lia. }
  split_and!.
  - lia.
  - nia.
  - intros Ht. specialize (Hpos Ht). rewrite Nat.max_r by done. by apply Hlow.
  - rewrite Hmore. split.
    + intros Hm. assert (¬ (C ≤ page q)%nat) by (rewrite Hle; lia). lia.
    + intros Hm. destruct (decide (total r ≤ page q * limit q)%nat) as [Hc|]; [|lia].
      apply Hle in Hc. lia.
  - intros Hafter. apply length_zero_iff_nil. rewrite Hsize.
    assert (total r ≤ (page q - 1) * limit q)%nat; [|lia].
    apply Hle. lia.
  - intros Ht Hlast Hnil. apply (f_equal length) in Hnil. rewrite Hsize in Hnil.
    simpl in Hnil. specialize (Hpos Ht). rewrite Nat.max_r in Hlast by done.
    specialize (Hlow Ht). rewrite Hlast in Hnil. lia.
Qed.

Section Pager.
Context `{Env}.

(** For a positive page size and a page number from 1 on, the page count
    the list page computes from the [total] of [findMany] describes the pages
    of [findMany], in both spaces: see [pager_describes]. *)
Theorem pager_total_counts_the_pages (q : FindManyQuery) :
  (0 < limit q)%nat →
  (1 ≤ page q)%nat →
  (∀ db, pager_describes q (PublicBookmarkController.findMany q db))
  ∧ (∀ s db uid, getAuthedUserId s db = Ok uid →
       ∃ r, UserBookmarkController.findMany s q db = Ok r ∧ pager_describes q r).
Proof.
  intros Hl Hp. split.
  - intros db. destruct (public_findMany_eq q db) as (ordered & Hlen & _ & _ & Hlist).
    apply pager_describes_intro; [done|done| |].
    + by rewrite Hlist, length_map, length_paginate, Hlen.
    + unfold PublicBookmarkController.findMany. simpl. apply bool_decide_eq_true.
  - intros s db uid Hauth.
    destruct (user_findMany_eq s q db uid Hauth) as (ordered & r & Hr & Hlen & Hlist & _).
    exists r. split; [done|]. apply pager_describes_intro; [done|done| |].
    + by rewrite Hlist, length_map, length_paginate, Hlen.
    + unfold UserBookmarkController.findMany in Hr. rewrite Hauth in Hr. simpl in Hr.
      injection Hr as <-. simpl. apply bool_decide_eq_true.
Qed.
End Pager.

Lemma pager_total_counts_the_pages_witness :
  pager_describes (mkQuery "" [] [] 1 20 Manual)
    (PublicBookmarkController.findMany (H:=Fixtures.env) (mkQuery "" [] [] 1 20 Manual)
       Fixtures.public_db).
Proof.
  apply (pager_total_counts_the_pages (H:=Fixtures.env) (mkQuery "" [] [] 1 20 Manual));
    simpl; lia.
Defined.

(** ** [recent], [search] and [total] as queries of [findMany] *)

Section FirstPages.
Context `{Env}.

Lemma public_findMany_keyword (kw : string) (n : nat) (db : PublicDb) :
  kw ≠ EmptyString →
  list_ (PublicBookmarkController.findMany (keyword_first_page kw n) db)
  = map (with_relatedTagIds (publicBookmarkToTag db))
      (take n (orderBy [desc sortOrder; desc updatedAt]
                 (filter (fun b => createBookmarkFilterByKeyword kw b = true)
                    (publicBookmarks db)))).
Proof.
  intros Hkw. destruct kw as [|c kw]; [done|].
  unfold PublicBookmarkController.findMany, keyword_first_page, paginate.
  cbn [list_ keyword tagIds tagNames page limit sorterKey].
  unfold PublicBookmarkController.getFilters, PublicBookmarkController.findMany_tagIds.
  cbn [list_ keyword tagIds tagNames page limit sorterKey app].
  rewrite (list_filter_iff (fun b => and_filters [createBookmarkFilterByKeyword (String c kw)] b
                                     = true)
             (fun b => createBookmarkFilterByKeyword (String c kw) b = true)); [done|].
  intros b. unfold and_filters. simpl. by rewrite andb_true_r.
Qed.

Lemma user_findMany_first_page (s : option Session) (kw : string) (n : nat) (db : UserDb)
    (uid : UserId) (P : UserBookmark → Prop) `{∀ b, Decision (P b)} :
  getAuthedUserId s db = Ok uid →
  (∀ b, and_filters (UserBookmarkController.getFilters uid (keyword_first_page kw n) db) b = true
        ↔ P b) →
  ∃ r, UserBookmarkController.findMany s (keyword_first_page kw n) db = Ok r
       ∧ total r = length (filter P (userBookmarks db))
       ∧ list_ r
         = map (fun b => with_relatedTagIds (userBookmarkToTag db) (row b))
             (take n (orderBy [desc (fun b => sortOrder (row b));
                               desc (fun b => updatedAt (row b))]
                        (filter P (userBookmarks db)))).
Proof.
  intros Hauth HP. unfold UserBookmarkController.findMany. rewrite Hauth. simpl.
  eexists. split; [reflexivity|]. simpl.
  rewrite (list_filter_iff _ P _ HP). split; [done|].
  unfold paginate. simpl. by rewrite drop_0.
Qed.

(** [recent] is the first page of [findMany] under the manual sorter with
    no filter, [total] is the [total] of that query, and [search] for a
    non-empty keyword is the first 100 bookmarks of [findMany] for that
    keyword under the manual sorter; in the user space likewise under a valid
    session. *)
Theorem recent_and_search_are_first_pages (pageSize : nat) (kw : string) :
  (∀ db,
      PublicBookmarkController.recent pageSize db
      = list_ (PublicBookmarkController.findMany (keyword_first_page "" pageSize) db)
      ∧ PublicBookmarkController.total_ db
        = total (PublicBookmarkController.findMany (keyword_first_page "" pageSize) db)
      ∧ (kw ≠ EmptyString →
         PublicBookmarkController.search kw db
         = list_ (PublicBookmarkController.findMany (keyword_first_page kw 100) db)))
  ∧ (∀ s db uid, getAuthedUserId s db = Ok uid →
       (∃ r, UserBookmarkController.findMany s (keyword_first_page "" pageSize) db = Ok r
             ∧ UserBookmarkController.recent pageSize s db = Ok (list_ r)
             ∧ UserBookmarkController.total_ s db = Ok (total r))
       ∧ (kw ≠ EmptyString →
          ∃ r, UserBookmarkController.findMany s (keyword_first_page kw 100) db = Ok r
               ∧ UserBookmarkController.search s kw db = Ok (list_ r))).
Proof.
  split.
  - intros db. split_and!.
    + symmetry. apply (public_findMany_manual pageSize db).
    + unfold PublicBookmarkController.findMany, PublicBookmarkController.total_. simpl.
      by rewrite (filter_all (fun b => and_filters [] b = true)).
    + intros Hkw. symmetry. by apply public_findMany_keyword.
  - intros s db uid Hauth. split.
    + destruct (user_findMany_first_page s "" pageSize db uid (fun b => userId b = uid) Hauth)
        as (r & Hr & Htotal & Hlist).
      { intros b. unfold UserBookmarkController.getFilters, UserBookmarkController.newTagIds,
          UserBookmarkController.findMany_tagIds, filterUserTagIds, and_filters. simpl.
        by rewrite andb_true_r, bool_decide_eq_true. }
      exists r. split; [done|].
      unfold UserBookmarkController.recent, UserBookmarkController.total_.
      rewrite Hauth. simpl. by rewrite Hlist, Htotal.
    + intros Hkw. destruct kw as [|c kw]; [done|].
      destruct (user_findMany_first_page s (String c kw) 100 db uid
                  (fun b => createBookmarkFilterByKeyword (String c kw) (row b) = true
                            ∧ userId b = uid) Hauth)
        as (r & Hr & _ & Hlist).
      { intros b. unfold UserBookmarkController.getFilters, UserBookmarkController.newTagIds,
          UserBookmarkController.findMany_tagIds, filterUserTagIds, and_filters. simpl.
        rewrite andb_true_r, andb_true_iff, bool_decide_eq_true. tauto. }
      exists r. split; [done|].
      unfold UserBookmarkController.search. rewrite Hauth. simpl. by rewrite Hlist.
Qed.
End FirstPages.

(** ** [insert] followed by [insert] or [delete] *)

Section InsertAgain.
Context `{Env}.

Lemma public_insert_Ok sch now draft db r db' :
  PublicBookmarkController.insert sch now draft db = Ok (r, db') →
  name r = ins_name draft ∧ url r = ins_url draft ∧ r ∈ publicBookmarks db'.
Proof.
  intros Hrun.
  destruct (public_insert_fresh sch now draft db) as (r0 & db0 & Hrun0 & Hfacts).
  - intros b Hb. split; intros Heq.
    + assert (Hdup : PublicBookmarkController.insert sch now draft db = Err BookmarkExists)
        by (apply public_insert_duplicate; exists b; auto).
      rewrite Hdup in Hrun. discriminate.
    + assert (Hdup : PublicBookmarkController.insert sch now draft db = Err BookmarkExists)
        by (apply public_insert_duplicate; exists b; auto).
      rewrite Hdup in Hrun. discriminate.
  - rewrite Hrun in Hrun0. by injection Hrun0 as <- <-.
Qed.

Lemma user_insert_Ok sch s now draft db uid r db' :
  getAuthedUserId s db = Ok uid →
  UserBookmarkController.insert sch s now draft db = Ok (r, db') →
  name r = ins_name draft ∧ url r = ins_url draft
  ∧ mkUserBookmark uid r ∈ userBookmarks db' ∧ users db' = users db.
Proof.
  intros Hauth Hrun.
  destruct (user_insert_fresh sch s now draft db uid Hauth) as (r0 & db0 & Hrun0 & Hfacts).
  - intros b Hb Hu. split; intros Heq.
    + assert (Hdup : UserBookmarkController.insert sch s now draft db = Err UserBookmarkExists)
        by (apply (user_insert_duplicate sch s now draft db uid Hauth); exists b; auto).
      rewrite Hdup in Hrun. discriminate.
    + assert (Hdup : UserBookmarkController.insert sch s now draft db = Err UserBookmarkExists)
        by (apply (user_insert_duplicate sch s now draft db uid Hauth); exists b; auto).
      rewrite Hdup in Hrun. discriminate.
  - rewrite Hrun in Hrun0. injection Hrun0 as <- <-.
    destruct Hfacts as (? & ? & ?). split_and!; try done.
    unfold UserBookmarkController.insert in Hrun. rewrite Hauth in Hrun. simpl in Hrun.
    case_bool_decide; [done|].
    set (db1 := mkUserDb _ _ _ _ _) in Hrun.
    destruct (user_fullSet_ok sch s (userBookmarkSeq db) (ins_relatedTagIds draft) db1 uid)
      as (db2 & Hset & Husers & _); [by rewrite <- Hauth|].
    rewrite Hset in Hrun. simpl in Hrun.
    destruct (ins_sortOrder draft); injection Hrun as _ <-; exact Husers.
Qed.

(** After a successful [insert], a further [insert] of a draft with the
    same name or the same url is rejected as a duplicate, whatever else the
    draft holds and whenever it is made; in the user space this holds for the
    same user. *)
Theorem insert_again_is_rejected
    (sch sch' : Store.schedule) (now now' : Z) (draft draft' : InsertBookmark) :
  ins_url draft' = ins_url draft ∨ ins_name draft' = ins_name draft →
  (∀ db r db',
      PublicBookmarkController.insert sch now draft db = Ok (r, db') →
      PublicBookmarkController.insert sch' now' draft' db' = Err BookmarkExists)
  ∧ (∀ s db uid r db',
      getAuthedUserId s db = Ok uid →
      UserBookmarkController.insert sch s now draft db = Ok (r, db') →
      UserBookmarkController.insert sch' s now' draft' db' = Err UserBookmarkExists).
Proof.
  intros Hsame. split.
  - intros db r db' (Hn & Hu & Hin)%public_insert_Ok.
    apply public_insert_duplicate. exists r. split; [done|].
    rewrite Hn, Hu. destruct Hsame; auto.
  - intros s db uid r db' Hauth Hrun.
    destruct (user_insert_Ok _ _ _ _ _ _ _ _ Hauth Hrun) as (Hn & Hu & Hin & Husers).
    apply (user_insert_duplicate sch' s now' draft' db' uid).
    + rewrite <- Hauth. by apply getAuthedUserId_users.
    + exists (mkUserBookmark uid r). split; [done|]. split; [done|]. simpl.
      rewrite Hn, Hu. destruct Hsame; auto.
Qed.
End InsertAgain.

Lemma insert_again_is_rejected_witness :
  ∃ r db',
    PublicBookmarkController.insert (H:=Fixtures.env) Store.FirstThenSecond 1700000000001
      (mkInsert "stdpp" "https://gitlab.mpi-sws.org/iris/stdpp" None None None None None)
      Fixtures.public_db = Ok (r, db')
    ∧ PublicBookmarkController.insert (H:=Fixtures.env) Store.SecondThenFirst 1700000000002
        (mkInsert "std++" "https://gitlab.mpi-sws.org/iris/stdpp" None None None (Some 3)
           (Some [1])) db' = Err BookmarkExists.
Proof.
  eexists _, _. split; [reflexivity|].
  refine (proj1 (insert_again_is_rejected (H:=Fixtures.env)
                   Store.FirstThenSecond Store.SecondThenFirst 1700000000001 1700000000002
                   (mkInsert "stdpp" "https://gitlab.mpi-sws.org/iris/stdpp" None None None
                      None None)
                   (mkInsert "std++" "https://gitlab.mpi-sws.org/iris/stdpp" None None None
                      (Some 3) (Some [1]))
                   (or_introl eq_refl))
            Fixtures.public_db _ _ eq_refl).
Defined.

Section InsertDelete.
Context `{Env}.

Lemma public_insert_rows sch now draft db r db' :
  (∀ b, b ∈ publicBookmarks db → id b ≠ publicBookmarkSeq db) →
  PublicBookmarkController.insert sch now draft db = Ok (r, db') →
  publicBookmarks db' = publicBookmarks db ++ [r] ∧ id r = publicBookmarkSeq db.
Proof.
  intros Hid. unfold PublicBookmarkController.insert.
  case_bool_decide; [done|].
  set (new := mkBookmark _ _ _ _ _ _ _ _ _).
  assert (Hold : update_where (fun b => bool_decide (id b = publicBookmarkSeq db))
                   (fun b => set_sortOrder b (publicBookmarkSeq db)) (publicBookmarks db)
                 = publicBookmarks db).
  { apply update_where_none. intros b Hb. apply bool_decide_eq_false. by apply Hid. }
  destruct (ins_relatedTagIds draft) as [[|t ts]|]; simpl;
    destruct (ins_sortOrder draft) as [o|] eqn:Ho; simpl; intros [= <- <-]; simpl;
    rewrite ?update_where_app, ?Hold; simpl; rewrite ?bool_decide_true by done; done.
Qed.

(** In the public space, when the generated id is the id of no stored
    bookmark, [delete] of the id returned by a successful [insert] returns
    the inserted row alone and leaves the bookmark table as it was before the
    [insert]. *)
Theorem public_delete_undoes_insert
    (sch : Store.schedule) (now : Z) (draft : InsertBookmark) (db : PublicDb)
    (r : Bookmark) (db' : PublicDb) :
  (∀ b, b ∈ publicBookmarks db → id b ≠ publicBookmarkSeq db) →
  PublicBookmarkController.insert sch now draft db = Ok (r, db') →
  fst (PublicBookmarkController.delete (id r) db') = [r]
  ∧ publicBookmarks (snd (PublicBookmarkController.delete (id r) db')) = publicBookmarks db.
Proof.
  intros Hid Hrun. destruct (public_insert_rows _ _ _ _ _ _ Hid Hrun) as [Hrows Hr].
  unfold PublicBookmarkController.delete. simpl. rewrite Hrows. split.
  - rewrite filter_app, filter_none.
    + simpl. rewrite filter_cons_True by by apply bool_decide_eq_true. done.
    + intros b Hb Hp%bool_decide_eq_true. rewrite Hr in Hp. by apply (Hid b).
  - unfold Store.delete_where. rewrite filter_app, filter_all.
    + rewrite filter_none; [by rewrite app_nil_r|].
      intros b ->%list_elem_of_singleton Hp. by apply bool_decide_eq_false in Hp.
    + intros b Hb. apply bool_decide_eq_false. rewrite Hr. by apply Hid.
Qed.
End InsertDelete.

Lemma public_delete_undoes_insert_witness :
  ∃ r db',
    PublicBookmarkController.insert (H:=Fixtures.env) Store.FirstThenSecond 1700000000001
      (mkInsert "stdpp" "https://gitlab.mpi-sws.org/iris/stdpp" None None None None None)
      Fixtures.public_db = Ok (r, db')
    ∧ publicBookmarks (snd (PublicBookmarkController.delete (id r) db'))
      = publicBookmarks Fixtures.public_db.
Proof.
  eexists _, _. split; [reflexivity|].
  refine (proj2 (public_delete_undoes_insert (H:=Fixtures.env) Store.FirstThenSecond
                   1700000000001
                   (mkInsert "stdpp" "https://gitlab.mpi-sws.org/iris/stdpp" None None None
                      None None)
                   Fixtures.public_db _ _ _ eq_refl)).
  intros b ->%list_elem_of_singleton. discriminate.
Defined.
